(** * Personal finance tracker: a shallow embedding of [app.py]

    The development follows the data flow of the program: text helpers,
    binary64 amounts and Python's [float()] on text, the ledger frame and
    [load_transactions], the transaction hash, the annotation store, the
    monthly aggregation and the per-month detail assembly.

    Text is modelled over the code points U+0000..U+00FF: a [str] is a list
    of [ascii], each read as the code point of that number.  Amounts are
    IEEE 754 binary64 values, as Python's [float] is, through the
    Standard Library's [spec_float] with [prec = 53] and [emax = 1024]. *)

From Stdlib Require Import Ascii String.
From Stdlib Require Import ZArith NArith QArith List Bool Lia.
From Stdlib Require Import SpecFloat.
Import ListNotations.

Local Open Scope Z_scope.

(** ** Exceptions and results *)

Definition str := list ascii.

Definition lit (s : string) : str := list_ascii_of_string s.

(** The exceptions the program can raise.  A [ValueError] carries its
    message; [MissingColumns cols] is the
    [ValueError("Missing required columns: [...]")] of [load_transactions];
    [CsvError] is the [_csv.Error] of a field larger than the field limit. *)
Inductive exn :=
| ValueError (msg : str)
| MissingColumns (cols : list str)
| KeyError (key : str)
| TypeError
| AttributeError
| CsvError
| UnicodeEncodeError.

Inductive result (A : Type) :=
| Ok (a : A)
| Raise (e : exn).
Arguments Ok {A} a.
Arguments Raise {A} e.

Definition bind {A B} (r : result A) (k : A -> result B) : result B :=
  match r with
  | Ok a => k a
  | Raise e => Raise e
  end.

Notation "x <- r ;; k" := (bind r (fun x => k))
  (at level 61, r at next level, right associativity).

(** ** Text helpers *)

Module PyStr.

Definition code (c : ascii) : N := N_of_ascii c.

Definition eqc (a b : ascii) : bool := Ascii.eqb a b.

(** [str.isspace] on one character, restricted to U+0000..U+00FF. *)
Definition is_space (c : ascii) : bool :=
  let n := code c in
  (((9 <=? n) && (n <=? 13)) || ((28 <=? n) && (n <=? 32))
   || (n =? 133) || (n =? 160))%N.

Fixpoint lstrip (s : str) : str :=
  match s with
  | c :: r => if is_space c then lstrip r else s
  | [] => []
  end.

Definition rstrip (s : str) : str := rev (lstrip (rev s)).

(** [s.strip()] *)
Definition strip (s : str) : str := rstrip (lstrip s).

(** [s.startswith(c)] for a one-character prefix. *)
Definition startswith (c : ascii) (s : str) : bool :=
  match s with
  | d :: _ => eqc d c
  | [] => false
  end.

(** [s.replace(old, new)] for a one-character [old]. *)
Definition replace (old : ascii) (new : str) (s : str) : str :=
  flat_map (fun c => if eqc c old then new else [c]) s.

(** [sep.join(parts)] *)
Fixpoint join (sep : str) (parts : list str) : str :=
  match parts with
  | [] => []
  | [p] => p
  | p :: rest => p ++ sep ++ join sep rest
  end.

Fixpoint eqb (a b : str) : bool :=
  match a, b with
  | [], [] => true
  | x :: a', y :: b' => eqc x y && eqb a' b'
  | _, _ => false
  end.

Definition is_digit (c : ascii) : bool :=
  ((48 <=? code c) && (code c <=? 57))%N.

Definition digit_val (c : ascii) : N := (code c - 48)%N.

(** Value of a run of decimal digits, most significant first. *)
Definition digits_val (ds : str) : N :=
  fold_left (fun acc c => (10 * acc + digit_val c)%N) ds 0%N.

(** Longest prefix of digits, and what follows it. *)
Fixpoint span_digits (s : str) : str * str :=
  match s with
  | c :: r =>
      if is_digit c then let '(ds, rest) := span_digits r in (c :: ds, rest)
      else ([], s)
  | [] => ([], [])
  end.

(** A predicate holds of every character of a text. *)
Definition every (P : ascii -> bool) (s : str) : Prop :=
  Forall (fun c => P c = true) s.

(** ASCII lower-casing, [Py_TOLOWER]. *)
Definition to_lower (c : ascii) : ascii :=
  if ((65 <=? code c) && (code c <=? 90))%N then ascii_of_N (code c + 32) else c.

End PyStr.

(** ** Binary64 amounts *)

Module PyFloat.
Import PyStr.

Definition float := spec_float.

Definition prec : Z := 53.
Definition emax : Z := 1024.

Definition zero : float := S754_zero false.
Definition nan : float := S754_nan.
Definition inf (neg : bool) : float := S754_infinity neg.

Definition add (x y : float) : float := SFadd prec emax x y.
Definition neg (x : float) : float := SFopp x.
Definition ltb (x y : float) : bool := SFltb x y.
Definition eqb (x y : float) : bool := SFeqb x y.

Definition is_nan (x : float) : bool :=
  match x with S754_nan => true | _ => false end.

(** The binary64 value nearest to [(-1)^sign * m * 10^e] (ties to even):
    what a correctly rounded decimal-to-binary conversion returns;
    overflow gives an infinity, underflow a subnormal or a zero. *)
Definition of_decimal (sign : bool) (m : N) (e : Z) : float :=
  match m with
  | N0 => S754_zero sign
  | Npos p =>
      if 0 <=? e
      then binary_round prec emax sign (p * Z.to_pos (10 ^ e)) 0
      else SFdiv prec emax (S754_finite sign p 0)
                           (S754_finite false (Z.to_pos (10 ^ (- e))) 0)
  end.

(** *** Python's [float(text)]

    The steps of [PyFloat_FromString]: code points above U+007E that are
    spaces become a blank (any other one makes the text invalid, and so does
    leaving it in place here); underscores are accepted between two digits
    and dropped; blanks are stripped at both ends; what remains must be, as
    a whole, a signed decimal literal with an optional exponent, or a signed
    [inf], [infinity] or [nan] in any letter case. *)

Definition transform_space (c : ascii) : ascii :=
  if ((code c =? 133) || (code c =? 160))%N then " "%char else c.

(** [_Py_string_to_number_with_underscores]: [prev] is the character before
    the current one, or NUL at the start. *)
Fixpoint drop_underscores (prev : ascii) (s : str) : option str :=
  match s with
  | [] => if eqc prev "_" then None else Some []
  | c :: r =>
      if eqc c "_"
      then if is_digit prev then drop_underscores c r else None
      else if eqc prev "_" && negb (is_digit c) then None
           else match drop_underscores c r with
                | Some r' => Some (c :: r')
                | None => None
                end
  end.

(** [Py_ISSPACE] *)
Definition is_c_space (c : ascii) : bool :=
  (((9 <=? code c) && (code c <=? 13)) || (code c =? 32))%N.

Fixpoint lstrip_c (s : str) : str :=
  match s with
  | c :: r => if is_c_space c then lstrip_c r else s
  | [] => []
  end.

Definition strip_c (s : str) : str := rev (lstrip_c (rev (lstrip_c s))).

Definition take_sign (s : str) : bool * str :=
  match s with
  | c :: r => if eqc c "-" then (true, r)
              else if eqc c "+" then (false, r) else (false, s)
  | [] => (false, [])
  end.

(** The exponent part: [e] or [E], an optional sign and at least one digit;
    anything else is left unread. *)
Definition take_exponent (s : str) : Z * str :=
  match s with
  | c :: r =>
      if eqc (to_lower c) "e" then
        let '(sg, r1) := take_sign r in
        match span_digits r1 with
        | ([], _) => (0, s)
        | (ds, rest) =>
            let v := Z.of_N (digits_val ds) in
            ((if sg then - v else v), rest)
        end
      else (0, s)
  | [] => (0, [])
  end.

(** [_Py_dg_strtod]: the value read and the unread remainder; [None] when no
    digit is found. *)
Definition strtod (s : str) : option (float * str) :=
  let '(sg, s1) := take_sign s in
  let '(ip, s2) := span_digits s1 in
  let '(fp, s3) :=
    match s2 with
    | c :: r => if eqc c "." then span_digits r else ([], s2)
    | [] => ([], [])
    end in
  match ip ++ fp with
  | [] => None
  | ds =>
      let '(ex, s4) := take_exponent s3 in
      Some (of_decimal sg (digits_val ds) (ex - Z.of_nat (length fp)), s4)
  end.

Fixpoint match_lower (pat s : str) : option str :=
  match pat, s with
  | [], _ => Some s
  | p :: pat', c :: s' => if eqc (to_lower c) p then match_lower pat' s' else None
  | _ :: _, [] => None
  end.

(** [_Py_parse_inf_or_nan] *)
Definition parse_inf_or_nan (s : str) : option (float * str) :=
  let '(sg, s1) := take_sign s in
  match match_lower (lit "inf") s1 with
  | Some r =>
      match match_lower (lit "inity") r with
      | Some r' => Some (inf sg, r')
      | None => Some (inf sg, r)
      end
  | None =>
      match match_lower (lit "nan") s1 with
      | Some r => Some (nan, r)
      | None => None
      end
  end.

(** [float(s)]: [None] stands for [ValueError]. *)
Definition py_float (s : str) : option float :=
  match drop_underscores "000"%char (map transform_space s) with
  | None => None
  | Some s1 =>
      let s2 := strip_c s1 in
      let parsed :=
        match strtod s2 with
        | Some r => Some r
        | None => parse_inf_or_nan s2
        end in
      match parsed with
      | Some (x, []) => Some x
      | _ => None
      end
  end.

End PyFloat.

(** ** German amounts *)

Module Amount.
Import PyStr PyFloat.

(** A cell read with [dtype=str]: text, or [None] for a missing value
    ([NaN]). *)
Definition cell := option str.

(** The [except] branch of [parse_german_amount]: one more [float()], on the
    text whose commas were turned into dots and whose dots were then
    removed; its [ValueError] is not caught. *)
Definition fallback (s : str) : result float :=
  match py_float (replace "." [] (replace "," (lit ".") s)) with
  | Some v => Ok v
  | None => Raise (ValueError (lit "could not convert string to float"))
  end.

(** [parse_german_amount], the closure of [load_transactions].  The
    [isinstance(s, (int, float))] branch is not reachable from a column read
    with [dtype=str], whose only non-text value is the missing one. *)
Definition parse_german_amount (s : cell) : result float :=
  match s with
  | None => Ok zero
  | Some [] => Ok zero
  | Some s =>
      let s_clean := strip s in
      let negative := startswith "-" s_clean in
      let s_clean := if negative then tl s_clean else s_clean in
      let s_clean := replace "," (lit ".") (replace "." [] s_clean) in
      match py_float s_clean with
      | Some val => Ok (if negative then neg val else val)
      | None => fallback s
      end
  end.

(** The characters of the body of a German amount, before the comma or
    after it: digits, and dots as thousands separators. *)
Definition digit_or_dot (c : ascii) : bool := is_digit c || eqc c ".".

(** The digits of a body, its dots removed. *)
Definition digits_of (s : str) : str := filter is_digit s.

(** The amount that a body [ip], or [ip , fp], denotes: the decimal number
    whose digits are those of [ip] followed by those of [fp], the latter
    after the decimal point, rounded to the nearest binary64 value. *)
Definition german_value (ip fp : str) : float :=
  of_decimal false (digits_val (digits_of ip ++ digits_of fp))
             (- Z.of_nat (length (digits_of fp))).

(** The text of a German amount: blanks, an optional minus sign, the body
    [ip], optionally a comma and the body [fp], blanks. *)
Definition german_text (ws1 : str) (minus : bool) (ip : str) (comma : bool)
  (fp ws2 : str) : str :=
  ws1 ++ (if minus then [("-")%char] else []) ++ ip
      ++ (if comma then (",")%char :: fp else []) ++ ws2.

(** The text on which the first [float()] of [parse_german_amount] is
    called, and the text of its fallback. *)
Definition primary_text (s : str) : str :=
  let s_clean := strip s in
  let s_clean := if startswith "-" s_clean then tl s_clean else s_clean in
  replace "," (lit ".") (replace "." [] s_clean).



End Amount.

(** ** SHA-256 ([hashlib.sha256]) and UTF-8

    The digest of FIPS 180-4 over 32-bit words held in [Z], with the
    wrap-around written out. *)

Module Sha256.

Definition w32 (x : Z) : Z := x mod 2 ^ 32.

Definition add32 (x y : Z) : Z := w32 (x + y).

Definition rotr (n x : Z) : Z :=
  Z.lor (Z.shiftr x n) (w32 (Z.shiftl x (32 - n))).

Definition not32 (x : Z) : Z := Z.lxor x 0xffffffff.

Definition Ch (x y z : Z) : Z := Z.lxor (Z.land x y) (Z.land (not32 x) z).

Definition Maj (x y z : Z) : Z :=
  Z.lxor (Z.lxor (Z.land x y) (Z.land x z)) (Z.land y z).

Definition Sigma0 (x : Z) : Z := Z.lxor (Z.lxor (rotr 2 x) (rotr 13 x)) (rotr 22 x).
Definition Sigma1 (x : Z) : Z := Z.lxor (Z.lxor (rotr 6 x) (rotr 11 x)) (rotr 25 x).
Definition sigma0 (x : Z) : Z := Z.lxor (Z.lxor (rotr 7 x) (rotr 18 x)) (Z.shiftr x 3).
Definition sigma1 (x : Z) : Z := Z.lxor (Z.lxor (rotr 17 x) (rotr 19 x)) (Z.shiftr x 10).

(** The round constants and the initial hash value are the first 32 bits of
    the fractional parts of the cube roots of the first 64 primes and of the
    square roots of the first 8 primes. *)

Definition is_prime (n : Z) : bool :=
  forallb (fun d => negb (n mod d =? 0))
          (map Z.of_nat (seq 2 (Z.to_nat (Z.sqrt n) - 1))).

Definition primes (count : nat) : list Z :=
  firstn count (filter is_prime (map Z.of_nat (seq 2 310))).

(** The integer cube root of [n], for [n < 2 ^ 120], bit by bit. *)
Definition cube_root (n : Z) : Z :=
  fold_left (fun r i => let r' := r + 2 ^ Z.of_nat i in
                        if r' * r' * r' <=? n then r' else r)
            (rev (seq 0 40)) 0.

Definition K : list Z :=
  Eval vm_compute in map (fun p => w32 (cube_root (p * 2 ^ 96))) (primes 64).

Definition H0 : list Z :=
  Eval vm_compute in map (fun p => w32 (Z.sqrt (p * 2 ^ 64))) (primes 8).

(** Big-endian bytes of a value, [n] of them. *)
Fixpoint be_bytes (n : nat) (x : Z) : list Z :=
  match n with
  | O => []
  | S n' => be_bytes n' (x / 256) ++ [x mod 256]
  end.

Definition be_word (bs : list Z) : Z :=
  fold_left (fun acc b => acc * 256 + b) bs 0.

(** The message, a 1 bit, zero bits up to 56 mod 64 bytes, and the bit
    length on 8 bytes. *)
Definition pad (msg : list Z) : list Z :=
  let len := Z.of_nat (length msg) in
  let zeros := Z.to_nat ((55 - len) mod 64) in
  msg ++ [0x80] ++ repeat 0 zeros ++ be_bytes 8 (8 * len).

Fixpoint chunks (fuel : nat) (k : nat) (bs : list Z) : list (list Z) :=
  match fuel, bs with
  | S fuel', _ :: _ => firstn k bs :: chunks fuel' k (skipn k bs)
  | _, _ => []
  end.

Definition words_of (block : list Z) : list Z :=
  map be_word (chunks 16 4 block).

Record regs := { ra : Z; rb : Z; rc : Z; rd : Z; re : Z; rf : Z; rg : Z; rh : Z }.

Definition regs_of (h : list Z) : regs :=
  let n i := nth i h 0 in
  {| ra := n 0%nat; rb := n 1%nat; rc := n 2%nat; rd := n 3%nat;
     re := n 4%nat; rf := n 5%nat; rg := n 6%nat; rh := n 7%nat |}.

Definition list_of (r : regs) : list Z :=
  [ra r; rb r; rc r; rd r; re r; rf r; rg r; rh r].

(** One round on the registers and on the sliding window of the sixteen
    schedule words [W t .. W (t+15)]. *)
Definition round (st : regs * list Z) (k : Z) : regs * list Z :=
  let '(r, win) := st in
  let wt := nth 0 win 0 in
  let t1 := add32 (add32 (add32 (add32 (rh r) (Sigma1 (re r))) (Ch (re r) (rf r) (rg r))) k) wt in
  let t2 := add32 (Sigma0 (ra r)) (Maj (ra r) (rb r) (rc r)) in
  let next := add32 (add32 (add32 (sigma1 (nth 14 win 0)) (nth 9 win 0))
                           (sigma0 (nth 1 win 0))) wt in
  ({| ra := add32 t1 t2; rb := ra r; rc := rb r; rd := rc r;
      re := add32 (rd r) t1; rf := re r; rg := rf r; rh := rg r |},
   tl win ++ [next]).

Definition compress (h : list Z) (block : list Z) : list Z :=
  let '(r, _) := fold_left round K (regs_of h, words_of block) in
  map (fun p => add32 (fst p) (snd p)) (combine h (list_of r)).

Definition sha256 (msg : list Z) : list Z :=
  let padded := pad msg in
  fold_left compress (chunks (length padded) 64 padded) H0.

Definition hex_digit (d : Z) : ascii :=
  ascii_of_N (Z.to_N (if d <? 10 then 48 + d else 87 + d)).

Definition hex_byte (b : Z) : str := [hex_digit (b / 16); hex_digit (b mod 16)].

(** [hashlib.sha256(data).hexdigest()] *)
Definition hexdigest (msg : list Z) : str :=
  flat_map (fun w => flat_map hex_byte (be_bytes 4 w)) (sha256 msg).

(** [text.encode('utf-8')] for code points below U+0100. *)
Definition utf8 (s : str) : list Z :=
  flat_map (fun c =>
    let n := Z.of_N (N_of_ascii c) in
    if n <? 128 then [n] else [192 + n / 64; 128 + n mod 64]) s.

End Sha256.

(** ** The ledger frame and [load_transactions] *)

Module Ledger.
Import PyStr PyFloat Amount.

(** A [pandas.Timestamp]: the calendar date and the nanoseconds since
    midnight. *)
Record timestamp := { ts_year : Z; ts_month : Z; ts_day : Z; ts_nanos : Z }.

(** The values a cell of the frame holds at some point of the program:
    text, the missing value [NaN], a float, a timestamp, [NaT], or a monthly
    [Period] given by its ordinal (months since January 1970). *)
Inductive value :=
| VStr (s : str)
| VNaN
| VFloat (x : float)
| VTime (t : timestamp)
| VNaT
| VPeriod (ordinal : Z).

(** A [DataFrame], row by row; every row has one value per column label.
    [pandas.read_csv(..., sep=';', dtype=str)] yields such a frame with
    distinct labels whose cells are [VStr] or, for an empty field, [VNaN]. *)
Record frame := { columns : list str; rows : list (list value) }.

Definition has_column (c : str) (df : frame) : bool :=
  existsb (PyStr.eqb c) (columns df).

Fixpoint index_of (c : str) (cols : list str) : option nat :=
  match cols with
  | [] => None
  | d :: r => if PyStr.eqb d c then Some O
              else option_map S (index_of c r)
  end.

(** [df[c]], for a frame whose labels are distinct.  With a label twice,
    which the aliases can produce, pandas gives a frame and not a column:
    the statements about frames that are loaded are for distinct labels. *)
Definition column (c : str) (df : frame) : option (list value) :=
  match index_of c (columns df) with
  | Some i => Some (map (fun r => nth i r VNaN) (rows df))
  | None => None
  end.

Fixpoint set_nth {A} (i : nat) (x : A) (l : list A) : list A :=
  match i, l with
  | O, _ :: r => x :: r
  | S i', y :: r => y :: set_nth i' x r
  | _, [] => []
  end.

Fixpoint zip_with {A B C} (f : A -> B -> C) (l : list A) (m : list B) : list C :=
  match l, m with
  | a :: l', b :: m' => f a b :: zip_with f l' m'
  | _, _ => []
  end.

(** [df[c] = vals], with one value per row: the column is overwritten in
    place when the label exists and appended as the last column otherwise. *)
Definition set_column (c : str) (vals : list value) (df : frame) : frame :=
  match index_of c (columns df) with
  | Some i =>
      {| columns := columns df;
         rows := zip_with (fun r v => set_nth i v r) (rows df) vals |}
  | None =>
      {| columns := columns df ++ [c];
         rows := zip_with (fun r v => r ++ [v]) (rows df) vals |}
  end.

(** [df[c] = scalar] *)
Definition set_column_scalar (c : str) (v : value) (df : frame) : frame :=
  set_column c (map (fun _ => v) (rows df)) df.

(** [Series.isnull()] on one value *)
Definition isnull (v : value) : bool :=
  match v with
  | VNaN | VNaT => true
  | _ => false
  end.

Fixpoint assoc {A} (k : str) (l : list (str * A)) : option A :=
  match l with
  | [] => None
  | (k', a) :: r => if PyStr.eqb k' k then Some a else assoc k r
  end.

(** [df.rename(columns=rename_map)], where [rename_map] keeps the aliases
    whose original label is in the frame. *)
Definition rename (aliases : list (str * str)) (df : frame) : frame :=
  {| columns := map (fun c => match assoc c aliases with
                              | Some a => a
                              | None => c
                              end) (columns df);
     rows := rows df |}.

Definition expected_columns : list str :=
  [lit "date"; lit "amount"; lit "payer"; lit "payee"; lit "purpose"].

Definition required_columns : list str := [lit "date"; lit "amount"].

(** The loop that creates the expected columns a frame lacks. *)
Definition ensure_columns (df : frame) : frame :=
  fold_left (fun d col =>
               if has_column col d then d
               else set_column_scalar col (VStr []) d)
            expected_columns df.

(** [[col for col in required_columns
       if col not in df.columns or df[col].isnull().all()]] *)
Definition missing_columns (df : frame) : list str :=
  filter (fun col =>
            match column col df with
            | None => true
            | Some vals => forallb isnull vals
            end) required_columns.

Definition text_cell (v : value) : cell :=
  match v with
  | VStr s => Some s
  | _ => None
  end.

Definition time_value (t : option timestamp) : value :=
  match t with
  | Some t => VTime t
  | None => VNaT
  end.

(** [Series.apply(f)]: the first exception raised ends the whole call. *)
Fixpoint apply {A B} (f : A -> result B) (l : list A) : result (list B) :=
  match l with
  | [] => Ok []
  | a :: r => b <- f a ;; bs <- apply f r ;; Ok (b :: bs)
  end.

(** [Series.fillna('').astype(str)] on one text cell *)
Definition fill_text (v : value) : value :=
  match v with
  | VNaN => VStr []
  | _ => v
  end.

Definition map_column (c : str) (f : value -> value) (df : frame) : frame :=
  match column c df with
  | Some vals => set_column c (map f vals) df
  | None => df
  end.

Section Load.

(** [pandas.to_datetime(series, dayfirst=True, errors='coerce')] is a
    function of the whole column (the format is inferred from its first
    value); [None] is [NaT].  It belongs to the library and is a parameter
    of the model. *)
Variable to_datetime : list cell -> list (option timestamp).

(** [load_transactions]: [aliases] is the [column_aliases] mapping of
    [settings.json] (empty when there is none) and [raw] the frame read from
    the CSV file. *)
Definition load_transactions (aliases : list (str * str)) (raw : frame)
  : result frame :=
  let df := rename aliases raw in
  let df := ensure_columns df in
  match missing_columns df with
  | (_ :: _) as missing => Raise (MissingColumns missing)
  | [] =>
      let dates := match column (lit "date") df with
                   | Some vals => vals
                   | None => []
                   end in
      let df := set_column (lit "date")
                  (map time_value (to_datetime (map text_cell dates))) df in
      let amounts := match column (lit "amount") df with
                     | Some vals => vals
                     | None => []
                     end in
      parsed <- apply (fun v => parse_german_amount (text_cell v)) amounts ;;
      let df := set_column (lit "amount") (map VFloat parsed) df in
      let df := fold_left (fun d col => map_column col fill_text d)
                          [lit "payer"; lit "payee"; lit "purpose"] df in
      Ok df
  end.

End Load.

(** *** Sample ledgers *)

(** A file that has its header line and no transaction line. *)
Definition header_only_ledger : frame :=
  {| columns := [lit "date"; lit "amount"; lit "payer"; lit "payee"; lit "purpose"];
     rows := [] |}.

(** A file without a date column. *)
Definition ledger_without_date : frame :=
  {| columns := [lit "amount"; lit "payer"];
     rows := [[VStr (lit "10,00"); VStr (lit "Bob")]] |}.

(** A file whose amount column is empty in every line. *)
Definition ledger_empty_amounts : frame :=
  {| columns := [lit "date"; lit "amount"];
     rows := [[VStr (lit "15.01.2024"); VNaN]; [VStr (lit "16.01.2024"); VNaN]] |}.


End Ledger.

(** ** The transaction hash *)

Module Hasher.
Import PyStr PyFloat Ledger.

Definition dec_digit (d : Z) : ascii := ascii_of_N (Z.to_N (48 + d mod 10)).

Definition pad2 (n : Z) : str := [dec_digit (n / 10); dec_digit n].

Definition pad4 (n : Z) : str :=
  [dec_digit (n / 1000); dec_digit (n / 100); dec_digit (n / 10); dec_digit n].

(** [str(period)] for a monthly period, years 0 to 9999. *)
Definition period_str (ordinal : Z) : str :=
  pad4 (1970 + ordinal / 12) ++ lit "-" ++ pad2 (ordinal mod 12 + 1).

(** A row handed out by [iterrows()]: a [Series] of labelled values, in the
    column order of the frame. *)
Definition series := list (str * value).

(** [row.values] *)
Definition values (row : series) : list value := map snd row.

Section Str.

(** [repr] of a float and [str] of a timestamp belong to the runtime and to
    the library: they are parameters of the model. *)
Variable float_repr : float -> str.
Variable timestamp_str : timestamp -> str.

(** [str(val)] *)
Definition py_str (v : value) : str :=
  match v with
  | VStr s => s
  | VNaN => lit "nan"
  | VFloat x => float_repr x
  | VTime t => timestamp_str t
  | VNaT => lit "NaT"
  | VPeriod o => period_str o
  end.

(** [create_transaction_hash] *)
Definition create_transaction_hash (row : series) : str :=
  let row_string := join (lit "|") (map py_str (values row)) in
  Sha256.hexdigest (Sha256.utf8 row_string).

End Str.

End Hasher.

(** ** The annotation store *)

Module Store.
Import PyStr.

(** A Python text.  [Plain s] is a text over the code points up to U+00FF.
    [Unencodable n] stands for a text with a lone surrogate, which
    [json.loads] lets through and UTF-8 cannot encode; such texts are told
    apart by a number. *)
Inductive text :=
| Plain (s : str)
| Unencodable (n : nat).

Definition text_eqb (a b : text) : bool :=
  match a, b with
  | Plain x, Plain y => PyStr.eqb x y
  | Unencodable n, Unencodable m => Nat.eqb n m
  | _, _ => false
  end.

(** A Python value that is text or [None]. *)
Definition pyval := option text.

Definition pyval_eqb (a b : pyval) : bool :=
  match a, b with
  | Some x, Some y => text_eqb x y
  | None, None => true
  | _, _ => false
  end.

(** The inner dict [{'category': ..., 'comment': ...}]. *)
Record annotation := { category : pyval; comment : pyval }.

(** The dict built by [load_annotations], in insertion order: assigning to a
    key that is present keeps its place. *)
Definition annotations := list (pyval * annotation).

Fixpoint dict_get (k : pyval) (d : annotations) : option annotation :=
  match d with
  | [] => None
  | (k', a) :: r => if pyval_eqb k' k then Some a else dict_get k r
  end.

Definition dict_mem (k : pyval) (d : annotations) : bool :=
  match dict_get k d with
  | Some _ => true
  | None => false
  end.

(** [d[k] = a] *)
Fixpoint dict_set (k : pyval) (a : annotation) (d : annotations) : annotations :=
  match d with
  | [] => [(k, a)]
  | (k', a') :: r =>
      if pyval_eqb k' k then (k', a) :: r else (k', a') :: dict_set k a r
  end.

(** [d[k][field] = v], for a key that is present *)
Fixpoint dict_update (k : pyval) (f : annotation -> annotation) (d : annotations)
  : annotations :=
  match d with
  | [] => []
  | (k', a) :: r =>
      if pyval_eqb k' k then (k', f a) :: r else (k', a) :: dict_update k f r
  end.

(** The annotation file as the rows of text fields that it holds, which are
    the rows that [csv.writer] was given (a blank line is the empty row);
    [None] is a file that does not exist.  The file is read and written as
    UTF-8. *)
Definition table := list (list str).
Definition file := option table.

Definition NUL : ascii := "000".
Definition CR : ascii := "013".
Definition LF : ascii := "010".

(** [save_annotation] opens the file with [newline=''] and
    [load_annotations] does not: on reading, a carriage return, alone or
    followed by a line feed, arrives as one line feed, inside a quoted field
    too. *)
Fixpoint universal_newlines (s : str) : str :=
  match s with
  | [] => []
  | c :: r =>
      if eqc c CR then
        match r with
        | d :: r' =>
            if eqc d LF then LF :: universal_newlines r'
            else LF :: universal_newlines r
        | [] => [LF]
        end
      else c :: universal_newlines r
  end.

(** [csv.field_size_limit()], which the program leaves at its default. *)
Definition field_size_limit : Z := 131072.

Definition within_limit (s : str) : bool :=
  Z.of_nat (length s) <=? field_size_limit.

(** One row as [csv.reader] yields it from a line of the file: the fields
    with their newlines translated; a field longer than the limit raises
    [_csv.Error]. *)
Definition read_row (line : list str) : result (list str) :=
  let row := map universal_newlines line in
  if forallb within_limit row then Ok row else Raise CsvError.

(** [row[key]] for the dict that [csv.DictReader] builds from a row: the
    fields are paired with the field names, the names left over get [None],
    and a name that occurs twice keeps its last value.  The outer [None] is a
    key that the dict does not have. *)
Fixpoint reader_get (fieldnames row : list str) (key : str) : option pyval :=
  match fieldnames with
  | [] => None
  | name :: names =>
      match reader_get names (tl row) key with
      | Some v => Some v
      | None =>
          if PyStr.eqb name key then Some (option_map Plain (hd_error row))
          else None
      end
  end.

Definition row_get (fieldnames row : list str) (key : str) (default : pyval)
  : pyval :=
  match reader_get fieldnames row key with
  | Some v => v
  | None => default
  end.

(** The loop of [load_annotations] over the lines after the header, each
    read when its turn comes; [DictReader] skips the empty rows. *)
Fixpoint read_rows (fieldnames : list str) (data : table) (d : annotations)
  : result annotations :=
  match data with
  | [] => Ok d
  | line :: rest =>
      match read_row line with
      | Raise e => Raise e
      | Ok [] => read_rows fieldnames rest d
      | Ok row =>
          match reader_get fieldnames row (lit "transaction_hash") with
          | None => Raise (KeyError (lit "transaction_hash"))
          | Some h =>
              read_rows fieldnames rest
                (dict_set h
                   {| category := row_get fieldnames row (lit "category") (Some (Plain []));
                      comment := row_get fieldnames row (lit "comment") (Some (Plain [])) |}
                   d)
          end
      end
  end.

(** [load_annotations] *)
Definition load_annotations (f : file) : result annotations :=
  match f with
  | None => Ok []
  | Some [] => Ok []
  | Some (first :: data) =>
      fieldnames <- read_row first ;;
      read_rows fieldnames data []
  end.

(** The field that [csv.writer] writes for a value: [None] is the empty
    field, and a text that cannot be encoded makes the write raise. *)
Definition field (v : pyval) : result str :=
  match v with
  | None => Ok []
  | Some (Plain s) => Ok s
  | Some (Unencodable _) => Raise UnicodeEncodeError
  end.

Definition header : list str :=
  [lit "transaction_hash"; lit "category"; lit "comment"].

(** The row of [writer.writerow([hash, data['category'], data['comment']])] *)
Definition row_of (e : pyval * annotation) : result (list str) :=
  h <- field (fst e) ;;
  c <- field (category (snd e)) ;;
  m <- field (comment (snd e)) ;;
  Ok [h; c; m].

(** The loop of [save_annotation] over the items of the dict: the rows that
    reach the file, and the exception that ended the loop, if any.  A row
    that cannot be encoded is not written, and no row after it is. *)
Fixpoint write_rows (d : annotations) : table * option exn :=
  match d with
  | [] => ([], None)
  | e :: rest =>
      match row_of e with
      | Ok r => let (t, raised) := write_rows rest in (r :: t, raised)
      | Raise x => ([], Some x)
      end
  end.

(** The middle of [save_annotation], between loading and writing: the entry
    is created when the hash is not a key, then the fields that are provided
    are assigned.  A [None] argument is a field that is not provided. *)
Definition upsert (transaction_hash : text) (new_category new_comment : pyval)
  (d : annotations) : annotations :=
  let key := Some transaction_hash in
  let d := if dict_mem key d then d
           else dict_set key {| category := Some (Plain []); comment := Some (Plain []) |} d in
  let d := match new_category with
           | Some c => dict_update key (fun a => {| category := Some c; comment := comment a |}) d
           | None => d
           end in
  match new_comment with
  | Some c => dict_update key (fun a => {| category := category a; comment := Some c |}) d
  | None => d
  end.

(** How a call of [save_annotation] ends: it returns, or it raises; either
    way with the file it leaves. *)
Inductive saved :=
| Done (f : file)
| Raised (e : exn) (f : file).

(** [save_annotation].  The dict is loaded, updated by [upsert] and written
    back, header first.  When loading raises, the file has not been opened
    for writing and stays as it was.  [open(..., 'w')] empties the file:
    when a row cannot be written, the file is left with the header and the
    rows before it.  (Failures of the file system are not modelled.) *)
Definition save_annotation (transaction_hash : text)
  (new_category new_comment : pyval) (f : file) : saved :=
  match load_annotations f with
  | Raise e => Raised e f
  | Ok d =>
      match write_rows (upsert transaction_hash new_category new_comment d) with
      | (t, None) => Done (Some (header :: t))
      | (t, Some e) => Raised e (Some (header :: t))
      end
  end.

(** A text without a carriage return is read back as it was written. *)
Definition no_cr (s : str) : bool := forallb (fun c => negb (eqc c CR)) s.

(** The reader of Python before 3.11 raises on a NUL character; the texts
    of the statements below have none. *)
Definition no_nul (s : str) : bool := forallb (fun c => negb (eqc c NUL)) s.

(** A text that the store writes and reads back as it is: neither carriage
    return nor NUL, and no longer than the reader's limit. *)
Definition plain (s : str) : bool := no_cr s && no_nul s && within_limit s.

(** A field that the reader takes: no NUL, and within the limit once its
    newlines are translated. *)
Definition storable (s : str) : bool :=
  no_nul s && within_limit (universal_newlines s).

(** The files in the store's own format: no file, or the header of
    [save_annotation] followed by rows of three fields that the reader
    takes. *)
Definition wf_store (f : file) : bool :=
  match f with
  | None => true
  | Some [] => false
  | Some (h :: data) =>
      forallb (fun p => PyStr.eqb (fst p) (snd p)) (combine h header)
      && Nat.eqb (length h) 3
      && forallb (fun r => Nat.eqb (length r) 3 && forallb storable r) data
  end.

(** The files without a NUL character. *)
Definition nul_free (f : file) : bool :=
  match f with
  | None => true
  | Some t => forallb (forallb no_nul) t
  end.

(** A value that is a plain text. *)
Definition is_plain (v : pyval) : bool :=
  match v with
  | Some (Plain s) => plain s
  | _ => false
  end.

(** A value that is provided as a plain text, or not provided. *)
Definition plain_or_absent (v : pyval) : bool :=
  match v with
  | None => true
  | Some (Plain s) => plain s
  | Some (Unencodable _) => false
  end.

(** An entry as a file in the store's format loads it: key and fields are
    plain texts; and the dicts of such entries with distinct keys. *)
Definition textual (e : pyval * annotation) : Prop :=
  is_plain (fst e) = true /\ is_plain (category (snd e)) = true /\
  is_plain (comment (snd e)) = true.

Definition dict_ok (d : annotations) : Prop :=
  NoDup (map fst d) /\ Forall textual d.

(** An entry that is written without an error and read again: key and
    fields are plain texts or [None]. *)
Definition writable (e : pyval * annotation) : Prop :=
  plain_or_absent (fst e) = true /\ plain_or_absent (category (snd e)) = true /\
  plain_or_absent (comment (snd e)) = true.

(** The fields of the row of an entry that is written. *)
Definition shown (v : pyval) : str :=
  match v with
  | Some (Plain s) => s
  | _ => []
  end.

Definition fields_of (e : pyval * annotation) : list str :=
  [shown (fst e); shown (category (snd e)); shown (comment (snd e))].

(** The file that holds a dict. *)
Definition stored (d : annotations) : file := Some (header :: map fields_of d).

(** The entries of a dict before the one of a key, all of them when the key
    is absent. *)
Fixpoint before (k : pyval) (d : annotations) : annotations :=
  match d with
  | [] => []
  | (k', a) :: r => if pyval_eqb k' k then [] else (k', a) :: before k r
  end.

(** The value of a field after an upsert: the one provided, else the one
    the entry had, else the empty text of a new entry. *)
Definition upserted (provided : pyval) (old : option pyval) : pyval :=
  match provided, old with
  | Some v, _ => Some v
  | None, Some v => v
  | None, None => Some (Plain [])
  end.

End Store.

(** ** Monthly aggregation *)

Module Aggregator.
Import PyStr PyFloat Ledger.

(** A row of the monthly summary; [YearMonth] is the ordinal of the monthly
    period. *)
Record bucket := { YearMonth : Z; Income : float; Expenses : float; Net : float }.

Definition period_of (t : timestamp) : Z :=
  (ts_year t - 1970) * 12 + (ts_month t - 1).

(** [.dt.to_period('M')] on one value of a datetime column; the accessor
    raises on a column that is not datetime-like. *)
Definition to_period (v : value) : result value :=
  match v with
  | VTime t => Ok (VPeriod (period_of t))
  | VNaT => Ok VNaT
  | _ => Raise AttributeError
  end.

(** A value of the amount column as the float it is compared and summed as;
    text cannot be compared with [0]. *)
Definition amount_of (v : value) : result float :=
  match v with
  | VFloat x => Ok x
  | VNaN => Ok nan
  | _ => Raise TypeError
  end.

Section Sums.

(** [Series.sum()] replaces the missing values by [0.0] and lets NumPy add
    the values ([add.reduce]).  NumPy adds onto an initial zero the result of
    its [pairwise_sum]: fewer than eight values are added from left to right
    onto a zero, up to 128 values are added in eight interleaved partial
    sums that are then added in pairs, the values left over last, and more
    than 128 values are split in two parts that are added separately, the
    first of a multiple of eight values.  The two zeros were [0.0] and are
    [-0.0] since NumPy made the sum of negative zeros a negative zero:
    [minus_zero] tells which NumPy it is.  The sum of no value is [0.0]. *)
Variable minus_zero : bool.

Definition start : float := S754_zero minus_zero.

(** The eight partial sums after [blocks] more blocks of eight values, and
    the values not yet added. *)
Fixpoint lanes (blocks : nat) (r rest : list float) : list float * list float :=
  match blocks with
  | O => (r, rest)
  | S b => lanes b (zip_with add r (firstn 8 rest)) (skipn 8 rest)
  end.

(** [((r0 + r1) + (r2 + r3)) + ((r4 + r5) + (r6 + r7))] *)
Definition tree (r : list float) : float :=
  let x := fun i : nat => nth i r zero in
  add (add (add (x 0%nat) (x 1%nat)) (add (x 2%nat) (x 3%nat)))
      (add (add (x 4%nat) (x 5%nat)) (add (x 6%nat) (x 7%nat))).

(** [pairwise_sum]; [depth] bounds the number of nested splits, and the
    length of the values is enough. *)
Fixpoint pairwise_sum (depth : nat) (xs : list float) : float :=
  let n := length xs in
  if (n <? 8)%nat then fold_left add xs start
  else if (n <=? 128)%nat then
    let '(r, rest) := lanes (n / 8 - 1)%nat (firstn 8 xs) (skipn 8 xs) in
    fold_left add rest (tree r)
  else
    match depth with
    | O => start
    | S d =>
        let n2 := (n / 2 - (n / 2) mod 8)%nat in
        add (pairwise_sum d (firstn n2 xs)) (pairwise_sum d (skipn n2 xs))
    end.

Definition series_sum (xs : list float) : float :=
  match map (fun x => if is_nan x then zero else x) xs with
  | [] => zero
  | ys => add start (pairwise_sum (length ys) ys)
  end.

Definition positive (x : float) : bool := ltb zero x.
Definition negative (x : float) : bool := ltb x zero.

(** [groupby] sorts the distinct keys and drops the missing ones. *)
Fixpoint insert_key (k : Z) (ks : list Z) : list Z :=
  match ks with
  | [] => [k]
  | k' :: r =>
      if k <? k' then k :: ks
      else if k =? k' then ks
      else k' :: insert_key k r
  end.

Definition group_keys (periods : list value) : list Z :=
  fold_left (fun ks v => match v with
                         | VPeriod o => insert_key o ks
                         | _ => ks
                         end) periods [].

Definition in_period (k : Z) (v : value) : bool :=
  match v with
  | VPeriod o => o =? k
  | _ => false
  end.

(** The amount column of the group of key [k], in row order. *)
Definition group_amounts (k : Z) (periods amounts : list value) : list value :=
  map snd (filter (fun pa => in_period k (fst pa)) (combine periods amounts)).

(** The function applied to each group. *)
Definition summarize_group (k : Z) (vals : list value) : result bucket :=
  xs <- apply amount_of vals ;;
  Ok {| YearMonth := k;
        Income := series_sum (filter positive xs);
        Expenses := series_sum (filter negative xs);
        Net := series_sum xs |}.

Definition get_column (c : str) (df : frame) : result (list value) :=
  match column c df with
  | Some vals => Ok vals
  | None => Raise (KeyError c)
  end.

(** [get_monthly_summary]: the frame with its new [YearMonth] column, which
    the caller's frame receives too, and the summary. *)
Definition get_monthly_summary (df : frame) : result (frame * list bucket) :=
  dates <- get_column (lit "date") df ;;
  periods <- apply to_period dates ;;
  let df := set_column (lit "YearMonth") periods df in
  match group_keys periods with
  | [] => Ok (df, [])
  | keys =>
      amounts <- get_column (lit "amount") df ;;
      buckets <- apply (fun k => summarize_group k (group_amounts k periods amounts)) keys ;;
      Ok (df, buckets)
  end.

(** The income, the expenses and the net of a bucket as the sums, in
    binary64, of the series [xs] of its amounts. *)
Definition sums_of (b : bucket) (xs : list float) : Prop :=
  Income b = series_sum (filter positive xs) /\
  Expenses b = series_sum (filter negative xs) /\
  Net b = series_sum xs.

End Sums.

(** Three lines of January 2024, of 0,10, -0,30 and 0,20, as they are read
    from the file, and their dates. *)
Definition january_raw : frame :=
  {| columns := [lit "date"; lit "amount"; lit "payer"; lit "payee"; lit "purpose"];
     rows :=
       [[VStr (lit "15.01.2024"); VStr (lit "0,10"); VStr (lit "Acme"); VNaN;
         VStr (lit "Refund")];
        [VStr (lit "16.01.2024"); VStr (lit "-0,30"); VNaN; VStr (lit "Shop");
         VStr (lit "Groceries")];
        [VStr (lit "17.01.2024"); VStr (lit "0,20"); VStr (lit "Acme"); VNaN;
         VStr (lit "Refund")]] |}.

Definition january_dates : list (option timestamp) :=
  [Some {| ts_year := 2024; ts_month := 1; ts_day := 15; ts_nanos := 0 |};
   Some {| ts_year := 2024; ts_month := 1; ts_day := 16; ts_nanos := 0 |};
   Some {| ts_year := 2024; ts_month := 1; ts_day := 17; ts_nanos := 0 |}].

(** The same three transactions, of 0.10, -0.30 and 0.20, as
    [load_transactions] returns them. *)
Definition january : frame :=
  {| columns := [lit "date"; lit "amount"; lit "payer"; lit "payee"; lit "purpose"];
     rows :=
       [[VTime {| ts_year := 2024; ts_month := 1; ts_day := 15; ts_nanos := 0 |};
         VFloat (of_decimal false 10 (-2)); VStr (lit "Acme"); VStr []; VStr (lit "Refund")];
        [VTime {| ts_year := 2024; ts_month := 1; ts_day := 16; ts_nanos := 0 |};
         VFloat (of_decimal true 30 (-2)); VStr []; VStr (lit "Shop"); VStr (lit "Groceries")];
        [VTime {| ts_year := 2024; ts_month := 1; ts_day := 17; ts_nanos := 0 |};
         VFloat (of_decimal false 20 (-2)); VStr (lit "Acme"); VStr []; VStr (lit "Refund")]] |}.

End Aggregator.

(** ** Per-month transaction details *)

Module Details.
Import PyStr PyFloat Ledger Hasher Store Aggregator.

(** One transaction of the output; [party] is the ['payer'] of an income
    entry and the ['payee'] of an expense entry. *)
Record entry := {
  e_hash : str;
  e_date : str;
  e_amount : float;
  e_party : str;
  e_purpose : str;
  e_category : pyval;
  e_comment : pyval
}.

Record month_detail := { income : list entry; expenses : list entry }.

(** [row[label]] *)
Definition row_item (label : str) (row : series) : result value :=
  match assoc label row with
  | Some v => Ok v
  | None => Raise (KeyError label)
  end.

(** [row['date'].strftime('%m-%d')]; [NaT] does not support [strftime]. *)
Definition strftime_md (v : value) : result str :=
  match v with
  | VTime t => Ok (pad2 (ts_month t) ++ lit "-" ++ pad2 (ts_day t))
  | VNaT => Raise (ValueError (lit "NaTType does not support strftime"))
  | _ => Raise AttributeError
  end.

Definition default_annotation : annotation :=
  {| category := Some (Plain []); comment := Some (Plain []) |}.

(** A value of the [YearMonth] column of month names: a text, or [None] for
    a missing value. *)
Definition month := option str.

Definition month_eqb (a b : month) : bool :=
  match a, b with
  | Some x, Some y => PyStr.eqb x y
  | None, None => true
  | _, _ => false
  end.

Definition month_cell (m : month) : value :=
  match m with
  | Some s => VStr s
  | None => VNaN
  end.

(** [df['YearMonth'].unique()]: the distinct values in order of first
    appearance, the missing value once. *)
Fixpoint unique (l : list month) : list month :=
  match l with
  | [] => []
  | x :: r => x :: filter (fun y => negb (month_eqb y x)) (unique r)
  end.

Section Assemble.

Variable float_repr : float -> str.
Variable timestamp_str : timestamp -> str.

(** [.astype(str)] on the column of periods turns a missing period into
    the text ['NaT'] in pandas 2 and leaves it missing in pandas 3:
    [nat_as_text] tells which pandas it is. *)
Variable nat_as_text : bool.

Definition hash_of := create_transaction_hash float_repr timestamp_str.
Definition text_of := py_str float_repr timestamp_str.

(** [.astype(str)] on one value of the column of periods *)
Definition month_of (period : value) : month :=
  match period with
  | VNaT => if nat_as_text then Some (lit "NaT") else None
  | v => Some (text_of v)
  end.

(** The dict appended for one row; [party] is ['payer'] or ['payee']. *)
Definition entry_of (party : str) (notes : annotations) (row : series)
  : result entry :=
  let tx_hash := hash_of row in
  let annotation := match dict_get (Some (Plain tx_hash)) notes with
                    | Some a => a
                    | None => default_annotation
                    end in
  d <- row_item (lit "date") row ;;
  date <- strftime_md d ;;
  a <- row_item (lit "amount") row ;;
  amount <- amount_of a ;;
  Ok {| e_hash := tx_hash;
        e_date := date;
        e_amount := amount;
        e_party := match assoc party row with Some v => text_of v | None => [] end;
        e_purpose := match assoc (lit "purpose") row with Some v => text_of v | None => [] end;
        e_category := category annotation;
        e_comment := comment annotation |}.

(** The rows of [month_data] whose amount satisfies [test]. *)
Fixpoint select (test : float -> bool) (month_data : list series)
  : result (list series) :=
  match month_data with
  | [] => Ok []
  | row :: rest =>
      a <- row_item (lit "amount") row ;;
      x <- amount_of a ;;
      sel <- select test rest ;;
      Ok (if test x then row :: sel else sel)
  end.

(** [df['YearMonth'] == month] on one row: a missing value equals
    nothing, itself included. *)
Definition in_month (m : month) (row : series) : bool :=
  match m, assoc (lit "YearMonth") row with
  | Some name, Some (VStr name') => PyStr.eqb name' name
  | _, _ => false
  end.

(** The body of the loop over the months. *)
Definition month_details (notes : annotations) (all_rows : list series)
  (m : month) : result (month * month_detail) :=
  let month_data := filter (in_month m) all_rows in
  income_transactions <- select positive month_data ;;
  income_list <- apply (entry_of (lit "payer") notes) income_transactions ;;
  expense_transactions <- select negative month_data ;;
  expense_list <- apply (entry_of (lit "payee") notes) expense_transactions ;;
  Ok (m, {| income := income_list; expenses := expense_list |}).

(** [prepare_transaction_details]: the frame with its [YearMonth] column of
    month names and the mapping that is serialized, in insertion order;
    [store] is the annotation file. *)
Definition prepare_transaction_details (store : file) (df : frame)
  : result (frame * list (month * month_detail)) :=
  dates <- get_column (lit "date") df ;;
  periods <- apply to_period dates ;;
  let months := map month_of periods in
  let df := set_column (lit "YearMonth") (map month_cell months) df in
  notes <- load_annotations store ;;
  let all_rows := map (fun r => combine (columns df) r) (rows df) in
  details <- apply (month_details notes all_rows) (unique months) ;;
  Ok (df, details).

End Assemble.

End Details.

(** ** The annotation endpoints *)

Module Api.
Import PyStr Store.

(** The body of a POST request: text that is not JSON, or a JSON object
    whose two members of interest (['hash'], and ['category'] or ['comment'])
    are text, or [None] when the member is absent or null. *)
Inductive request :=
| BadJson
| Json (hash value : pyval).

(** What the [except Exception] clause of an endpoint catches: an exception
    of the program, or the [HTTPException] raised in the [try] block. *)
Inductive caught :=
| Exception (e : exn)
| HTTPException (status : Z) (detail : str).

(** The answer of an endpoint: the success dict with its ['hash'] and its
    ['category'] or ['comment'], or the [HTTPException] that leaves the
    endpoint, whose detail is [context] followed by [str(e)] of the exception
    caught. *)
Inductive response :=
| Success (hash : text) (value : pyval)
| HTTPError (status : Z) (context : str) (e : caught).

(** [not v] holds of [None] and of the empty text. *)
Definition falsy (v : pyval) : bool :=
  match v with
  | None | Some (Plain []) => true
  | Some _ => false
  end.

(** The [try] block of [set_category]: the answer or what is raised, and
    the file that is left. *)
Definition try_set_category (req : request) (f : file)
  : (caught + response) * file :=
  match req with
  | BadJson => (inl (Exception (ValueError (lit "JSONDecodeError"))), f)
  | Json (Some transaction_hash) (Some category) =>
      if falsy (Some transaction_hash) || falsy (Some category) then
        (inl (HTTPException 400 (lit "Missing hash or category")), f)
      else
        match save_annotation transaction_hash (Some category) None f with
        | Done f' => (inr (Success transaction_hash (Some category)), f')
        | Raised e f' => (inl (Exception e), f')
        end
  | Json _ _ => (inl (HTTPException 400 (lit "Missing hash or category")), f)
  end.

(** [set_category]: every exception of the [try] block, the [HTTPException]
    of the validation included, is answered with status 500. *)
Definition set_category (req : request) (f : file) : response * file :=
  match try_set_category req f with
  | (inr r, f') => (r, f')
  | (inl e, f') => (HTTPError 500 (lit "Error saving category: ") e, f')
  end.

(** The [try] block of [set_comment]: only the hash is required; a comment
    that is absent or null is passed on as [None]. *)
Definition try_set_comment (req : request) (f : file)
  : (caught + response) * file :=
  match req with
  | BadJson => (inl (Exception (ValueError (lit "JSONDecodeError"))), f)
  | Json (Some transaction_hash) comment =>
      if falsy (Some transaction_hash) then
        (inl (HTTPException 400 (lit "Missing hash")), f)
      else
        match save_annotation transaction_hash None comment f with
        | Done f' => (inr (Success transaction_hash comment), f')
        | Raised e f' => (inl (Exception e), f')
        end
  | Json None _ => (inl (HTTPException 400 (lit "Missing hash")), f)
  end.

(** [set_comment] *)
Definition set_comment (req : request) (f : file) : response * file :=
  match try_set_comment req f with
  | (inr r, f') => (r, f')
  | (inl e, f') => (HTTPError 500 (lit "Error saving comment: ") e, f')
  end.

End Api.

(** ** Shapes *)

Module Shape.
Import PyStr Ledger Store.

(** A blank line of the annotation file. *)
Definition is_blank (row : list str) : bool :=
  match row with
  | [] => true
  | _ :: _ => false
  end.

(** Every row of a frame has one value per column. *)
Definition frame_wf (df : frame) : Prop :=
  Forall (fun r => length r = length (columns df)) (rows df).

(** The values of a parsed date column and of a parsed amount column. *)
Definition is_time (v : value) : bool :=
  match v with
  | VTime _ | VNaT => true
  | _ => false
  end.

Definition is_float (v : value) : bool :=
  match v with
  | VFloat _ => true
  | _ => false
  end.

Definition is_text (v : value) : bool :=
  match v with
  | VStr _ => true
  | _ => false
  end.

(** A text of [n] characters. *)
Definition filler (n : N) : str := N.iter n (cons "x"%char) [].

(** Of two values for a field, the later one when it is provided. *)
Definition later (second first : pyval) : pyval :=
  match second with
  | Some _ => second
  | None => first
  end.

(** The two halves of [upsert]: the dict with the entry of the hash created
    when it has none, and the assignment of the fields that are provided. *)
Definition base (h : text) (d : annotations) : annotations :=
  if dict_mem (Some h) d then d
  else dict_set (Some h) {| category := Some (Plain []); comment := Some (Plain []) |} d.

Definition assign (c m : pyval) (a : annotation) : annotation :=
  {| category := match c with Some x => Some x | None => category a end;
     comment := match m with Some x => Some x | None => comment a end |}.

(** One turn of the loop of [load_transactions] over the expected columns. *)
Definition create (d : frame) (col : str) : frame :=
  if has_column col d then d else set_column_scalar col (VStr []) d.

(** The cells [pandas.read_csv(..., dtype=str)] yields: text, or [NaN] for
    an empty field. *)
Definition is_raw (v : value) : bool :=
  match v with
  | VStr _ | VNaN => true
  | _ => false
  end.

Definition frame_raw (df : frame) : Prop :=
  Forall (fun r => forallb is_raw r = true) (rows df).

(** The expected columns that a frame lacks. *)
Definition lacking (df : frame) : list str :=
  filter (fun c => negb (has_column c df)) expected_columns.

(** The rows of a frame as [iterrows] yields them. *)
Definition iterrows (df : frame) : list (list (str * value)) :=
  map (fun r => combine (columns df) r) (rows df).

(** A row whose date is a timestamp or [NaT] and whose amount is a float. *)
Definition row_typed (row : list (str * value)) : bool :=
  match assoc (lit "date") row, assoc (lit "amount") row with
  | Some d, Some (VFloat _) => is_time d
  | _, _ => false
  end.

(** A row whose date is [NaT]. *)
Definition without_date (row : list (str * value)) : bool :=
  match assoc (lit "date") row with
  | Some VNaT => true
  | _ => false
  end.

(** An amount that is listed, as an income or as an expense. *)
Definition listed (x : PyFloat.float) : bool :=
  Aggregator.positive x || Aggregator.negative x.

(** A date and an amount of one row: no date, and an amount that is
    listed. *)
Definition stranded_pair (da : value * value) : bool :=
  match da with
  | (VNaT, VFloat x) => listed x
  | _ => false
  end.

Definition stranded_row (row : list (str * value)) : bool :=
  match assoc (lit "date") row, assoc (lit "amount") row with
  | Some d, Some a => stranded_pair (d, a)
  | _, _ => false
  end.

(** Some row of the frame has no date and an amount that is listed. *)
Definition stranded (dates amounts : list value) : bool :=
  existsb stranded_pair (combine dates amounts).

(** A value of the amount column, and a row, whose amount is listed. *)
Definition listed_value (v : value) : bool :=
  match v with
  | VFloat x => listed x
  | _ => false
  end.

Definition listed_row (row : list (str * value)) : bool :=
  match assoc (lit "amount") row with
  | Some v => listed_value v
  | None => false
  end.

(** The number of entries of a month. *)
Definition entries (md : Details.month_detail) : nat :=
  length (Details.income md) + length (Details.expenses md).

(** [.dt.to_period('M')] on a value of a parsed date column. *)
Definition period_value (d : value) : value :=
  match d with
  | VTime t => VPeriod (Aggregator.period_of t)
  | _ => VNaT
  end.

(** A date and an amount of one row: a date, and an amount that is
    listed. *)
Definition dated_pair (da : value * value) : bool :=
  match da with
  | (VTime _, VFloat x) => listed x
  | _ => false
  end.

(** A row whose month is a text. *)
Definition named_month (row : list (str * value)) : bool :=
  match assoc (lit "YearMonth") row with
  | Some (VStr _) => true
  | _ => false
  end.

(** Strictly ascending months. *)
Fixpoint ascending (ks : list Z) : Prop :=
  match ks with
  | [] => True
  | k :: r => match r with
              | [] => True
              | k' :: _ => k < k'
              end /\ ascending r
  end.

End Shape.

(** * Properties *)

(** ** Text *)

Section TextFacts.
Import PyStr.

Lemma eqc_true (a b : ascii) : eqc a b = true <-> a = b.
Proof. unfold eqc. apply Ascii.eqb_eq. Qed.

Lemma eqc_refl (a : ascii) : eqc a a = true.
Proof. apply eqc_true. reflexivity. Qed.

Lemma str_eqb_true (a b : str) : PyStr.eqb a b = true <-> a = b.
Proof.
  revert b. induction a as [|x a IH]; intros [|y b]; simpl; split;
    try congruence; try reflexivity.
  - intros H. apply andb_true_iff in H as [Hx Hab].
    apply eqc_true in Hx. apply IH in Hab. congruence.
  - intros H. injection H as -> ->. rewrite eqc_refl. simpl. now apply IH.
Qed.

Lemma str_eqb_refl (a : str) : PyStr.eqb a a = true.
Proof. now apply str_eqb_true. Qed.

Lemma str_eqb_false (a b : str) : PyStr.eqb a b = false <-> a <> b.
Proof.
  destruct (PyStr.eqb a b) eqn:E; split; try congruence.
  - apply str_eqb_true in E. congruence.
  - intros _ H. apply str_eqb_true in H. congruence.
Qed.

End TextFacts.

(** ** The annotation store *)

Section StoreFacts.
Import PyStr Store.

Lemma text_eqb_true (a b : text) : text_eqb a b = true <-> a = b.
Proof.
  destruct a as [x|n], b as [y|k]; simpl; split; try congruence.
  - intros H. apply str_eqb_true in H. congruence.
  - intros H. injection H as ->. apply str_eqb_refl.
  - intros H. apply Nat.eqb_eq in H. congruence.
  - intros H. injection H as ->. apply Nat.eqb_refl.
Qed.

Lemma pyval_eqb_true (a b : pyval) : pyval_eqb a b = true <-> a = b.
Proof.
  destruct a as [x|], b as [y|]; simpl; split; try congruence; try reflexivity.
  - intros H. apply text_eqb_true in H. congruence.
  - intros H. injection H as ->. now apply text_eqb_true.
Qed.

Lemma pyval_eqb_refl (a : pyval) : pyval_eqb a a = true.
Proof. now apply pyval_eqb_true. Qed.

Lemma pyval_eqb_false (a b : pyval) : pyval_eqb a b = false <-> a <> b.
Proof.
  destruct (pyval_eqb a b) eqn:E; split; try congruence.
  - apply pyval_eqb_true in E. congruence.
  - intros _ H. apply pyval_eqb_true in H. congruence.
Qed.

(** *** The dict operations *)

Lemma dict_get_set_same k a d : dict_get k (dict_set k a d) = Some a.
Proof.
  induction d as [|[k' a'] d IH]; simpl.
  - now rewrite pyval_eqb_refl.
  - destruct (pyval_eqb k' k) eqn:E; simpl; rewrite E; auto.
Qed.

Lemma dict_get_set_other k k' a d :
  k <> k' -> dict_get k' (dict_set k a d) = dict_get k' d.
Proof.
  intros Hne. induction d as [|[k0 a0] d IH]; simpl.
  - apply pyval_eqb_false in Hne. now rewrite Hne.
  - destruct (pyval_eqb k0 k) eqn:E; simpl.
    + apply pyval_eqb_true in E. subst k0.
      apply pyval_eqb_false in Hne. now rewrite Hne.
    + destruct (pyval_eqb k0 k'); auto.
Qed.

Lemma dict_get_update_same k f d :
  dict_get k (dict_update k f d) = option_map f (dict_get k d).
Proof.
  induction d as [|[k' a'] d IH]; simpl; auto.
  destruct (pyval_eqb k' k) eqn:E; simpl; rewrite E; auto.
Qed.

Lemma dict_get_update_other k k' f d :
  k <> k' -> dict_get k' (dict_update k f d) = dict_get k' d.
Proof.
  intros Hne. induction d as [|[k0 a0] d IH]; simpl; auto.
  destruct (pyval_eqb k0 k) eqn:E; simpl.
  - apply pyval_eqb_true in E. subst k0.
    apply pyval_eqb_false in Hne. now rewrite Hne.
  - destruct (pyval_eqb k0 k'); auto.
Qed.


Lemma dict_get_None_notin k d :
  dict_get k d = None <-> ~ In k (map fst d).
Proof.
  induction d as [|[k' a'] d IH]; simpl.
  - tauto.
  - destruct (pyval_eqb k' k) eqn:E.
    + apply pyval_eqb_true in E. split; [discriminate | tauto].
    + apply pyval_eqb_false in E. rewrite IH. tauto.
Qed.

Lemma dict_set_fresh k a d :
  ~ In k (map fst d) -> dict_set k a d = d ++ [(k, a)].
Proof.
  induction d as [|[k' a'] d IH]; simpl; auto.
  intros Hnin. destruct (pyval_eqb k' k) eqn:E.
  - apply pyval_eqb_true in E. tauto.
  - f_equal. apply IH. tauto.
Qed.

Lemma keys_dict_update k f d : map fst (dict_update k f d) = map fst d.
Proof.
  induction d as [|[k' a'] d IH]; simpl; auto.
  destruct (pyval_eqb k' k); simpl; congruence.
Qed.

Lemma keys_dict_set k a d :
  map fst (dict_set k a d) =
  if dict_mem k d then map fst d else map fst d ++ [k].
Proof.
  unfold dict_mem. induction d as [|[k' a'] d IH]; simpl; auto.
  destruct (pyval_eqb k' k); simpl; auto.
  rewrite IH. destruct (dict_get k d); auto.
Qed.

(** *** Entries and their invariants *)

Lemma dict_get_In k a d :
  dict_get k d = Some a -> In (k, a) d.
Proof.
  induction d as [|[k' a'] d IH]; simpl; [discriminate|].
  destruct (pyval_eqb k' k) eqn:E.
  - apply pyval_eqb_true in E. intros H. injection H as ->. subst. now left.
  - intros H. right. now apply IH.
Qed.

Lemma dict_get_map (g : annotation -> annotation) k d :
  dict_get k (map (fun e => (fst e, g (snd e))) d) = option_map g (dict_get k d).
Proof.
  induction d as [|[k' a'] d IH]; simpl; auto.
  destruct (pyval_eqb k' k); auto.
Qed.

Lemma dict_ok_nil : dict_ok [].
Proof. split; constructor. Qed.

Lemma Forall_dict_set (P : pyval * annotation -> Prop) k a d :
  (forall k', k' = k -> P (k', a)) -> Forall P d -> Forall P (dict_set k a d).
Proof.
  intros Hka. induction 1 as [|[k' a'] d Hx Hd IH]; simpl.
  - constructor; auto.
  - destruct (pyval_eqb k' k) eqn:E.
    + apply pyval_eqb_true in E. constructor; auto.
    + now constructor.
Qed.

Lemma Forall_dict_update (P : pyval * annotation -> Prop) k f d :
  (forall a, P (k, a) -> P (k, f a)) ->
  Forall P d -> Forall P (dict_update k f d).
Proof.
  intros Hf. induction 1 as [|[k' a'] d Hx Hd IH]; simpl; auto.
  destruct (pyval_eqb k' k) eqn:E; constructor; auto.
  apply pyval_eqb_true in E. subst k'. now apply Hf.
Qed.

Lemma NoDup_dict_set k a d :
  NoDup (map fst d) -> NoDup (map fst (dict_set k a d)).
Proof.
  intros Hnd. rewrite keys_dict_set. unfold dict_mem.
  destruct (dict_get k d) eqn:E; auto.
  apply dict_get_None_notin in E.
  apply NoDup_app; auto.
  - repeat constructor. simpl. tauto.
  - intros x Hx [<-|[]]. tauto.
Qed.

Lemma dict_ok_set k a d :
  textual (k, a) -> dict_ok d -> dict_ok (dict_set k a d).
Proof.
  intros Hka [Hnd Ht]. split; [now apply NoDup_dict_set|].
  apply Forall_dict_set; auto. now intros k' ->.
Qed.

End StoreFacts.

Section StoreFile.
Import PyStr Store.

(** *** Texts that are read back as they were written *)

Lemma universal_newlines_no_cr s : no_cr s = true -> universal_newlines s = s.
Proof.
  unfold no_cr. induction s as [|c s IH]; simpl; auto.
  intros H. apply andb_true_iff in H as [Hc Hs].
  apply negb_true_iff in Hc. rewrite Hc. now rewrite IH.
Qed.

Lemma universal_newlines_cons c r :
  universal_newlines (c :: r) =
  if eqc c CR then
    match r with
    | d :: r' =>
        if eqc d LF then LF :: universal_newlines r'
        else LF :: universal_newlines r
    | [] => [LF]
    end
  else c :: universal_newlines r.
Proof. reflexivity. Qed.

Lemma no_cr_universal_newlines s : no_cr (universal_newlines s) = true.
Proof.
  unfold no_cr.
  assert (H : forall n s, (length s <= n)%nat ->
            forallb (fun c => negb (eqc c CR)) (universal_newlines s) = true).
  { induction n as [|n IH]; intros [|c r] Hlen; try reflexivity;
      cbn [length] in Hlen; try lia.
    rewrite universal_newlines_cons.
    destruct (eqc c CR) eqn:Ec.
    - destruct r as [|d r']; [reflexivity|].
      cbn [length] in Hlen.
      destruct (eqc d LF); cbn [forallb];
        change (negb (eqc LF CR)) with true; cbn [andb];
        apply IH; cbn [length]; lia.
    - cbn [forallb]. rewrite Ec. cbn [negb andb]. apply IH. lia. }
  now apply (H (length s)).
Qed.

Lemma no_nul_universal_newlines s :
  no_nul s = true -> no_nul (universal_newlines s) = true.
Proof.
  unfold no_nul.
  assert (H : forall n s, (length s <= n)%nat ->
            forallb (fun c => negb (eqc c NUL)) s = true ->
            forallb (fun c => negb (eqc c NUL)) (universal_newlines s) = true).
  { induction n as [|n IH]; intros [|c r] Hlen Hs; try reflexivity;
      cbn [length] in Hlen; try lia.
    rewrite universal_newlines_cons.
    cbn [forallb] in Hs. apply andb_true_iff in Hs as [Hc Hr].
    destruct (eqc c CR) eqn:Ec.
    - destruct r as [|d r']; [reflexivity|].
      cbn [length] in Hlen. cbn [forallb] in Hr.
      apply andb_true_iff in Hr as [Hd Hr'].
      destruct (eqc d LF); cbn [forallb];
        change (negb (eqc LF NUL)) with true; cbn [andb].
      + apply IH; [lia | exact Hr'].
      + apply IH; [cbn [length]; lia |]. cbn [forallb]. now rewrite Hd.
    - cbn [forallb]. rewrite Hc. cbn [andb]. apply IH; [lia | exact Hr]. }
  now apply (H (length s)).
Qed.

Lemma length_universal_newlines s :
  (length (universal_newlines s) <= length s)%nat.
Proof.
  assert (H : forall n s, (length s <= n)%nat ->
            (length (universal_newlines s) <= length s)%nat).
  { induction n as [|n IH]; intros [|c r] Hlen; cbn [length] in Hlen;
      try lia; try (cbn; lia).
    rewrite universal_newlines_cons.
    destruct (eqc c CR).
    - destruct r as [|d r']; [cbn; lia|].
      cbn [length] in Hlen.
      destruct (eqc d LF).
      + pose proof (IH r' ltac:(lia)). cbn [length]. lia.
      + pose proof (IH (d :: r') ltac:(cbn [length]; lia)) as H.
        cbn [length] in *. lia.
    - pose proof (IH r ltac:(lia)). cbn [length]. lia. }
  now apply (H (length s)).
Qed.

Lemma within_limit_shorter (a b : str) :
  (length a <= length b)%nat -> within_limit b = true -> within_limit a = true.
Proof.
  unfold within_limit. intros Hab Hb.
  apply Z.leb_le in Hb. apply Z.leb_le. lia.
Qed.

Lemma plain_parts s :
  plain s = true -> no_cr s = true /\ no_nul s = true /\ within_limit s = true.
Proof. unfold plain. rewrite !andb_true_iff. tauto. Qed.

Lemma universal_newlines_plain s : plain s = true -> universal_newlines s = s.
Proof. intros H. apply universal_newlines_no_cr. now apply plain_parts. Qed.

Lemma plain_storable s : plain s = true -> storable s = true.
Proof.
  intros H. unfold storable. rewrite (universal_newlines_plain s H).
  destruct (plain_parts s H) as (_ & Hn & Hl). now rewrite Hn, Hl.
Qed.

(** What the reader yields for a field that it takes is plain. *)
Lemma plain_read s : storable s = true -> plain (universal_newlines s) = true.
Proof.
  unfold storable, plain. intros H. apply andb_true_iff in H as [Hn Hl].
  now rewrite no_cr_universal_newlines, no_nul_universal_newlines, Hl.
Qed.

Lemma is_plain_inv (v : pyval) :
  is_plain v = true -> exists s, v = Some (Plain s) /\ plain s = true.
Proof. destruct v as [[s|n]|]; simpl; try discriminate. eauto. Qed.

Lemma is_plain_provided (v : pyval) :
  is_plain v = true -> plain_or_absent v = true.
Proof. destruct v as [[s|n]|]; simpl; auto. Qed.

Lemma provided_is_plain (t : text) :
  plain_or_absent (Some t) = true -> is_plain (Some t) = true.
Proof. destruct t; simpl; auto. Qed.

Lemma shown_plain (v : pyval) :
  plain_or_absent v = true -> plain (shown v) = true.
Proof. destruct v as [[s|n]|]; simpl; auto. Qed.

Lemma textual_writable e : textual e -> writable e.
Proof. intros (Hk & Hc & Hm). repeat split; now apply is_plain_provided. Qed.

(** *** Reading *)

Lemma read_row_storable (line : list str) :
  forallb storable line = true ->
  read_row line = Ok (map universal_newlines line).
Proof.
  intros H. unfold read_row. cbv zeta.
  replace (forallb within_limit (map universal_newlines line)) with true;
    [reflexivity|].
  symmetry. apply forallb_forall. intros x Hx.
  apply in_map_iff in Hx as (y & <- & Hy).
  rewrite forallb_forall in H. specialize (H y Hy).
  unfold storable in H. apply andb_true_iff in H. tauto.
Qed.

Lemma read_row_plain (line : list str) :
  forallb plain line = true -> read_row line = Ok line.
Proof.
  intros H. rewrite forallb_forall in H. rewrite read_row_storable.
  - f_equal. rewrite <- (map_id line) at 2. apply map_ext_in.
    intros x Hx. apply universal_newlines_plain. now apply H.
  - apply forallb_forall. intros x Hx. apply plain_storable. now apply H.
Qed.

Lemma read_row_header : read_row header = Ok header.
Proof. reflexivity. Qed.

Lemma read_rows_cons (fieldnames line : list str) (rest : table) d :
  read_rows fieldnames (line :: rest) d =
  match read_row line with
  | Raise e => Raise e
  | Ok [] => read_rows fieldnames rest d
  | Ok row =>
      match reader_get fieldnames row (lit "transaction_hash") with
      | None => Raise (KeyError (lit "transaction_hash"))
      | Some h =>
          read_rows fieldnames rest
            (dict_set h
               {| category := row_get fieldnames row (lit "category") (Some (Plain []));
                  comment := row_get fieldnames row (lit "comment") (Some (Plain [])) |}
               d)
      end
  end.
Proof. reflexivity. Qed.

(** A line of three fields under the store's header. *)
Lemma read_rows_store (line : list str) (a b c : str) (rest : table) d :
  read_row line = Ok [a; b; c] ->
  read_rows header (line :: rest) d =
  read_rows header rest
    (dict_set (Some (Plain a))
       {| category := Some (Plain b); comment := Some (Plain c) |} d).
Proof. intros H. rewrite read_rows_cons, H. reflexivity. Qed.

Lemma header_only (h : list str) :
  forallb (fun p => PyStr.eqb (fst p) (snd p)) (combine h header) = true ->
  Nat.eqb (length h) 3 = true -> h = header.
Proof.
  intros Heq Hlen. apply Nat.eqb_eq in Hlen.
  destruct h as [|a [|b [|c [|x h]]]]; try discriminate.
  unfold header in *. cbn [combine forallb fst snd] in Heq.
  rewrite !andb_true_iff in Heq.
  destruct Heq as (Ha & Hb & Hc & _).
  apply str_eqb_true in Ha, Hb, Hc. now subst.
Qed.

Lemma read_rows_wf (data : table) : forall d,
  forallb (fun r => Nat.eqb (length r) 3 && forallb storable r) data = true ->
  dict_ok d ->
  exists d', read_rows header data d = Ok d' /\ dict_ok d'.
Proof.
  induction data as [|row data IH]; intros d Hwf Hd.
  - exists d. split; [reflexivity | assumption].
  - cbn [forallb] in Hwf. apply andb_true_iff in Hwf as [Hrow Hdata].
    apply andb_true_iff in Hrow as [Hlen Hst]. apply Nat.eqb_eq in Hlen.
    destruct row as [|a [|b [|c [|x row]]]]; try discriminate.
    rewrite (read_rows_store [a; b; c] (universal_newlines a)
               (universal_newlines b) (universal_newlines c) data d
               (read_row_storable _ Hst)).
    cbn [forallb] in Hst. rewrite !andb_true_iff in Hst.
    destruct Hst as (Ha & Hb & Hc & _).
    apply IH; [assumption|].
    apply dict_ok_set; [|assumption].
    repeat split; cbn [fst snd category comment is_plain]; now apply plain_read.
Qed.

(** A file in the store's format loads, as a dict of textual entries with
    distinct keys. *)
Lemma load_wf (f : file) :
  wf_store f = true -> exists d, load_annotations f = Ok d /\ dict_ok d.
Proof.
  destruct f as [[|h data]|]; cbn [wf_store]; try discriminate.
  - rewrite !andb_true_iff. intros [[Hh Hlen] Hdata].
    apply header_only in Hh; auto. subst h.
    unfold load_annotations. rewrite read_row_header. cbn [bind].
    apply read_rows_wf; auto using dict_ok_nil.
  - intros _. exists []. split; [reflexivity | apply dict_ok_nil].
Qed.

(** *** Writing *)

Lemma field_shown (v : pyval) : plain_or_absent v = true -> field v = Ok (shown v).
Proof.
  destruct v as [[s|n]|]; simpl; intros H;
    [reflexivity | discriminate | reflexivity].
Qed.

Lemma row_of_writable e : writable e -> row_of e = Ok (fields_of e).
Proof.
  intros (Hk & Hc & Hm). unfold row_of.
  rewrite (field_shown _ Hk), (field_shown _ Hc), (field_shown _ Hm).
  reflexivity.
Qed.

Lemma write_rows_writable (d : annotations) :
  Forall writable d -> write_rows d = (map fields_of d, None).
Proof.
  induction 1 as [|e d He _ IH]; cbn [write_rows map]; [reflexivity|].
  now rewrite (row_of_writable e He), IH.
Qed.

Lemma field_raises (v : pyval) (e : exn) :
  field v = Raise e -> e = UnicodeEncodeError.
Proof. destruct v as [[s|n]|]; simpl; congruence. Qed.

Lemma row_of_raises (x : pyval * annotation) (e : exn) :
  row_of x = Raise e -> e = UnicodeEncodeError.
Proof.
  unfold row_of.
  destruct (field (fst x)) eqn:E1; cbn [bind];
    [|intros H; injection H as <-; now apply field_raises in E1].
  destruct (field (category (snd x))) eqn:E2; cbn [bind];
    [|intros H; injection H as <-; now apply field_raises in E2].
  destruct (field (comment (snd x))) eqn:E3; cbn [bind];
    [discriminate|intros H; injection H as <-; now apply field_raises in E3].
Qed.

Lemma write_rows_raises (d : annotations) : forall t e,
  write_rows d = (t, Some e) -> e = UnicodeEncodeError.
Proof.
  induction d as [|x d IH]; intros t e; cbn [write_rows]; [discriminate|].
  destruct (row_of x) as [r|e'] eqn:E.
  - destruct (write_rows d) as [t' raised]. intros H. injection H as _ ->.
    now apply (IH t').
  - intros H. injection H as _ <-. now apply row_of_raises in E.
Qed.

Lemma wf_stored (d : annotations) :
  Forall writable d -> wf_store (stored d) = true.
Proof.
  intros Hd. unfold wf_store, stored.
  apply andb_true_iff. split; [reflexivity|].
  apply forallb_forall. intros r Hr.
  apply in_map_iff in Hr as (e & <- & He).
  rewrite Forall_forall in Hd. destruct (Hd e He) as (Hk & Hc & Hm).
  unfold fields_of. cbn [length Nat.eqb forallb andb].
  now rewrite !plain_storable by now apply shown_plain.
Qed.

(** *** Reading back what was written *)

Lemma read_written (l : annotations) : forall d,
  Forall textual l -> NoDup (map fst (d ++ l)) ->
  read_rows header (map fields_of l) d = Ok (d ++ l).
Proof.
  induction l as [|e l IH]; intros d Ht Hnd; cbn [map].
  - rewrite app_nil_r. reflexivity.
  - inversion Ht as [|? ? He Hl]; subst.
    assert (Hfresh : ~ In (fst e) (map fst d)).
    { rewrite map_app in Hnd. cbn [map] in Hnd.
      apply NoDup_remove_2 in Hnd. intros Hin. apply Hnd.
      apply in_or_app. now left. }
    destruct e as [k [c m]]. destruct He as (Hk & Hc & Hm).
    cbn [fst snd category comment] in *.
    apply is_plain_inv in Hk as (sk & -> & Hsk).
    apply is_plain_inv in Hc as (sc & -> & Hsc).
    apply is_plain_inv in Hm as (sm & -> & Hsm).
    rewrite (read_rows_store _ sk sc sm).
    + rewrite dict_set_fresh by assumption.
      rewrite IH; [now rewrite <- app_assoc | assumption |].
      rewrite <- app_assoc. exact Hnd.
    + apply read_row_plain. cbn [forallb]. now rewrite Hsk, Hsc, Hsm.
Qed.

(** A dict of textual entries with distinct keys is read back as it is. *)
Lemma load_stored (d : annotations) :
  NoDup (map fst d) -> Forall textual d -> load_annotations (stored d) = Ok d.
Proof.
  intros Hnd Ht. unfold load_annotations, stored.
  rewrite read_row_header. cbn [bind].
  now apply (read_written d []).
Qed.

(** *** The upsert *)

Lemma NoDup_upsert h c m d :
  NoDup (map fst d) -> NoDup (map fst (upsert h c m d)).
Proof.
  intros Hd. unfold upsert.
  destruct c, m; rewrite ?keys_dict_update;
    destruct (dict_mem (Some h) d); auto using NoDup_dict_set.
Qed.

Lemma Forall_upsert (P : pyval * annotation -> Prop) h c m d :
  (forall a c', P (Some h, a) -> c = Some c' ->
     P (Some h, {| category := Some c'; comment := comment a |})) ->
  (forall a m', P (Some h, a) -> m = Some m' ->
     P (Some h, {| category := category a; comment := Some m' |})) ->
  P (Some h, {| category := Some (Plain []); comment := Some (Plain []) |}) ->
  Forall P d -> Forall P (upsert h c m d).
Proof.
  intros Hc Hm Hnew Hd. unfold upsert. cbv zeta.
  assert (H1 : Forall P
            (if dict_mem (Some h) d then d
             else dict_set (Some h)
                    {| category := Some (Plain []); comment := Some (Plain []) |} d)).
  { destruct (dict_mem (Some h) d); auto.
    apply Forall_dict_set; auto. now intros k' ->. }
  destruct c as [c'|], m as [m'|];
    repeat (apply Forall_dict_update; [intros a Ha; eauto|]);
    exact H1.
Qed.

Lemma dict_update_other_keys k f d :
  ~ In k (map fst d) -> dict_update k f d = d.
Proof.
  induction d as [|[k' a'] d IH]; simpl; auto.
  intros Hnin. destruct (pyval_eqb k' k) eqn:E.
  - apply pyval_eqb_true in E. tauto.
  - f_equal. apply IH. tauto.
Qed.

(** The entry of the hash after an upsert. *)
Lemma dict_get_upsert_same h c m d :
  dict_get (Some h) (upsert h c m d) =
  Some {| category := upserted c (option_map category (dict_get (Some h) d));
          comment := upserted m (option_map comment (dict_get (Some h) d)) |}.
Proof.
  unfold upsert, dict_mem.
  destruct (dict_get (Some h) d) as [[c0 m0]|] eqn:E.
  - destruct c, m; simpl; rewrite ?dict_get_update_same, ?E; reflexivity.
  - destruct c, m; simpl;
      rewrite ?dict_get_update_same, ?dict_get_set_same; reflexivity.
Qed.

(** The entries of the other keys after an upsert. *)
Lemma dict_get_upsert_other h k c m d :
  k <> Some h -> dict_get k (upsert h c m d) = dict_get k d.
Proof.
  intros Hne. unfold upsert.
  assert (Hne' : Some h <> k) by congruence.
  destruct (dict_mem (Some h) d), c, m;
    rewrite ?dict_get_update_other, ?dict_get_set_other by assumption;
    reflexivity.
Qed.

Lemma dict_ok_upsert h c m d :
  plain h = true -> plain_or_absent c = true -> plain_or_absent m = true ->
  dict_ok d -> dict_ok (upsert (Plain h) c m d).
Proof.
  intros Hh Hc Hm [Hnd Hd]. split; [now apply NoDup_upsert|].
  apply Forall_upsert; auto.
  - intros a c' (Hk & _ & Hcm) ->. repeat split; auto using provided_is_plain.
  - intros a m' (Hk & Hcc & _) ->. repeat split; auto using provided_is_plain.
  - repeat split; auto.
Qed.

Lemma writable_upsert h c m d :
  plain h = true -> plain_or_absent c = true -> plain_or_absent m = true ->
  Forall writable d -> Forall writable (upsert (Plain h) c m d).
Proof.
  intros Hh Hc Hm Hd. apply Forall_upsert; auto.
  - intros a c' (Hk & _ & Hcm) ->. repeat split; auto.
  - intros a m' (Hk & Hcc & _) ->. repeat split; auto.
  - repeat split; auto.
Qed.

(** [save_annotation] of plain texts on a file in the store's format: it
    returns, the file it leaves is in the store's format and loads as the
    upserted dict. *)
Lemma save_annotation_ok h c m f :
  wf_store f = true -> plain h = true ->
  plain_or_absent c = true -> plain_or_absent m = true ->
  exists d, load_annotations f = Ok d /\ dict_ok d /\
    dict_ok (upsert (Plain h) c m d) /\
    save_annotation (Plain h) c m f = Done (stored (upsert (Plain h) c m d)) /\
    wf_store (stored (upsert (Plain h) c m d)) = true /\
    load_annotations (stored (upsert (Plain h) c m d)) = Ok (upsert (Plain h) c m d).
Proof.
  intros Hwf Hh Hc Hm. destruct (load_wf f Hwf) as (d & Hload & Hd).
  pose proof (dict_ok_upsert h c m d Hh Hc Hm Hd) as Hd'.
  assert (Hw : Forall writable (upsert (Plain h) c m d)).
  { destruct Hd' as [_ Ht]. revert Ht. apply Forall_impl. exact textual_writable. }
  exists d. split; [assumption|]. split; [assumption|]. split; [assumption|].
  split; [|split].
  - unfold save_annotation. rewrite Hload.
    now rewrite (write_rows_writable _ Hw).
  - now apply wf_stored.
  - destruct Hd' as [Hnd Ht]. now apply load_stored.
Qed.

End StoreFile.

Section StoreUpsert.
Import PyStr Store.











Lemma filler_succ (n : N) : Shape.filler (N.succ n) = "x"%char :: Shape.filler n.
Proof. unfold Shape.filler. now rewrite N.iter_succ. Qed.

Lemma filler_length (n : N) : Z.of_nat (length (Shape.filler n)) = Z.of_N n.
Proof.
  induction n as [|n IH] using N.peano_ind; [reflexivity|].
  rewrite filler_succ. cbn [length]. lia.
Qed.

Lemma filler_chars (n : N) :
  no_cr (Shape.filler n) = true /\ no_nul (Shape.filler n) = true.
Proof.
  induction n as [|n [IH1 IH2]] using N.peano_ind; [split; reflexivity|].
  rewrite filler_succ. unfold no_cr, no_nul in *. cbn [forallb].
  rewrite IH1, IH2. split; reflexivity.
Qed.

Lemma within_limit_filler (n : N) :
  within_limit (Shape.filler n) = (Z.of_N n <=? field_size_limit).
Proof. unfold within_limit. now rewrite filler_length. Qed.

Lemma read_row_over (a b c : str) :
  within_limit (universal_newlines b) = false ->
  read_row [a; b; c] = Raise CsvError.
Proof.
  intros H. unfold read_row. cbn [map forallb]. rewrite H.
  now destruct (within_limit (universal_newlines a)).
Qed.

Lemma load_one_row (k c m : str) :
  plain k = true -> plain c = true -> plain m = true ->
  load_annotations (Some [header; [k; c; m]]) =
  Ok [(Some (Plain k), {| category := Some (Plain c); comment := Some (Plain m) |})].
Proof.
  intros Hk Hc Hm.
  apply (load_stored
           [(Some (Plain k), {| category := Some (Plain c); comment := Some (Plain m) |})]).
  - constructor; [intros [] | constructor].
  - constructor; [|constructor]. repeat split; assumption.
Qed.

Lemma plain_filler (n : N) :
  plain (Shape.filler n) = (Z.of_N n <=? field_size_limit).
Proof.
  unfold plain.
  rewrite (proj1 (filler_chars n)), (proj2 (filler_chars n)).
  now rewrite within_limit_filler.
Qed.

(** The reader's limit: a field of 131072 characters loads, one of 131073
    makes [load_annotations] raise, and [save_annotation] with it, which
    leaves the file as it is. *)
Example load_annotations_field_limit :
  load_annotations (Some [header; [lit "h1"; Shape.filler 131072; []]]) =
    Ok [(Some (Plain (lit "h1")),
         {| category := Some (Plain (Shape.filler 131072));
            comment := Some (Plain []) |})] /\
  load_annotations (Some [header; [lit "h1"; Shape.filler 131073; []]]) =
    Raise CsvError /\
  save_annotation (Plain (lit "h2")) (Some (Plain (lit "Food"))) None
    (Some [header; [lit "h1"; Shape.filler 131073; []]]) =
    Raised CsvError (Some [header; [lit "h1"; Shape.filler 131073; []]]).
Proof.
  assert (Hover : load_annotations
                    (Some [header; [lit "h1"; Shape.filler 131073; []]]) =
                  Raise CsvError).
  { unfold load_annotations. rewrite read_row_header. cbn [bind].
    rewrite read_rows_cons, read_row_over; [reflexivity|].
    rewrite (universal_newlines_no_cr _ (proj1 (filler_chars 131073))).
    rewrite within_limit_filler. reflexivity. }
  split; [|split].
  - apply load_one_row; [reflexivity | | reflexivity].
    rewrite plain_filler. reflexivity.
  - exact Hover.
  - unfold save_annotation. now rewrite Hover.
Qed.

End StoreUpsert.

(** ** The transaction hash *)

Section HashFacts.
Import PyStr Ledger Hasher.

Lemma flat_map_length_const {A B} (f : A -> list B) (k : nat) (l : list A) :
  (forall a, length (f a) = k) -> length (flat_map f l) = (k * length l)%nat.
Proof.
  intros Hf. induction l as [|a l IH]; simpl.
  - lia.
  - rewrite length_app, Hf, IH. lia.
Qed.

Lemma compress_length (h block : list Z) :
  length h = 8%nat -> length (Sha256.compress h block) = 8%nat.
Proof.
  intros Hh. unfold Sha256.compress.
  destruct (fold_left Sha256.round Sha256.K _) as [r win].
  rewrite length_map, length_combine, Hh. reflexivity.
Qed.

Lemma fold_left_length {A B} (f : list A -> B -> list A) (n : nat) :
  (forall h b, length h = n -> length (f h b) = n) ->
  forall (bs : list B) (h : list A),
    length h = n -> length (fold_left f bs h) = n.
Proof.
  intros Hf. induction bs as [|b bs IH]; intros h Hh; cbn [fold_left]; auto.
Qed.

Lemma sha256_length (msg : list Z) : length (Sha256.sha256 msg) = 8%nat.
Proof.
  unfold Sha256.sha256.
  apply (fold_left_length Sha256.compress 8 compress_length).
  reflexivity.
Qed.

Lemma be_bytes_length (n : nat) (x : Z) : length (Sha256.be_bytes n x) = n.
Proof.
  revert x. induction n as [|n IH]; intros x; simpl; auto.
  rewrite length_app, IH. simpl. lia.
Qed.

(** A digest is always 64 hexadecimal characters long. *)
Lemma hexdigest_length (msg : list Z) : length (Sha256.hexdigest msg) = 64%nat.
Proof.
  unfold Sha256.hexdigest.
  rewrite (flat_map_length_const _ 8).
  - now rewrite sha256_length.
  - intros w. rewrite (flat_map_length_const _ 2).
    + now rewrite be_bytes_length.
    + reflexivity.
Qed.

(** The digest of the three bytes of "abc" is the one of FIPS 180-4. *)
Example sha256_abc :
  Sha256.hexdigest (Sha256.utf8 (lit "abc")) =
  lit "ba7816bf8f01cfea414140de5dae2223b00361a396177a9cb410ff61f20015ad".
Proof. vm_compute. reflexivity. Qed.

Lemma be_bytes_range (n : nat) : forall x,
  Forall (fun b => 0 <= b < 256) (Sha256.be_bytes n x).
Proof.
  induction n as [|n IH]; intros x; simpl; [constructor|].
  apply Forall_app. split; [apply IH|].
  constructor; [|constructor]. apply Z.mod_pos_bound. lia.
Qed.

Lemma hex_digit_not_cr (d : Z) :
  0 <= d < 16 -> PyStr.eqc (Sha256.hex_digit d) Store.CR = false.
Proof.
  intros Hd.
  assert (H : d = 0 \/ d = 1 \/ d = 2 \/ d = 3 \/ d = 4 \/ d = 5 \/ d = 6 \/ d = 7 \/
              d = 8 \/ d = 9 \/ d = 10 \/ d = 11 \/ d = 12 \/ d = 13 \/ d = 14 \/
              d = 15) by lia.
  repeat (destruct H as [->|H]; [reflexivity|]). subst. reflexivity.
Qed.

Lemma hex_byte_no_cr (b : Z) :
  0 <= b < 256 -> Store.no_cr (Sha256.hex_byte b) = true.
Proof.
  intros Hb. unfold Store.no_cr, Sha256.hex_byte. cbn [forallb].
  rewrite !hex_digit_not_cr; [reflexivity| |].
  - apply Z.mod_pos_bound. lia.
  - split; [apply Z.div_pos; lia | apply Z.div_lt_upper_bound; lia].
Qed.

Lemma no_cr_flat_map {A} (f : A -> str) (l : list A) :
  Forall (fun a => Store.no_cr (f a) = true) l ->
  Store.no_cr (flat_map f l) = true.
Proof.
  unfold Store.no_cr. induction 1 as [|a l Ha _ IH]; simpl; auto.
  rewrite forallb_app, Ha. exact IH.
Qed.

(** A digest has no carriage return: it is a key that the annotation store
    finds again. *)
Lemma hexdigest_no_cr (msg : list Z) : Store.no_cr (Sha256.hexdigest msg) = true.
Proof.
  unfold Sha256.hexdigest. apply no_cr_flat_map.
  apply Forall_forall. intros w _. apply no_cr_flat_map.
  pose proof (be_bytes_range 4 w) as Hr. revert Hr.
  apply Forall_impl. exact hex_byte_no_cr.
Qed.

Lemma create_transaction_hash_no_cr
  (float_repr : PyFloat.float -> str) (timestamp_str : timestamp -> str)
  (row : series) :
  Store.no_cr (create_transaction_hash float_repr timestamp_str row) = true.
Proof. apply hexdigest_no_cr. Qed.

Lemma hex_digit_not_nul (d : Z) :
  0 <= d < 16 -> PyStr.eqc (Sha256.hex_digit d) Store.NUL = false.
Proof.
  intros Hd.
  assert (H : d = 0 \/ d = 1 \/ d = 2 \/ d = 3 \/ d = 4 \/ d = 5 \/ d = 6 \/ d = 7 \/
              d = 8 \/ d = 9 \/ d = 10 \/ d = 11 \/ d = 12 \/ d = 13 \/ d = 14 \/
              d = 15) by lia.
  repeat (destruct H as [->|H]; [reflexivity|]). subst. reflexivity.
Qed.

Lemma hex_byte_no_nul (b : Z) :
  0 <= b < 256 -> Store.no_nul (Sha256.hex_byte b) = true.
Proof.
  intros Hb. unfold Store.no_nul, Sha256.hex_byte. cbn [forallb].
  rewrite !hex_digit_not_nul; [reflexivity| |].
  - apply Z.mod_pos_bound. lia.
  - split; [apply Z.div_pos; lia | apply Z.div_lt_upper_bound; lia].
Qed.

Lemma no_nul_flat_map {A} (f : A -> str) (l : list A) :
  Forall (fun a => Store.no_nul (f a) = true) l ->
  Store.no_nul (flat_map f l) = true.
Proof.
  unfold Store.no_nul. induction 1 as [|a l Ha _ IH]; simpl; auto.
  rewrite forallb_app, Ha. exact IH.
Qed.

Lemma hexdigest_no_nul (msg : list Z) : Store.no_nul (Sha256.hexdigest msg) = true.
Proof.
  unfold Sha256.hexdigest. apply no_nul_flat_map.
  apply Forall_forall. intros w _. apply no_nul_flat_map.
  pose proof (be_bytes_range 4 w) as Hr. revert Hr.
  apply Forall_impl. exact hex_byte_no_nul.
Qed.

(** A transaction hash is a plain text: a key that the annotation store
    writes and finds again. *)
Lemma create_transaction_hash_plain
  (float_repr : PyFloat.float -> str) (timestamp_str : timestamp -> str)
  (row : series) :
  Store.plain (create_transaction_hash float_repr timestamp_str row) = true.
Proof.
  unfold Store.plain, create_transaction_hash.
  rewrite hexdigest_no_cr, hexdigest_no_nul.
  unfold Store.within_limit. now rewrite hexdigest_length.
Qed.

(** C1. The transaction hash of a row is a function of its values alone,
    in their order: hashing a row twice, or hashing two rows that agree in
    every column, gives the same digest, which is 64 characters long.  The
    digest is the SHA-256 hex digest of the UTF-8 bytes of the values
    rendered with [str] and joined with ["|"]: on the row without columns, on
    a row with a missing value, on a row of 76 bytes in two blocks with
    letters beyond ASCII, an empty text and a [NaT], and on the 56 bytes of
    the second vector of FIPS 180-4, it is the digest that [hashlib]
    gives. *)
Theorem create_transaction_hash_deterministic
  (float_repr : PyFloat.float -> str) (timestamp_str : timestamp -> str)
  (row1 row2 : series) :
  values row1 = values row2 ->
  create_transaction_hash float_repr timestamp_str row1 =
    create_transaction_hash float_repr timestamp_str row2
  /\ length (create_transaction_hash float_repr timestamp_str row1) = 64%nat
  /\ create_transaction_hash float_repr timestamp_str [] =
       lit "e3b0c44298fc1c149afbf4c8996fb92427ae41e4649b934ca495991b7852b855"
  /\ create_transaction_hash float_repr timestamp_str
       [(lit "payer", VStr (lit "Acme")); (lit "payee", VNaN);
        (lit "purpose", VStr (lit "Groceries"))] =
       lit "c9e63289722e6e6b2490985fc5039d1ca01eeb4da540956b57f9e359af2fa0cc"
  /\ create_transaction_hash float_repr timestamp_str
       [(lit "date", VStr (lit "15.01.2024"));
        (lit "amount", VStr (lit "-45,90"));
        (lit "payer", VStr (lit "B" ++ "228"%char :: lit "ckerei M"
                              ++ "252"%char :: lit "ller"));
        (lit "payee", VStr []);
        (lit "purpose", VStr (lit "Br" ++ "246"%char :: lit "tchen und Kaffee f"
                                ++ "252"%char :: lit "r das B"
                                ++ "252"%char :: lit "ro"));
        (lit "YearMonth", VNaT)] =
       lit "17b35b67198700dfd15d6e3b3b1714977636859fe36c0a6bc8915a1db31ed1dc"
  /\ create_transaction_hash float_repr timestamp_str
       [(lit "purpose",
         VStr (lit "abcdbcdecdefdefgefghfghighijhijkijkljklmklmnlmnomnopnopq"))] =
       lit "248d6a61d20638b8e5c026930c3e6039a33ce45964ff2167f6ecedd419db06c1".
Proof.
  intros Hv. split.
  - unfold create_transaction_hash. now rewrite Hv.
  - split; [apply hexdigest_length|].
    repeat split; vm_compute; reflexivity.
Qed.

Lemma create_transaction_hash_deterministic_witness :
  let row1 := [(lit "date", VStr (lit "15.01.2024")); (lit "amount", VStr (lit "-45,90"));
               (lit "payer", VStr (lit "Acme")); (lit "payee", VNaN)] in
  let row2 := [(lit "Datum", VStr (lit "15.01.2024")); (lit "Betrag", VStr (lit "-45,90"));
               (lit "Von", VStr (lit "Acme")); (lit "An", VNaN)] in
  let fr := fun _ : PyFloat.float => lit "-45.9" in
  let ts := fun _ : timestamp => lit "2024-01-15 00:00:00" in
  create_transaction_hash fr ts row1 = create_transaction_hash fr ts row2.
Proof.
  intros row1 row2 fr ts.
  apply (create_transaction_hash_deterministic fr ts row1 row2).
  reflexivity.
Defined.

End HashFacts.

(** ** Loading the ledger *)

Section LoadFacts.
Import PyStr PyFloat Amount Ledger.

Variable to_datetime : list cell -> list (option timestamp).

(** A column that is present and empty in every line is reported. *)
Example load_transactions_empty_amounts :
  load_transactions to_datetime [] ledger_empty_amounts =
  Raise (MissingColumns [lit "amount"]).
Proof. reflexivity. Qed.

(** C6, at the ledger without a date column.  [load_transactions] creates
    the column before it validates, so the validation finds a column of
    empty texts, none of them null: no error is raised and the frame is
    returned with a date column. *)
Theorem load_transactions_absent_date_accepted :
  exists df,
    load_transactions to_datetime [] ledger_without_date = Ok df /\
    columns df = [lit "amount"; lit "payer"; lit "date"; lit "payee"; lit "purpose"].
Proof.
  unfold load_transactions. cbv zeta.
  match goal with
  | |- context [to_datetime ?cells] => generalize (to_datetime cells)
  end.
  intros [|t l]; eexists; (split; [lazy; reflexivity|]); reflexivity.
Qed.

Lemma rows_ensure_columns (df : frame) :
  rows df = [] -> rows (ensure_columns df) = [].
Proof.
  unfold ensure_columns. generalize expected_columns.
  intros cols. revert df.
  induction cols as [|c cols IH]; intros df Hrows; cbn [fold_left]; auto.
  apply IH. destruct (has_column c df); auto.
  unfold set_column_scalar, set_column. rewrite Hrows.
  destruct (index_of c (columns df)); reflexivity.
Qed.

Lemma missing_columns_no_rows (df : frame) :
  rows df = [] -> missing_columns df = required_columns.
Proof.
  intros Hrows. unfold missing_columns, column. rewrite Hrows.
  unfold required_columns. cbn [filter map].
  destruct (index_of (lit "date") (columns df));
    destruct (index_of (lit "amount") (columns df)); reflexivity.
Qed.

(** C7, at every ledger with a header line and no transaction line,
    [header_only_ledger] among them.  The test [df[col].isnull().all()]
    holds of a column without rows, so both required columns are reported
    missing and [load_transactions] raises, whatever the header and the
    aliases are. *)
Theorem load_transactions_header_only_raises
  (aliases : list (str * str)) (header : list str) :
  load_transactions to_datetime aliases {| columns := header; rows := [] |} =
  Raise (MissingColumns [lit "date"; lit "amount"]).
Proof.
  unfold load_transactions.
  rewrite missing_columns_no_rows.
  - reflexivity.
  - apply rows_ensure_columns. reflexivity.
Qed.

Example load_transactions_header_only :
  load_transactions to_datetime [] header_only_ledger =
  Raise (MissingColumns [lit "date"; lit "amount"]).
Proof. reflexivity. Qed.

End LoadFacts.

(** ** Monthly aggregation *)

Section AggregatorFacts.
Import PyStr PyFloat Ledger Aggregator.

Variable minus_zero : bool.

Lemma apply_Ok {A B} (f : A -> result B) (l : list A) : forall r,
  apply f l = Ok r -> Forall2 (fun a b => f a = Ok b) l r.
Proof.
  induction l as [|a l IH]; simpl; intros r H.
  - injection H as <-. constructor.
  - destruct (f a) as [b|e] eqn:Ea; simpl in H; try discriminate.
    destruct (apply f l) as [bs|e] eqn:El; simpl in H; try discriminate.
    injection H as <-. constructor; auto.
Qed.

Lemma positive_not_negative (x : float) :
  positive x = true -> negative x = false.
Proof.
  destruct x as [s|s| |s m e]; try destruct s; cbv; congruence.
Qed.


(** The depth given to [pairwise_sum] is never used up. *)
Lemma pairwise_sum_depth (d1 : nat) : forall d2 xs,
  (length xs <= d1)%nat -> (length xs <= d2)%nat ->
  pairwise_sum minus_zero d1 xs = pairwise_sum minus_zero d2 xs.
Proof.
  induction d1 as [|d1 IH]; intros d2 xs H1 H2.
  - destruct xs; [|simpl in H1; lia]. destruct d2; reflexivity.
  - destruct d2 as [|d2].
    + destruct xs; [reflexivity | simpl in H2; lia].
    + cbn [pairwise_sum].
      destruct (length xs <? 8)%nat eqn:E8; [reflexivity|].
      destruct (length xs <=? 128)%nat eqn:E128; [reflexivity|].
      apply Nat.leb_gt in E128.
      assert (Hdiv : (length xs / 2 <= length xs)%nat)
        by (apply Nat.Div0.div_le_upper_bound; lia).
      assert (Hhalf : (64 <= length xs / 2)%nat)
        by (apply Nat.div_le_lower_bound; lia).
      assert (Hmod : ((length xs / 2) mod 8 < 8)%nat)
        by (apply Nat.mod_upper_bound; lia).
      assert (Hlt : (length xs / 2 < length xs)%nat)
        by (apply Nat.div_lt; lia).
      f_equal; apply IH; rewrite ?length_firstn, ?length_skipn; lia.
Qed.

Lemma summarize_group_Ok (k : Z) (vals : list value) (b : bucket) :
  summarize_group minus_zero k vals = Ok b ->
  exists xs, apply amount_of vals = Ok xs /\ YearMonth b = k /\ sums_of minus_zero b xs.
Proof.
  unfold summarize_group. destruct (apply amount_of vals) as [xs|e]; simpl;
    intros H; try discriminate.
  injection H as <-. exists xs. repeat split.
Qed.

Lemma summarized_groups (periods amounts : list value) (keys : list Z) :
  forall bs,
  Forall2 (fun k b => summarize_group minus_zero k (group_amounts k periods amounts) = Ok b)
          keys bs ->
  map YearMonth bs = keys /\
  exists groups,
    Forall2 (fun b xs =>
               apply amount_of (group_amounts (YearMonth b) periods amounts) = Ok xs
               /\ sums_of minus_zero b xs) bs groups.
Proof.
  induction 1 as [|k b keys bs Hb _ [IHk [groups IH]]].
  - split; [reflexivity|]. exists []. constructor.
  - apply summarize_group_Ok in Hb as (xs & Hxs & Hk & Hsums).
    split; [simpl; congruence|].
    exists (xs :: groups). constructor; auto. now rewrite Hk.
Qed.

(** [january] is what [load_transactions] returns from [january_raw] once
    the dates are parsed day first. *)
Example january_loaded :
  load_transactions (fun _ => january_dates) [] january_raw = Ok january.
Proof. vm_compute. reflexivity. Qed.


End AggregatorFacts.




(** ** Amount texts *)

Section AmountFacts.
Import PyStr PyFloat Amount.

(** *** Character classes *)

Ltac by_cases_on c :=
  destruct c as [[] [] [] [] [] [] [] []]; cbv; intros; congruence.

Lemma digit_not_space c : is_digit c = true -> is_space c = false.
Proof. by_cases_on c. Qed.

Lemma digit_not_c_space c : is_digit c = true -> is_c_space c = false.
Proof. by_cases_on c. Qed.

Lemma digit_plain c :
  is_digit c = true ->
  transform_space c = c /\ eqc c "_" = false /\ eqc c "." = false /\
  eqc c "," = false /\ eqc c "-" = false /\ eqc c "+" = false.
Proof.
  destruct c as [[] [] [] [] [] [] [] []]; cbv; intros; try discriminate;
    repeat split.
Qed.




(** *** Predicates that hold of every character of a text *)

Lemma every_forallb P s : forallb P s = true <-> every P s.
Proof.
  unfold every. rewrite forallb_forall, Forall_forall. reflexivity.
Qed.








(** *** Texts that [float()] rejects *)









(** The two attempts of [parse_german_amount] on a text that is not empty. *)
Lemma parse_german_amount_attempts (s : str) :
  s <> [] ->
  parse_german_amount (Some s) =
  match py_float (primary_text s) with
  | Some val => Ok (if startswith "-" (strip s) then neg val else val)
  | None => fallback s
  end.
Proof. destruct s; [congruence|reflexivity]. Qed.




(** The fallback can return a value: "1,2,3" is read as 123.0, and "0,0,0"
    as 0.0. *)
Example parse_german_amount_fallback_value :
  py_float (primary_text (lit "1,2,3")) = None /\
  parse_german_amount (Some (lit "1,2,3")) = Ok (of_decimal false 123 0) /\
  py_float (primary_text (lit "0,0,0")) = None /\
  parse_german_amount (Some (lit "0,0,0")) = Ok zero.
Proof. repeat split; vm_compute; reflexivity. Qed.

End AmountFacts.

(** ** German amounts *)

Section GermanAmounts.
Import PyStr PyFloat Amount.

Ltac by_cases_on c :=
  destruct c as [[] [] [] [] [] [] [] []]; cbv; intros; congruence.

Lemma body_not_space c : digit_or_dot c = true -> is_space c = false.
Proof. by_cases_on c. Qed.

Lemma body_not_c_space c : digit_or_dot c = true -> is_c_space c = false.
Proof. by_cases_on c. Qed.

Lemma body_not_sign c :
  digit_or_dot c = true -> eqc c "-" = false /\ eqc c "+" = false.
Proof.
  destruct c as [[] [] [] [] [] [] [] []]; cbv; intros; try discriminate;
    split; reflexivity.
Qed.

Lemma body_not_underscore c : digit_or_dot c = true -> eqc c "_" = false.
Proof. by_cases_on c. Qed.

Lemma body_not_comma c : digit_or_dot c = true -> eqc c "," = false.
Proof. by_cases_on c. Qed.

Lemma body_not_transformed c : digit_or_dot c = true -> transform_space c = c.
Proof. by_cases_on c. Qed.

Lemma body_digit_or_dot c :
  digit_or_dot c = true ->
  (is_digit c = true /\ eqc c "." = false) \/ (is_digit c = false /\ eqc c "." = true).
Proof.
  destruct c as [[] [] [] [] [] [] [] []]; cbv; intros; try discriminate;
    (left; split; reflexivity) || (right; split; reflexivity).
Qed.

Lemma digit_is_body c : is_digit c = true -> digit_or_dot c = true.
Proof. unfold digit_or_dot. now intros ->. Qed.

(** *** Stripping *)

Lemma lstrip_blanks ws t : every is_space ws -> lstrip (ws ++ t) = lstrip t.
Proof. induction 1 as [|c ws Hc _ IH]; simpl; auto. now rewrite Hc. Qed.

Lemma lstrip_head s : every (fun c => negb (is_space c)) s -> lstrip s = s.
Proof.
  destruct 1 as [|c s Hc _]; simpl; auto.
  apply negb_true_iff in Hc. now rewrite Hc.
Qed.

Lemma lstrip_all_blanks ws : every is_space ws -> lstrip ws = [].
Proof.
  intros H. rewrite <- (app_nil_r ws). now rewrite lstrip_blanks.
Qed.

Lemma strip_core ws1 core ws2 :
  every is_space ws1 -> every is_space ws2 ->
  every (fun c => negb (is_space c)) core ->
  strip (ws1 ++ core ++ ws2) = core.
Proof.
  intros H1 H2 Hcore. unfold strip, rstrip.
  rewrite lstrip_blanks by assumption.
  destruct core as [|c core'].
  - simpl. rewrite (lstrip_all_blanks ws2) by assumption. reflexivity.
  - assert (Hl : lstrip ((c :: core') ++ ws2) = (c :: core') ++ ws2).
    { inversion Hcore as [|? ? Hc _]; subst. simpl.
      apply negb_true_iff in Hc. now rewrite Hc. }
    rewrite Hl, rev_app_distr.
    rewrite lstrip_blanks by now apply Forall_rev.
    rewrite lstrip_head by now apply Forall_rev.
    apply rev_involutive.
Qed.

(** *** Replacing the separators *)

Lemma replace_app old new a b :
  replace old new (a ++ b) = replace old new a ++ replace old new b.
Proof. unfold replace. apply flat_map_app. Qed.

Lemma replace_dots s : every digit_or_dot s -> replace "." [] s = digits_of s.
Proof.
  induction 1 as [|c s Hc _ IH]; simpl; auto.
  destruct (body_digit_or_dot c Hc) as [[Hd Hp]|[Hd Hp]]; rewrite Hd, Hp; simpl;
    now rewrite IH.
Qed.

Lemma replace_comma_digits s :
  every is_digit s -> replace "," (lit ".") s = s.
Proof.
  unfold replace.
  induction 1 as [|c s Hc _ IH]; cbn [flat_map]; auto.
  rewrite (body_not_comma c (digit_is_body c Hc)). cbn [app]. now rewrite IH.
Qed.

Lemma every_digits_of s : every is_digit (digits_of s).
Proof.
  unfold every, digits_of. apply Forall_forall. intros c Hc.
  now apply filter_In in Hc.
Qed.

(** *** [float()] on a decimal literal *)

Lemma every_body_of_digits s : every is_digit s -> every digit_or_dot s.
Proof. apply Forall_impl. exact digit_is_body. Qed.

Lemma map_transform_body s : every digit_or_dot s -> map transform_space s = s.
Proof.
  induction 1 as [|c s Hc _ IH]; simpl; auto.
  now rewrite (body_not_transformed c Hc), IH.
Qed.

Lemma drop_underscores_body s : forall prev,
  every digit_or_dot s -> eqc prev "_" = false ->
  drop_underscores prev s = Some s.
Proof.
  induction s as [|c s IH]; intros prev Hs Hprev; simpl.
  - now rewrite Hprev.
  - inversion Hs as [|? ? Hc Hs']; subst.
    pose proof (body_not_underscore c Hc) as Hu.
    rewrite Hu, Hprev. simpl. now rewrite IH.
Qed.

Lemma lstrip_c_head s :
  every (fun c => negb (is_c_space c)) s -> lstrip_c s = s.
Proof.
  destruct 1 as [|c s Hc _]; simpl; auto.
  apply negb_true_iff in Hc. now rewrite Hc.
Qed.

Lemma strip_c_body s : every digit_or_dot s -> strip_c s = s.
Proof.
  intros Hs. unfold strip_c.
  assert (Hn : every (fun c => negb (is_c_space c)) s).
  { revert Hs. apply Forall_impl. intros c Hc.
    apply negb_true_iff. now apply body_not_c_space. }
  rewrite (lstrip_c_head s) by assumption.
  rewrite lstrip_c_head by now apply Forall_rev.
  apply rev_involutive.
Qed.

Lemma take_sign_body s : every digit_or_dot s -> take_sign s = (false, s).
Proof.
  destruct 1 as [|c s Hc _]; simpl; auto.
  destruct (body_not_sign c Hc) as [-> ->]. reflexivity.
Qed.

Lemma span_digits_app ds r :
  every is_digit ds -> span_digits r = ([], r) ->
  span_digits (ds ++ r) = (ds, r).
Proof.
  intros Hds Hr. induction Hds as [|c ds Hc _ IH]; simpl; auto.
  now rewrite Hc, IH.
Qed.

Lemma span_digits_all ds : every is_digit ds -> span_digits ds = (ds, []).
Proof.
  intros Hds. rewrite <- (app_nil_r ds) at 1.
  now apply span_digits_app.
Qed.

Lemma strtod_decimal ip fp :
  every is_digit ip -> every is_digit fp -> ip ++ fp <> [] ->
  strtod (ip ++ "."%char :: fp) =
  Some (of_decimal false (digits_val (ip ++ fp)) (- Z.of_nat (length fp)), []).
Proof.
  intros Hip Hfp Hne. unfold strtod.
  rewrite take_sign_body.
  2:{ apply Forall_app. split; [now apply every_body_of_digits|].
      constructor; [reflexivity | now apply every_body_of_digits]. }
  rewrite (span_digits_app ip ("."%char :: fp)) by (auto; reflexivity).
  change (eqc "." ".") with true. cbv iota.
  rewrite (span_digits_all fp) by assumption.
  destruct (ip ++ fp) as [|d ds] eqn:E; [congruence|].
  reflexivity.
Qed.

Lemma strtod_integer ip :
  every is_digit ip -> ip <> [] ->
  strtod ip = Some (of_decimal false (digits_val ip) 0, []).
Proof.
  intros Hip Hne. unfold strtod.
  rewrite take_sign_body by now apply every_body_of_digits.
  rewrite (span_digits_all ip) by assumption.
  rewrite app_nil_r.
  destruct ip as [|d ds]; [congruence|].
  reflexivity.
Qed.

Lemma py_float_body s x :
  every digit_or_dot s -> strtod s = Some (x, []) -> py_float s = Some x.
Proof.
  intros Hs Hx. unfold py_float.
  rewrite map_transform_body by assumption.
  rewrite drop_underscores_body by (auto; reflexivity).
  rewrite strip_c_body by assumption.
  now rewrite Hx.
Qed.

(** *** The amount of a German text *)

Lemma primary_text_german ws1 minus ip comma fp ws2 :
  every is_space ws1 -> every is_space ws2 ->
  every digit_or_dot ip -> every digit_or_dot fp ->
  startswith "-" (strip (german_text ws1 minus ip comma fp ws2)) = minus /\
  primary_text (german_text ws1 minus ip comma fp ws2) =
  digits_of ip ++ (if comma then "."%char :: digits_of fp else []).
Proof.
  intros H1 H2 Hip Hfp.
  set (body := ip ++ (if comma then ","%char :: fp else [])).
  set (core := (if minus then ["-"%char] else []) ++ body).
  assert (Htext : german_text ws1 minus ip comma fp ws2 = ws1 ++ core ++ ws2).
  { unfold german_text, core, body. now rewrite <- !app_assoc. }
  assert (Hbody : every (fun c => negb (is_space c)) body).
  { unfold body. apply Forall_app. split.
    - revert Hip. apply Forall_impl. intros c Hc.
      apply negb_true_iff. now apply body_not_space.
    - destruct comma; constructor; [reflexivity|].
      revert Hfp. apply Forall_impl. intros c Hc.
      apply negb_true_iff. now apply body_not_space. }
  assert (Hcore : every (fun c => negb (is_space c)) core).
  { unfold core. destruct minus; simpl; auto. constructor; auto. }
  assert (Hstrip : strip (german_text ws1 minus ip comma fp ws2) = core).
  { rewrite Htext. now apply strip_core. }
  assert (Hstart : startswith "-" core = minus).
  { unfold core. destruct minus; [reflexivity|]. simpl.
    unfold body. destruct Hip as [|c ip' Hc _]; simpl.
    - destruct comma; reflexivity.
    - apply (body_not_sign c Hc). }
  assert (Htl : (if minus then tl core else core) = body).
  { unfold core. destruct minus; reflexivity. }
  unfold primary_text. rewrite Hstrip, Hstart, Htl.
  split; [reflexivity|].
  unfold body. rewrite replace_app, (replace_dots ip Hip).
  rewrite replace_app.
  rewrite (replace_comma_digits (digits_of ip)) by apply every_digits_of.
  f_equal. destruct comma; [|reflexivity].
  change (replace "." [] (","%char :: fp)) with (","%char :: replace "." [] fp).
  rewrite (replace_dots fp Hfp).
  change (replace "," (lit ".") (","%char :: digits_of fp))
    with ("."%char :: replace "," (lit ".") (digits_of fp)).
  now rewrite replace_comma_digits by apply every_digits_of.
Qed.

Lemma german_text_not_empty ws1 minus ip comma fp ws2 :
  (comma = false -> fp = []) ->
  digits_of ip ++ digits_of fp <> [] ->
  german_text ws1 minus ip comma fp ws2 <> [].
Proof.
  intros Hcomma Hdigits Hnil. unfold german_text in Hnil.
  apply app_eq_nil in Hnil as [_ Hnil].
  apply app_eq_nil in Hnil as [_ Hnil].
  apply app_eq_nil in Hnil as [Hip Hnil].
  apply app_eq_nil in Hnil as [Hc _].
  destruct comma; [discriminate|].
  apply Hdigits. rewrite Hip, (Hcomma eq_refl). reflexivity.
Qed.

Lemma py_float_german ip fp comma :
  (comma = false -> fp = []) ->
  digits_of ip ++ digits_of fp <> [] ->
  py_float (digits_of ip ++ (if comma then "."%char :: digits_of fp else [])) =
  Some (german_value ip fp).
Proof.
  intros Hcomma Hdigits. unfold german_value.
  pose proof (every_digits_of ip) as Hi.
  pose proof (every_digits_of fp) as Hf.
  destruct comma.
  - apply py_float_body.
    + apply Forall_app. split; [now apply every_body_of_digits|].
      constructor; [reflexivity | now apply every_body_of_digits].
    + now apply strtod_decimal.
  - rewrite (Hcomma eq_refl) in *. cbn [digits_of filter length Z.of_nat Z.opp] in *.
    rewrite app_nil_r in *.
    apply py_float_body.
    + now apply every_body_of_digits.
    + now apply strtod_integer.
Qed.

(** C2. On every text made of blanks, an optional minus sign, a body of
    digits and dots, optionally a comma and a second body of digits and dots,
    and blanks, with at least one digit, [parse_german_amount] returns the
    binary64 value nearest to the decimal number whose digits are those of
    the first body followed, after the decimal point, by those of the second,
    negated when the minus sign is there.  A missing and an empty amount give
    0.0, and "-45,90" gives -45.9 (the float -6459850715509555 * 2^-47). *)
Theorem parse_german_amount_spec (ws1 ws2 ip fp : str) (minus comma : bool) :
  forallb is_space ws1 = true ->
  forallb is_space ws2 = true ->
  forallb digit_or_dot ip = true ->
  forallb digit_or_dot fp = true ->
  (comma = false -> fp = []) ->
  digits_of ip ++ digits_of fp <> [] ->
  parse_german_amount (Some (german_text ws1 minus ip comma fp ws2)) =
    Ok (if minus then neg (german_value ip fp) else german_value ip fp)
  /\ parse_german_amount None = Ok zero
  /\ parse_german_amount (Some []) = Ok zero
  /\ parse_german_amount (Some (lit "-45,90")) =
       Ok (S754_finite true 6459850715509555 (-47)).
Proof.
  intros H1 H2 Hip Hfp Hcomma Hdigits.
  apply every_forallb in H1, H2, Hip, Hfp.
  split; [|repeat split].
  rewrite parse_german_amount_attempts
    by now apply german_text_not_empty.
  destruct (primary_text_german ws1 minus ip comma fp ws2 H1 H2 Hip Hfp)
    as [-> ->].
  now rewrite py_float_german.
Qed.

Lemma parse_german_amount_spec_witness :
  parse_german_amount
    (Some (german_text (lit "  ") true (lit "1.234") true (lit "56") (lit " "))) =
    Ok (neg (german_value (lit "1.234") (lit "56")))
  /\ parse_german_amount None = Ok zero
  /\ parse_german_amount (Some []) = Ok zero
  /\ parse_german_amount (Some (lit "-45,90")) =
       Ok (S754_finite true 6459850715509555 (-47)).
Proof.
  apply (parse_german_amount_spec (lit "  ") (lit " ") (lit "1.234") (lit "56") true true).
  - reflexivity.
  - reflexivity.
  - reflexivity.
  - reflexivity.
  - discriminate.
  - discriminate.
Defined.

(** The value of the witness: " -1.234,56 " is -1234.56. *)
Example german_value_1234_56 :
  german_text (lit "  ") true (lit "1.234") true (lit "56") (lit " ") = lit "  -1.234,56 "
  /\ neg (german_value (lit "1.234") (lit "56")) = of_decimal true 123456 (-2)
  /\ of_decimal true 123456 (-2) = S754_finite true 5429652300748554 (-42).
Proof. repeat split; vm_compute; reflexivity. Qed.

End GermanAmounts.

(** * Further properties *)

(** ** The annotation store, continued *)

Section StoreMore.
Import PyStr Store Shape Api.

Lemma reader_get_absent (fieldnames : list str) (key : str) : forall row,
  ~ In key fieldnames -> reader_get fieldnames row key = None.
Proof.
  induction fieldnames as [|name names IH]; intros row Hnin; simpl; auto.
  rewrite IH by (intros H; apply Hnin; now right).
  destruct (PyStr.eqb name key) eqn:E; auto.
  apply str_eqb_true in E. exfalso. apply Hnin. now left.
Qed.

Lemma read_rows_without_hash (fieldnames : list str) (data : table) : forall d,
  ~ In (lit "transaction_hash") fieldnames ->
  forallb (forallb storable) data = true ->
  read_rows fieldnames data d =
  if forallb is_blank data then Ok d
  else Raise (KeyError (lit "transaction_hash")).
Proof.
  intros d Hnin Hdata. induction data as [|row data IH]; [reflexivity|].
  cbn [forallb] in Hdata. apply andb_true_iff in Hdata as [Hrow Hdata].
  rewrite read_rows_cons, (read_row_storable row Hrow).
  destruct row as [|x row]; [exact (IH Hdata)|].
  cbn [map forallb is_blank andb].
  now rewrite reader_get_absent.
Qed.

(** X1. When the header of the annotation file has no [transaction_hash]
    column and every field of the file is one that the reader takes (no
    NUL, at most 131072 characters once its newlines are translated),
    loading succeeds with the empty mapping if every line after the header
    is blank and raises [KeyError] as soon as there is a data line; in that
    case [save_annotation] raises too, whatever it is asked to save, and
    leaves the file as it was. *)
Theorem load_annotations_without_hash_column
  (fieldnames : list str) (data : table) :
  ~ In (lit "transaction_hash") (map universal_newlines fieldnames) ->
  forallb (forallb storable) (fieldnames :: data) = true ->
  load_annotations (Some (fieldnames :: data)) =
    (if forallb is_blank data then Ok []
     else Raise (KeyError (lit "transaction_hash")))
  /\
  (forallb is_blank data = false ->
   forall h c m,
     save_annotation h c m (Some (fieldnames :: data)) =
     Raised (KeyError (lit "transaction_hash")) (Some (fieldnames :: data))).
Proof.
  intros Hnin Hst.
  cbn [forallb] in Hst. apply andb_true_iff in Hst as [Hnames Hdata].
  assert (Hload : load_annotations (Some (fieldnames :: data)) =
                  if forallb is_blank data then Ok []
                  else Raise (KeyError (lit "transaction_hash"))).
  { unfold load_annotations.
    rewrite (read_row_storable fieldnames Hnames). cbn [bind].
    now apply read_rows_without_hash. }
  split; [exact Hload|].
  intros Hblank h c m. unfold save_annotation.
  rewrite Hload, Hblank. reflexivity.
Qed.

Lemma load_annotations_without_hash_column_witness :
  load_annotations (Some ([lit "hash"; lit "category"; lit "comment"]
                            :: [[]; [lit "abc123"; lit "Food"; []]])) =
    Raise (KeyError (lit "transaction_hash"))
  /\
  forall h c m,
    save_annotation h c m
      (Some ([lit "hash"; lit "category"; lit "comment"]
               :: [[]; [lit "abc123"; lit "Food"; []]])) =
    Raised (KeyError (lit "transaction_hash"))
      (Some ([lit "hash"; lit "category"; lit "comment"]
               :: [[]; [lit "abc123"; lit "Food"; []]])).
Proof.
  assert (Hnin : ~ In (lit "transaction_hash")
                   (map universal_newlines [lit "hash"; lit "category"; lit "comment"])).
  { intros [H|[H|[H|[]]]]; discriminate. }
  destruct (load_annotations_without_hash_column
              [lit "hash"; lit "category"; lit "comment"]
              [[]; [lit "abc123"; lit "Food"; []]] Hnin eq_refl) as [H1 H2].
  split; [exact H1 | exact (H2 eq_refl)].
Defined.

(** *** What a file without NUL loads as *)

Lemma reader_get_writable (fieldnames : list str) (key : str) : forall row v,
  forallb plain row = true ->
  reader_get fieldnames row key = Some v -> plain_or_absent v = true.
Proof.
  induction fieldnames as [|name names IH]; intros row v Hrow; cbn [reader_get];
    [discriminate|].
  assert (Htl : forallb plain (tl row) = true).
  { destruct row as [|x row]; [reflexivity|].
    cbn [forallb] in Hrow. apply andb_true_iff in Hrow. tauto. }
  destruct (reader_get names (tl row) key) as [w|] eqn:E.
  - intros H. injection H as <-. exact (IH _ _ Htl E).
  - destruct (PyStr.eqb name key); [|discriminate].
    intros H. injection H as <-.
    destruct row as [|x row]; [reflexivity|].
    cbn [forallb] in Hrow. apply andb_true_iff in Hrow.
    cbn [hd_error option_map plain_or_absent]. tauto.
Qed.

Lemma row_get_writable (fieldnames row : list str) (key : str) :
  forallb plain row = true ->
  plain_or_absent (row_get fieldnames row key (Some (Plain []))) = true.
Proof.
  intros Hrow. unfold row_get.
  destruct (reader_get fieldnames row key) as [v|] eqn:E; [|reflexivity].
  exact (reader_get_writable _ _ _ _ Hrow E).
Qed.

Lemma read_row_plain_fields (line row : list str) :
  forallb no_nul line = true -> read_row line = Ok row ->
  forallb plain row = true.
Proof.
  unfold read_row. cbv zeta.
  destruct (forallb within_limit (map universal_newlines line)) eqn:E;
    [|discriminate].
  intros Hn H. injection H as <-.
  rewrite forallb_forall in E, Hn.
  apply forallb_forall. intros x Hx.
  pose proof (E x Hx) as Hl.
  apply in_map_iff in Hx as (y & <- & Hy).
  unfold plain.
  now rewrite no_cr_universal_newlines, no_nul_universal_newlines, Hl by auto.
Qed.

Lemma read_rows_writable (fieldnames : list str) (data : table) : forall d d',
  forallb (forallb no_nul) data = true ->
  Forall writable d ->
  read_rows fieldnames data d = Ok d' -> Forall writable d'.
Proof.
  induction data as [|line data IH]; intros d d' Hn Hd.
  - intros H. injection H as <-. exact Hd.
  - cbn [forallb] in Hn. apply andb_true_iff in Hn as [Hline Hdata].
    rewrite read_rows_cons.
    destruct (read_row line) as [row|] eqn:Erow; [|discriminate].
    pose proof (read_row_plain_fields line row Hline Erow) as Hrow.
    destruct row as [|x row]; [now apply IH|].
    destruct (reader_get fieldnames (x :: row) (lit "transaction_hash"))
      as [k|] eqn:Ek; [|discriminate].
    apply IH; [assumption|].
    apply Forall_dict_set; [|assumption].
    intros k' ->. repeat split; cbn [fst snd category comment].
    + exact (reader_get_writable _ _ _ _ Hrow Ek).
    + now apply row_get_writable.
    + now apply row_get_writable.
Qed.

Lemma load_writable (f : file) (d : annotations) :
  nul_free f = true -> load_annotations f = Ok d -> Forall writable d.
Proof.
  destruct f as [[|first data]|]; cbn [nul_free load_annotations].
  - intros _ H. injection H as <-. constructor.
  - cbn [forallb]. intros Hn. apply andb_true_iff in Hn as [_ Hdata].
    destruct (read_row first) as [fieldnames|]; cbn [bind]; [|discriminate].
    now apply read_rows_writable.
  - intros _ H. injection H as <-. constructor.
Qed.

(** X2. Whatever file without a NUL character [save_annotation] starts
    from, when it returns from saving plain texts (no carriage return, no
    NUL, at most 131072 characters, encodable; the category and the comment
    may also be not provided), the file it leaves is in the store's own
    format, and from then on no [save_annotation] of such texts raises. *)
Theorem save_annotation_leaves_store_format
  (h : str) (c m : pyval) (f f' : file) :
  nul_free f = true ->
  plain h = true ->
  plain_or_absent c = true ->
  plain_or_absent m = true ->
  save_annotation (Plain h) c m f = Done f' ->
  wf_store f' = true /\
  forall h' c' m',
    plain h' = true -> plain_or_absent c' = true -> plain_or_absent m' = true ->
    exists f'', save_annotation (Plain h') c' m' f' = Done f'' /\
                wf_store f'' = true.
Proof.
  intros Hn Hh Hc Hm. unfold save_annotation.
  destruct (load_annotations f) as [d|e] eqn:Hload; [|discriminate].
  assert (Hw : Forall writable (upsert (Plain h) c m d)).
  { apply writable_upsert; auto. now apply (load_writable f). }
  rewrite (write_rows_writable _ Hw). intros H. injection H as <-.
  assert (Hwf : wf_store (Some (header :: map fields_of (upsert (Plain h) c m d))) = true)
    by exact (wf_stored _ Hw).
  split; [exact Hwf|].
  intros h' c' m' Hh' Hc' Hm'.
  destruct (save_annotation_ok h' c' m' _ Hwf Hh' Hc' Hm')
    as (d' & _ & _ & _ & Hsave & Hwf' & _).
  eexists. split; [exact Hsave | exact Hwf'].
Qed.

Lemma save_annotation_leaves_store_format_witness :
  wf_store (Some [header; [lit "h1"; lit "Food"; []]]) = true /\
  forall h' c' m',
    plain h' = true -> plain_or_absent c' = true -> plain_or_absent m' = true ->
    exists f'',
      save_annotation (Plain h') c' m' (Some [header; [lit "h1"; lit "Food"; []]]) = Done f'' /\
      wf_store f'' = true.
Proof.
  apply (save_annotation_leaves_store_format (lit "h1") (Some (Plain (lit "Food"))) None
           (Some [[lit "transaction_hash"]; [lit "h1"]]));
    reflexivity.
Defined.

Lemma keys_upsert h c m d :
  map fst (upsert h c m d) =
  map fst d ++ (if dict_mem (Some h) d then [] else [Some h]).
Proof.
  unfold upsert. cbv zeta.
  destruct c, m; rewrite ?keys_dict_update;
    destruct (dict_mem (Some h) d) eqn:E;
    rewrite ?app_nil_r; try reflexivity;
    rewrite keys_dict_set, E; reflexivity.
Qed.

(** X3. On a store file in the store's own format, [save_annotation] of
    plain texts (no carriage return, no NUL, at most 131072 characters,
    encodable; the category and the comment may also be not provided) never
    removes and never reorders entries: the hashes of the store after the
    call are those before it, in the same order, followed by the hash of
    the call when it is new. *)
Theorem save_annotation_keeps_keys (h : str) (c m : pyval) (f : file) :
  wf_store f = true ->
  plain h = true ->
  plain_or_absent c = true ->
  plain_or_absent m = true ->
  exists d f' d',
    load_annotations f = Ok d /\
    save_annotation (Plain h) c m f = Done f' /\
    load_annotations f' = Ok d' /\
    map fst d' =
      map fst d ++ (if dict_mem (Some (Plain h)) d then [] else [Some (Plain h)]).
Proof.
  intros Hwf Hh Hc Hm.
  destruct (save_annotation_ok h c m f Hwf Hh Hc Hm)
    as (d & Hload & _ & _ & Hsave & _ & Hback).
  exists d, (stored (upsert (Plain h) c m d)), (upsert (Plain h) c m d).
  split; [assumption|]. split; [assumption|]. split; [assumption|].
  apply keys_upsert.
Qed.

Lemma save_annotation_keeps_keys_witness :
  exists d f' d',
    load_annotations (Some [header; [lit "h2"; lit "Rent"; []]; [lit "h1"; []; lit "gift"]]) = Ok d /\
    save_annotation (Plain (lit "h1")) (Some (Plain (lit "Food"))) None
      (Some [header; [lit "h2"; lit "Rent"; []]; [lit "h1"; []; lit "gift"]]) = Done f' /\
    load_annotations f' = Ok d' /\
    map fst d' =
      map fst d ++ (if dict_mem (Some (Plain (lit "h1"))) d then []
                    else [Some (Plain (lit "h1"))]).
Proof.
  apply (save_annotation_keeps_keys (lit "h1") (Some (Plain (lit "Food"))) None
           (Some [header; [lit "h2"; lit "Rent"; []]; [lit "h1"; []; lit "gift"]]));
    reflexivity.
Defined.

Lemma read_rows_app (fieldnames : list str) (a b : table) : forall d,
  read_rows fieldnames (a ++ b) d =
  match read_rows fieldnames a d with
  | Ok d' => read_rows fieldnames b d'
  | Raise e => Raise e
  end.
Proof.
  induction a as [|line a IH]; intros d; [reflexivity|].
  cbn [app]. rewrite !read_rows_cons.
  destruct (read_row line) as [[|x row]|]; auto.
  destruct (reader_get fieldnames (x :: row) (lit "transaction_hash")); auto.
Qed.

(** X4. When a hash occurs on several lines of the annotation file, the
    last line decides: a file in the store's own format that ends with the
    line [h, c, m], three fields that the reader takes (no NUL, at most
    131072 characters once the newlines are translated), loads with [c] and
    [m] as the annotation of [h], each with its newlines translated,
    whatever the lines before it say. *)
Theorem load_annotations_last_row_wins (data : table) (h c m : str) :
  wf_store (Some (header :: data ++ [[h; c; m]])) = true ->
  exists d,
    load_annotations (Some (header :: data ++ [[h; c; m]])) = Ok d /\
    dict_get (Some (Plain (universal_newlines h))) d =
      Some {| category := Some (Plain (universal_newlines c));
              comment := Some (Plain (universal_newlines m)) |}.
Proof.
  intros Hwf. cbn [wf_store] in Hwf.
  apply andb_true_iff in Hwf as [_ Hrows].
  rewrite forallb_app in Hrows. apply andb_true_iff in Hrows as [Hdata Hlast].
  cbn [forallb] in Hlast. rewrite !andb_true_iff in Hlast.
  destruct Hlast as ((_ & Hst) & _).
  destruct (read_rows_wf data [] Hdata dict_ok_nil) as (d0 & Hd0 & _).
  eexists. split.
  - unfold load_annotations. rewrite read_row_header. cbn [bind].
    rewrite read_rows_app, Hd0.
    rewrite (read_rows_store [h; c; m] (universal_newlines h)
               (universal_newlines c) (universal_newlines m) [] d0).
    + reflexivity.
    + apply read_row_storable. cbn [forallb].
      rewrite !andb_true_iff. tauto.
  - apply dict_get_set_same.
Qed.

Lemma load_annotations_last_row_wins_witness :
  exists d,
    load_annotations
      (Some (header :: [[lit "h1"; lit "Food"; lit "old"]; [lit "h2"; []; []]]
                    ++ [[lit "h1"; lit "Rent"; lit "new"]])) = Ok d /\
    dict_get (Some (Plain (universal_newlines (lit "h1")))) d =
      Some {| category := Some (Plain (universal_newlines (lit "Rent")));
              comment := Some (Plain (universal_newlines (lit "new"))) |}.
Proof.
  apply (load_annotations_last_row_wins
           [[lit "h1"; lit "Food"; lit "old"]; [lit "h2"; []; []]]
           (lit "h1") (lit "Rent") (lit "new")).
  reflexivity.
Defined.

(** *** Upserts as updates *)

Lemma dict_update_compose k f g d :
  dict_update k f (dict_update k g d) = dict_update k (fun a => f (g a)) d.
Proof.
  induction d as [|[k' a] d IH]; simpl; auto.
  destruct (pyval_eqb k' k) eqn:E; simpl; rewrite E; auto.
  now rewrite IH.
Qed.

Lemma dict_update_ext k f g d :
  (forall a, f a = g a) -> dict_update k f d = dict_update k g d.
Proof.
  intros Hfg. induction d as [|[k' a] d IH]; simpl; auto.
  destruct (pyval_eqb k' k); [now rewrite Hfg | now rewrite IH].
Qed.

Lemma dict_update_id k f d : (forall a, f a = a) -> dict_update k f d = d.
Proof.
  intros Hf. induction d as [|[k' a] d IH]; simpl; auto.
  destruct (pyval_eqb k' k); [now rewrite Hf | now rewrite IH].
Qed.

Lemma upsert_as_update h c m d :
  upsert h c m d = dict_update (Some h) (assign c m) (base h d).
Proof.
  unfold upsert. cbv zeta. fold (base h d).
  destruct c as [c|], m as [m|].
  - rewrite dict_update_compose. now apply dict_update_ext.
  - now apply dict_update_ext.
  - now apply dict_update_ext.
  - symmetry. apply dict_update_id. now intros [c m].
Qed.

Lemma dict_mem_upsert h c m d : dict_mem (Some h) (upsert h c m d) = true.
Proof. unfold dict_mem. now rewrite dict_get_upsert_same. Qed.

(** Two upserts for one hash are one upsert, the later value of each field
    winning. *)
Lemma upsert_upsert h c1 m1 c2 m2 d :
  upsert h c2 m2 (upsert h c1 m1 d) = upsert h (later c2 c1) (later m2 m1) d.
Proof.
  rewrite (upsert_as_update h c2 m2). unfold base.
  rewrite dict_mem_upsert. rewrite !(upsert_as_update h _ _ d).
  rewrite dict_update_compose. apply dict_update_ext.
  intros a. destruct c1, m1, c2, m2; reflexivity.
Qed.

Lemma later_plain (a b : pyval) :
  plain_or_absent a = true -> plain_or_absent b = true ->
  plain_or_absent (later a b) = true.
Proof. destruct a; simpl; auto. Qed.

(** X5. On a store file in the store's own format, [set_comment] with a
    hash that is a plain text (no carriage return, no NUL, at most 131072
    characters, encodable) and not empty, and with no comment, succeeds and
    still writes the store: an entry with empty category and comment is
    created when the hash has none, and a store that has the hash loads as
    before. *)
Theorem set_comment_without_comment (h : str) (f : file) :
  wf_store f = true ->
  plain h = true ->
  h <> [] ->
  exists d f',
    load_annotations f = Ok d /\
    set_comment (Json (Some (Plain h)) None) f = (Success (Plain h) None, f') /\
    load_annotations f' =
      Ok (if dict_mem (Some (Plain h)) d then d
          else d ++ [(Some (Plain h),
                      {| category := Some (Plain []); comment := Some (Plain []) |})]).
Proof.
  intros Hwf Hh Hne.
  destruct (save_annotation_ok h None None f Hwf Hh eq_refl eq_refl) as
    (d & Hload & Hd & _ & Hsave & _ & Hback).
  exists d, (stored (upsert (Plain h) None None d)).
  split; [assumption|]. split.
  - unfold set_comment, try_set_comment.
    destruct h as [|x h]; [congruence|]. cbn [falsy]. now rewrite Hsave.
  - rewrite Hback. f_equal. unfold upsert, dict_mem. cbv zeta.
    destruct (dict_get (Some (Plain h)) d) eqn:E; [reflexivity|].
    apply dict_set_fresh. now apply dict_get_None_notin.
Qed.

Lemma set_comment_without_comment_witness :
  exists d f',
    load_annotations (Some [header; [lit "h2"; lit "Rent"; []]]) = Ok d /\
    set_comment (Json (Some (Plain (lit "abc123"))) None)
      (Some [header; [lit "h2"; lit "Rent"; []]]) =
      (Success (Plain (lit "abc123")) None, f') /\
    load_annotations f' =
      Ok (if dict_mem (Some (Plain (lit "abc123"))) d then d
          else d ++ [(Some (Plain (lit "abc123")),
                      {| category := Some (Plain []); comment := Some (Plain []) |})]).
Proof.
  apply (set_comment_without_comment (lit "abc123")
           (Some [header; [lit "h2"; lit "Rent"; []]])).
  - reflexivity.
  - reflexivity.
  - discriminate.
Defined.

(** X6. On a store file in the store's own format, saves of plain texts (no
    carriage return, no NUL, at most 131072 characters, encodable; a
    category or a comment may also be not provided) for two different
    hashes commute: in either order they return and leave stores in which
    every hash has the same annotation. *)
Theorem save_annotation_commutes (h1 h2 : str) (c1 m1 c2 m2 : pyval) (f : file) :
  wf_store f = true ->
  plain h1 = true -> plain h2 = true -> h1 <> h2 ->
  plain_or_absent c1 = true -> plain_or_absent m1 = true ->
  plain_or_absent c2 = true -> plain_or_absent m2 = true ->
  exists fa fab fb fba dab dba,
    save_annotation (Plain h1) c1 m1 f = Done fa /\
    save_annotation (Plain h2) c2 m2 fa = Done fab /\
    save_annotation (Plain h2) c2 m2 f = Done fb /\
    save_annotation (Plain h1) c1 m1 fb = Done fba /\
    load_annotations fab = Ok dab /\
    load_annotations fba = Ok dba /\
    forall k, dict_get k dab = dict_get k dba.
Proof.
  intros Hwf Hh1 Hh2 Hne Hc1 Hm1 Hc2 Hm2.
  destruct (save_annotation_ok h1 c1 m1 f Hwf Hh1 Hc1 Hm1)
    as (d & Hload & Hd & _ & Hsa & Hwfa & Hla).
  destruct (save_annotation_ok h2 c2 m2 f Hwf Hh2 Hc2 Hm2)
    as (d' & Hload' & _ & _ & Hsb & Hwfb & Hlb).
  assert (d' = d) by congruence. subst d'.
  destruct (save_annotation_ok h2 c2 m2 _ Hwfa Hh2 Hc2 Hm2)
    as (da & Hlda & _ & _ & Hsab & _ & Hlab).
  assert (da = upsert (Plain h1) c1 m1 d) by congruence. subst da.
  destruct (save_annotation_ok h1 c1 m1 _ Hwfb Hh1 Hc1 Hm1)
    as (db & Hldb & _ & _ & Hsba & _ & Hlba).
  assert (db = upsert (Plain h2) c2 m2 d) by congruence. subst db.
  do 6 eexists.
  split; [exact Hsa|]. split; [exact Hsab|]. split; [exact Hsb|].
  split; [exact Hsba|]. split; [exact Hlab|]. split; [exact Hlba|].
  intros k.
  destruct (pyval_eqb k (Some (Plain h1))) eqn:E1.
  - apply pyval_eqb_true in E1. subst k.
    rewrite dict_get_upsert_other by congruence.
    rewrite !dict_get_upsert_same.
    now rewrite dict_get_upsert_other by congruence.
  - apply pyval_eqb_false in E1.
    rewrite (dict_get_upsert_other (Plain h1) k) by assumption.
    destruct (pyval_eqb k (Some (Plain h2))) eqn:E2.
    + apply pyval_eqb_true in E2. subst k.
      rewrite !dict_get_upsert_same.
      now rewrite dict_get_upsert_other by congruence.
    + apply pyval_eqb_false in E2.
      now rewrite !dict_get_upsert_other by assumption.
Qed.

Lemma save_annotation_commutes_witness :
  exists fa fab fb fba dab dba,
    save_annotation (Plain (lit "h1")) (Some (Plain (lit "Food"))) None None = Done fa /\
    save_annotation (Plain (lit "h2")) None (Some (Plain (lit "gift"))) fa = Done fab /\
    save_annotation (Plain (lit "h2")) None (Some (Plain (lit "gift"))) None = Done fb /\
    save_annotation (Plain (lit "h1")) (Some (Plain (lit "Food"))) None fb = Done fba /\
    load_annotations fab = Ok dab /\
    load_annotations fba = Ok dba /\
    forall k, dict_get k dab = dict_get k dba.
Proof.
  apply (save_annotation_commutes (lit "h1") (lit "h2")
           (Some (Plain (lit "Food"))) None None (Some (Plain (lit "gift"))) None).
  - reflexivity.
  - reflexivity.
  - reflexivity.
  - discriminate.
  - reflexivity.
  - reflexivity.
  - reflexivity.
  - reflexivity.
Defined.

(** X7. On a store file in the store's own format, two saves of plain
    texts (no carriage return, no NUL, at most 131072 characters,
    encodable; a category or a comment may also be not provided) for one
    hash compose into one: saving [c1, m1] and then [c2, m2] leaves the
    same file as one save in which each field has its later value when that
    is provided and its first one otherwise.  So the last category saved
    wins, and a category and a comment can be saved in either order. *)
Theorem save_annotation_composes (h : str) (c1 m1 c2 m2 : pyval) (f : file) :
  wf_store f = true ->
  plain h = true ->
  plain_or_absent c1 = true -> plain_or_absent m1 = true ->
  plain_or_absent c2 = true -> plain_or_absent m2 = true ->
  exists f1 f2,
    save_annotation (Plain h) c1 m1 f = Done f1 /\
    save_annotation (Plain h) c2 m2 f1 = Done f2 /\
    save_annotation (Plain h) (later c2 c1) (later m2 m1) f = Done f2.
Proof.
  intros Hwf Hh Hc1 Hm1 Hc2 Hm2.
  destruct (save_annotation_ok h c1 m1 f Hwf Hh Hc1 Hm1)
    as (d & Hload & Hd & _ & Hs1 & Hwf1 & Hl1).
  destruct (save_annotation_ok h c2 m2 _ Hwf1 Hh Hc2 Hm2)
    as (d1 & Hld1 & _ & _ & Hs2 & _ & _).
  assert (d1 = upsert (Plain h) c1 m1 d) by congruence. subst d1.
  destruct (save_annotation_ok h (later c2 c1) (later m2 m1) f Hwf Hh
              (later_plain _ _ Hc2 Hc1) (later_plain _ _ Hm2 Hm1))
    as (d0 & Hld0 & _ & _ & Hs3 & _ & _).
  assert (d0 = d) by congruence. subst d0.
  do 2 eexists. split; [exact Hs1|]. split; [exact Hs2|].
  rewrite Hs3. now rewrite upsert_upsert.
Qed.

Lemma save_annotation_composes_witness :
  exists f1 f2,
    save_annotation (Plain (lit "h1")) (Some (Plain (lit "Food"))) None
      (Some [header; [lit "h1"; lit "Rent"; lit "old"]]) = Done f1 /\
    save_annotation (Plain (lit "h1")) (Some (Plain (lit "Fuel")))
      (Some (Plain (lit "new"))) f1 = Done f2 /\
    save_annotation (Plain (lit "h1"))
      (later (Some (Plain (lit "Fuel"))) (Some (Plain (lit "Food"))))
      (later (Some (Plain (lit "new"))) None)
      (Some [header; [lit "h1"; lit "Rent"; lit "old"]]) = Done f2.
Proof.
  apply (save_annotation_composes (lit "h1")
           (Some (Plain (lit "Food"))) None
           (Some (Plain (lit "Fuel"))) (Some (Plain (lit "new")))
           (Some [header; [lit "h1"; lit "Rent"; lit "old"]]));
    reflexivity.
Defined.

(** *** A save that raises *)

Lemma save_annotation_raised t c m f e f' :
  save_annotation t c m f = Raised e f' -> f' = f \/ e = UnicodeEncodeError.
Proof.
  unfold save_annotation.
  destruct (load_annotations f) as [d|e0].
  - destruct (write_rows (upsert t c m d)) as [rows [e1|]] eqn:E; [|discriminate].
    intros H. injection H as <- _. right. now apply write_rows_raises in E.
  - intros H. injection H as _ <-. now left.
Qed.

(** X8. The annotation endpoints never answer 400: a request that is not
    JSON, that has no hash or, for [set_category], no category, and every
    other failure, is answered with status 500.  The store file is then as
    it was, unless the failure is a [UnicodeEncodeError], which is raised
    while the file is written. *)
Theorem endpoints_answer_500 (req : request) (f : file) :
  (forall status context e f',
     set_category req f = (HTTPError status context e, f') ->
     status = 500 /\ (f' = f \/ e = Exception UnicodeEncodeError)) /\
  (forall status context e f',
     set_comment req f = (HTTPError status context e, f') ->
     status = 500 /\ (f' = f \/ e = Exception UnicodeEncodeError)) /\
  (forall hash category,
     req = Json hash category ->
     falsy hash = true \/ falsy category = true ->
     set_category req f =
     (HTTPError 500 (lit "Error saving category: ")
        (HTTPException 400 (lit "Missing hash or category")), f)) /\
  (forall hash comment,
     req = Json hash comment ->
     falsy hash = true ->
     set_comment req f =
     (HTTPError 500 (lit "Error saving comment: ")
        (HTTPException 400 (lit "Missing hash")), f)).
Proof.
  split; [|split; [|split]].
  - intros status context e f'. unfold set_category, try_set_category.
    destruct req as [|[h|] [c|]];
      try (intros H; injection H as <- _ <- <-; split; [reflexivity | now left]).
    destruct (falsy (Some h) || falsy (Some c));
      [intros H; injection H as <- _ <- <-; split; [reflexivity | now left]|].
    destruct (save_annotation h (Some c) None f) as [f1|e1 f1] eqn:E;
      [discriminate|].
    intros H. injection H as <- _ <- <-. split; [reflexivity|].
    apply save_annotation_raised in E as [->| ->]; [now left | now right].
  - intros status context e f'. unfold set_comment, try_set_comment.
    destruct req as [|[h|] v];
      try (intros H; injection H as <- _ <- <-; split; [reflexivity | now left]).
    destruct (falsy (Some h));
      [intros H; injection H as <- _ <- <-; split; [reflexivity | now left]|].
    destruct (save_annotation h None v f) as [f1|e1 f1] eqn:E;
      [discriminate|].
    intros H. injection H as <- _ <- <-. split; [reflexivity|].
    apply save_annotation_raised in E as [->| ->]; [now left | now right].
  - intros hash category -> H. unfold set_category, try_set_category.
    destruct hash as [h|], category as [c|]; try reflexivity.
    destruct H as [H|H]; rewrite H; [reflexivity|].
    now rewrite orb_true_r.
  - intros hash comment -> H. unfold set_comment, try_set_comment.
    destruct hash as [h|]; [|reflexivity]. now rewrite H.
Qed.

Lemma endpoints_answer_500_witness :
  set_category (Json None (Some (Plain (lit "Food")))) None =
    (HTTPError 500 (lit "Error saving category: ")
       (HTTPException 400 (lit "Missing hash or category")), None) /\
  set_comment (Json (Some (Plain [])) (Some (Plain (lit "gift")))) None =
    (HTTPError 500 (lit "Error saving comment: ")
       (HTTPException 400 (lit "Missing hash")), None).
Proof.
  split.
  - destruct (endpoints_answer_500 (Json None (Some (Plain (lit "Food")))) None)
      as (_ & _ & H & _).
    apply (H None (Some (Plain (lit "Food")))); [reflexivity | now left].
  - destruct (endpoints_answer_500 (Json (Some (Plain [])) (Some (Plain (lit "gift")))) None)
      as (_ & _ & _ & H).
    apply (H (Some (Plain [])) (Some (Plain (lit "gift")))); reflexivity.
Defined.

(** *** A category that cannot be encoded *)

Lemma before_dict_update k f d : before k (dict_update k f d) = before k d.
Proof.
  induction d as [|[k' a] d IH]; simpl; auto.
  destruct (pyval_eqb k' k) eqn:E; simpl; rewrite E; auto.
  now rewrite IH.
Qed.

Lemma before_dict_set k a d : before k (dict_set k a d) = before k d.
Proof.
  induction d as [|[k' a'] d IH]; simpl.
  - now rewrite pyval_eqb_refl.
  - destruct (pyval_eqb k' k) eqn:E; simpl; rewrite E; auto.
    now rewrite IH.
Qed.

Lemma before_upsert h c m d :
  before (Some h) (upsert h c m d) = before (Some h) d.
Proof.
  rewrite upsert_as_update, before_dict_update. unfold base.
  destruct (dict_mem (Some h) d); [reflexivity | apply before_dict_set].
Qed.

Lemma Forall_before (P : pyval * annotation -> Prop) k d :
  Forall P d -> Forall P (before k d).
Proof.
  induction 1 as [|[k' a] d Hx Hd IH]; simpl; auto.
  destruct (pyval_eqb k' k); auto.
Qed.

Lemma keys_before_incl k d x :
  In x (map fst (before k d)) -> In x (map fst d).
Proof.
  induction d as [|[k' a] d IH]; simpl; auto.
  destruct (pyval_eqb k' k); simpl; [tauto|]. intros [H|H]; auto.
Qed.

Lemma NoDup_before k d :
  NoDup (map fst d) -> NoDup (map fst (before k d)).
Proof.
  induction d as [|[k' a] d IH]; simpl; auto.
  intros Hnd. inversion Hnd as [|? ? Hnin Hnd']; subst.
  destruct (pyval_eqb k' k); simpl; [constructor|].
  constructor; auto. intros Hin. apply Hnin. now apply (keys_before_incl k).
Qed.

(** The write stops at the entry of [k] when its category cannot be
    encoded and the entries before it can be written. *)
Lemma write_rows_stops (k : pyval) (n : nat) : forall d a,
  plain_or_absent k = true ->
  dict_get k d = Some a ->
  category a = Some (Unencodable n) ->
  Forall writable (before k d) ->
  write_rows d = (map fields_of (before k d), Some UnicodeEncodeError).
Proof.
  induction d as [|[k' a'] d IH]; intros a Hk; cbn [dict_get before write_rows];
    [discriminate|].
  destruct (pyval_eqb k' k) eqn:E.
  - apply pyval_eqb_true in E. subst k'.
    intros H Hc _. injection H as ->.
    unfold row_of. cbn [fst snd]. rewrite (field_shown k Hk), Hc. reflexivity.
  - intros Hget Hc Hw. inversion Hw as [|? ? He Hrest]; subst.
    rewrite (row_of_writable _ He), (IH a Hk Hget Hc Hrest). reflexivity.
Qed.

(** X22. On a store file in the store's own format, [save_annotation] of a
    category that cannot be encoded (a text with a lone surrogate), for a
    hash that is a plain text (no carriage return, no NUL, at most 131072
    characters, encodable), raises [UnicodeEncodeError] after the file was
    emptied: the file is left with the header and the entries that came
    before the one of the hash, all of them when the hash is new, and loads
    as these; the entry of the hash and the entries after it are lost. *)
Theorem save_annotation_unencodable (h : str) (n : nat) (m : pyval) (f : file) :
  wf_store f = true ->
  plain h = true ->
  exists d,
    load_annotations f = Ok d /\
    save_annotation (Plain h) (Some (Unencodable n)) m f =
      Raised UnicodeEncodeError (stored (before (Some (Plain h)) d)) /\
    load_annotations (stored (before (Some (Plain h)) d)) =
      Ok (before (Some (Plain h)) d).
Proof.
  intros Hwf Hh. destruct (load_wf f Hwf) as (d & Hload & Hnd & Ht).
  exists d. split; [assumption|]. split.
  - unfold save_annotation. rewrite Hload.
    erewrite (write_rows_stops (Some (Plain h)) n).
    + rewrite before_upsert. reflexivity.
    + exact Hh.
    + apply dict_get_upsert_same.
    + destruct m; reflexivity.
    + rewrite before_upsert. apply Forall_before.
      revert Ht. apply Forall_impl. exact textual_writable.
  - apply load_stored; [now apply NoDup_before | now apply Forall_before].
Qed.

Lemma save_annotation_unencodable_witness :
  exists d,
    load_annotations
      (Some [header; [lit "h1"; lit "Rent"; []]; [lit "h2"; lit "Food"; []];
             [lit "h3"; lit "Fuel"; lit "trip"]]) = Ok d /\
    save_annotation (Plain (lit "h2")) (Some (Unencodable 0)) None
      (Some [header; [lit "h1"; lit "Rent"; []]; [lit "h2"; lit "Food"; []];
             [lit "h3"; lit "Fuel"; lit "trip"]]) =
      Raised UnicodeEncodeError (stored (before (Some (Plain (lit "h2"))) d)) /\
    load_annotations (stored (before (Some (Plain (lit "h2"))) d)) =
      Ok (before (Some (Plain (lit "h2"))) d).
Proof.
  apply (save_annotation_unencodable (lit "h2") 0 None
           (Some [header; [lit "h1"; lit "Rent"; []]; [lit "h2"; lit "Food"; []];
                  [lit "h3"; lit "Fuel"; lit "trip"]]));
    reflexivity.
Defined.

End StoreMore.

(** ** The transaction hash, continued *)

Section HashMore.
Import PyStr Ledger Hasher.

Lemma join_cons sep p q rest :
  join sep (p :: q :: rest) = p ++ sep ++ join sep (q :: rest).
Proof. reflexivity. Qed.

Lemma join_shift sep (a : list str) x y z (b : list str) :
  join sep (a ++ (x ++ sep ++ y) :: z :: b) =
  join sep (a ++ x :: (y ++ sep ++ z) :: b).
Proof.
  induction a as [|p a IH].
  - cbn [app]. rewrite !join_cons.
    destruct b as [|q b].
    + cbn [join]. now rewrite <- !app_assoc.
    + rewrite !join_cons. now rewrite <- !app_assoc.
  - destruct a as [|p' a].
    + cbn [app] in *. rewrite (join_cons sep p), (join_cons sep p x).
      do 2 f_equal. exact IH.
    + cbn [app] in *.
      change (p ++ sep ++ join sep (p' :: a ++ (x ++ sep ++ y) :: z :: b) =
              p ++ sep ++ join sep (p' :: a ++ x :: (y ++ sep ++ z) :: b)).
      do 2 f_equal. exact IH.
Qed.

(** X9. The delimiter is not escaped, so the hash does not tell where one
    text field ends and the next one begins: moving the part of a text after
    a ["|"] to the front of the next column's text gives the same hash. *)
Theorem create_transaction_hash_delimiter
  (float_repr : PyFloat.float -> str) (timestamp_str : timestamp -> str)
  (before after : series) (label1 label2 : str) (x y z : str) :
  create_transaction_hash float_repr timestamp_str
    (before ++ (label1, VStr (x ++ lit "|" ++ y)) :: (label2, VStr z) :: after) =
  create_transaction_hash float_repr timestamp_str
    (before ++ (label1, VStr x) :: (label2, VStr (y ++ lit "|" ++ z)) :: after).
Proof.
  unfold create_transaction_hash, values.
  rewrite !map_app. cbn [map snd py_str].
  now rewrite join_shift.
Qed.

End HashMore.

(** ** Monthly aggregation, continued *)

Section AggregatorMore.
Import PyStr PyFloat Ledger Aggregator Shape.

Variable minus_zero : bool.

Lemma in_insert_key (x k : Z) (ks : list Z) :
  In x (insert_key k ks) <-> x = k \/ In x ks.
Proof.
  induction ks as [|a ks IH]; simpl.
  - intuition.
  - destruct (k <? a) eqn:E1; [simpl; intuition|].
    destruct (k =? a) eqn:E2.
    + apply Z.eqb_eq in E2. subst. simpl. intuition.
    + simpl. rewrite IH. intuition.
Qed.

Lemma ascending_insert_key (k : Z) (ks : list Z) :
  ascending ks -> ascending (insert_key k ks).
Proof.
  induction ks as [|a ks IH]; intros Hks.
  - simpl. auto.
  - cbn [insert_key].
    destruct (k <? a) eqn:E1.
    + apply Z.ltb_lt in E1. cbn [ascending]. split; [exact E1 | exact Hks].
    + destruct (k =? a) eqn:E2; [exact Hks|].
      apply Z.ltb_ge in E1. apply Z.eqb_neq in E2.
      destruct Hks as [Hhead Htail]. specialize (IH Htail).
      cbn [ascending]. split; [|exact IH].
      destruct ks as [|b ks]; cbn [insert_key].
      * lia.
      * destruct (k <? b); [lia|]. destruct (k =? b); exact Hhead.
Qed.

Lemma group_keys_from (periods : list value) : forall ks,
  ascending ks ->
  ascending (fold_left (fun ks v => match v with
                                    | VPeriod o => insert_key o ks
                                    | _ => ks
                                    end) periods ks)
  /\ forall k,
       In k (fold_left (fun ks v => match v with
                                    | VPeriod o => insert_key o ks
                                    | _ => ks
                                    end) periods ks)
       <-> In k ks \/ In (VPeriod k) periods.
Proof.
  induction periods as [|v periods IH]; intros ks Hks; cbn [fold_left].
  - split; [assumption|]. intros k. simpl. intuition.
  - destruct v as [s| |x|t| |o];
      try (destruct (IH ks Hks) as [Ha Hin]; split; [exact Ha|];
           intros k; rewrite Hin; simpl; intuition; discriminate).
    destruct (IH (insert_key o ks) (ascending_insert_key o ks Hks)) as [Ha Hin].
    split; [exact Ha|]. intros k. rewrite Hin, in_insert_key. simpl.
    intuition; subst; auto.
    match goal with H : VPeriod _ = VPeriod _ |- _ => injection H as -> end.
    auto.
Qed.

Lemma to_period_values (dates periods : list value) :
  apply to_period dates = Ok periods ->
  forall k, In (VPeriod k) periods <->
            exists t, In (VTime t) dates /\ period_of t = k.
Proof.
  intros H. apply apply_Ok in H.
  induction H as [|d p dates periods Hd _ IH]; intros k.
  - simpl. split; [tauto | intros (t & [] & _)].
  - simpl. rewrite IH. destruct d as [s| |x|t| |o]; simpl in Hd; try discriminate;
      injection Hd as <-; split.
    + intros [H|(t' & Ht' & Hk)].
      * injection H as <-. exists t. auto.
      * exists t'. auto.
    + intros (t' & [H|Ht'] & Hk).
      * injection H as <-. left. now subst.
      * right. eauto.
    + intros [H|(t' & Ht' & Hk)]; [discriminate|]. exists t'. auto.
    + intros (t' & [H|Ht'] & Hk); [discriminate|]. right. eauto.
Qed.

(** The months of the summary are the group keys of the date column. *)
Lemma monthly_summary_keys (df df' : frame) (bs : list bucket) :
  get_monthly_summary minus_zero df = Ok (df', bs) ->
  exists dates periods,
    column (lit "date") df = Some dates /\
    apply to_period dates = Ok periods /\
    map YearMonth bs = group_keys periods.
Proof.
  unfold get_monthly_summary, get_column.
  destruct (column (lit "date") df) as [dates|] eqn:Hdates; cbn [bind];
    try discriminate.
  destruct (apply to_period dates) as [periods|e] eqn:Hper; cbn [bind];
    try discriminate.
  destruct (group_keys periods) as [|k keys] eqn:Hkeys.
  - intros H. injection H as <- <-. exists dates, periods. now rewrite Hkeys.
  - destruct (column (lit "amount") _) as [amounts|]; cbn [bind];
      try discriminate.
    destruct (apply _ (k :: keys)) as [buckets|e] eqn:Hb; cbn [bind];
      try discriminate.
    intros H. injection H as <- <-.
    apply apply_Ok in Hb. apply summarized_groups in Hb as [Hk _].
    exists dates, periods. now rewrite Hkeys.
Qed.

(** X10. The monthly summary is in chronological order and has one bucket
    per month: the months of its buckets are strictly ascending. *)
Theorem monthly_summary_ascending (df df' : frame) (bs : list bucket) :
  get_monthly_summary minus_zero df = Ok (df', bs) ->
  ascending (map YearMonth bs).
Proof.
  intros H. apply monthly_summary_keys in H as (dates & periods & _ & _ & ->).
  apply (group_keys_from periods []). exact I.
Qed.

(** X11. A month has a bucket in the summary exactly when some row has a
    date in that month; the rows whose date is [NaT] are in no bucket. *)
Theorem monthly_summary_months (df df' : frame) (bs : list bucket) :
  get_monthly_summary minus_zero df = Ok (df', bs) ->
  exists dates,
    column (lit "date") df = Some dates /\
    forall k, In k (map YearMonth bs) <->
              exists t, In (VTime t) dates /\ period_of t = k.
Proof.
  intros H. apply monthly_summary_keys in H as (dates & periods & Hd & Hp & ->).
  exists dates. split; [exact Hd|]. intros k.
  destruct (group_keys_from periods [] I) as [_ Hin].
  unfold group_keys. rewrite Hin, <- (to_period_values dates periods Hp).
  simpl. tauto.
Qed.

End AggregatorMore.

Lemma monthly_summary_ascending_witness :
  Shape.ascending (map Aggregator.YearMonth
    [{| Aggregator.YearMonth := 648;
        Aggregator.Income := S754_finite false 5404319552844596 (-54);
        Aggregator.Expenses := S754_finite true 5404319552844595 (-54);
        Aggregator.Net := S754_finite false 4503599627370496 (-107) |}]).
Proof.
  apply (monthly_summary_ascending false Aggregator.january
           (Ledger.set_column (lit "YearMonth")
              [Ledger.VPeriod 648; Ledger.VPeriod 648; Ledger.VPeriod 648]
              Aggregator.january)).
  vm_compute. reflexivity.
Defined.

Lemma monthly_summary_months_witness :
  exists dates,
    Ledger.column (lit "date") Aggregator.january = Some dates /\
    forall k, In k (map Aggregator.YearMonth
                 [{| Aggregator.YearMonth := 648;
                     Aggregator.Income := S754_finite false 5404319552844596 (-54);
                     Aggregator.Expenses := S754_finite true 5404319552844595 (-54);
                     Aggregator.Net := S754_finite false 4503599627370496 (-107) |}]) <->
              exists t, In (Ledger.VTime t) dates /\ Aggregator.period_of t = k.
Proof.
  apply (monthly_summary_months false Aggregator.january
           (Ledger.set_column (lit "YearMonth")
              [Ledger.VPeriod 648; Ledger.VPeriod 648; Ledger.VPeriod 648]
              Aggregator.january)).
  vm_compute. reflexivity.
Defined.


(** ** Per-month transaction details, continued *)

Section DetailsMore.
Import PyStr PyFloat Ledger Hasher Store Aggregator Details Shape.

Variable float_repr : float -> str.
Variable timestamp_str : timestamp -> str.
Variable nat_as_text : bool.

Lemma select_Ok (test : float -> bool) (month_data : list series) : forall sel,
  select test month_data = Ok sel ->
  Forall (fun row => exists a x,
            row_item (lit "amount") row = Ok a /\ amount_of a = Ok x /\
            test x = true) sel.
Proof.
  induction month_data as [|row rest IH]; intros sel H.
  - injection H as <-. constructor.
  - cbn [select] in H.
    destruct (row_item (lit "amount") row) as [a|e] eqn:Ea; cbn [bind] in H;
      try discriminate.
    destruct (amount_of a) as [x|e] eqn:Ex; cbn [bind] in H; try discriminate.
    destruct (select test rest) as [sel'|e] eqn:Es; cbn [bind] in H;
      try discriminate.
    injection H as <-. specialize (IH sel' eq_refl).
    destruct (test x) eqn:Et; auto.
    constructor; auto. exists a, x. auto.
Qed.

Lemma entry_of_amount (party : str) (notes : annotations) (row : series) e :
  entry_of float_repr timestamp_str party notes row = Ok e ->
  exists a, row_item (lit "amount") row = Ok a /\ amount_of a = Ok (e_amount e).
Proof.
  unfold entry_of.
  destruct (row_item (lit "date") row) as [d|?]; cbn [bind]; try discriminate.
  destruct (strftime_md d) as [date|?]; cbn [bind]; try discriminate.
  destruct (row_item (lit "amount") row) as [a|?]; cbn [bind]; try discriminate.
  destruct (amount_of a) as [x|?] eqn:Ex; cbn [bind]; try discriminate.
  intros H. injection H as <-. exists a. auto.
Qed.

Lemma entries_satisfy (test : float -> bool) (party : str)
  (notes : annotations) (month_data : list series) sel entries :
  select test month_data = Ok sel ->
  apply (entry_of float_repr timestamp_str party notes) sel = Ok entries ->
  Forall (fun e => test (e_amount e) = true) entries.
Proof.
  intros Hsel Hentries. apply select_Ok in Hsel. apply apply_Ok in Hentries.
  induction Hentries as [|row e sel entries He _ IH]; [constructor|].
  inversion Hsel as [|? ? (a & x & Ha & Hx & Ht) Hrest]; subst.
  constructor; [|now apply IH].
  apply entry_of_amount in He as (a' & Ha' & Hx').
  congruence.
Qed.

Lemma month_details_Ok (notes : annotations) (all_rows : list series)
  (month : month) r :
  month_details float_repr timestamp_str notes all_rows month = Ok r ->
  fst r = month /\
  Forall (fun e => positive (e_amount e) = true) (income (snd r)) /\
  Forall (fun e => negative (e_amount e) = true) (expenses (snd r)).
Proof.
  unfold month_details.
  destruct (select positive _) as [inc|?] eqn:Hinc; cbn [bind]; try discriminate.
  destruct (apply _ inc) as [income_list|?] eqn:Hil; cbn [bind]; try discriminate.
  destruct (select negative _) as [exp|?] eqn:Hexp; cbn [bind]; try discriminate.
  destruct (apply _ exp) as [expense_list|?] eqn:Hel; cbn [bind]; try discriminate.
  intros H. injection H as <-. cbn [fst snd income expenses].
  split; [reflexivity|]. split.
  - exact (entries_satisfy positive _ _ _ _ _ Hinc Hil).
  - exact (entries_satisfy negative _ _ _ _ _ Hexp Hel).
Qed.

Lemma month_eqb_true (a b : month) : month_eqb a b = true <-> a = b.
Proof.
  destruct a as [x|], b as [y|]; simpl; split; try congruence; try reflexivity.
  - intros H. apply str_eqb_true in H. congruence.
  - intros H. injection H as ->. apply str_eqb_refl.
Qed.

Lemma month_eqb_refl (a : month) : month_eqb a a = true.
Proof. now apply month_eqb_true. Qed.

Lemma NoDup_unique (l : list month) : NoDup (unique l).
Proof.
  induction l as [|x l IH]; simpl; constructor.
  - intros Hin. apply filter_In in Hin as [_ Hx].
    now rewrite month_eqb_refl in Hx.
  - now apply NoDup_filter.
Qed.

(** X12. In the details that [prepare_transaction_details] returns, every
    month name is listed once, every income entry has a strictly positive
    amount and every expense entry a strictly negative one: a transaction
    whose amount is zero is in neither list. *)
Theorem transaction_details_signs (store : file) (df df' : frame)
  (details : list (month * month_detail)) :
  prepare_transaction_details float_repr timestamp_str nat_as_text store df =
    Ok (df', details) ->
  NoDup (map fst details) /\
  Forall (fun md =>
            Forall (fun e => positive (e_amount e) = true) (income (snd md)) /\
            Forall (fun e => negative (e_amount e) = true) (expenses (snd md)))
         details /\
  (forall s, positive (S754_zero s) = false /\ negative (S754_zero s) = false).
Proof.
  unfold prepare_transaction_details, get_column.
  destruct (column (lit "date") df) as [dates|]; cbn [bind]; try discriminate.
  destruct (apply to_period dates) as [periods|?]; cbn [bind]; try discriminate.
  destruct (load_annotations store) as [notes|?]; cbn [bind]; try discriminate.
  destruct (apply _ (unique _)) as [ds|?] eqn:Hds; cbn [bind]; try discriminate.
  intros H. injection H as _ <-.
  apply apply_Ok in Hds.
  pose proof (NoDup_unique
                (map (month_of float_repr timestamp_str nat_as_text) periods)) as Hnd.
  revert Hnd Hds.
  generalize (unique (map (month_of float_repr timestamp_str nat_as_text) periods)).
  intros months Hnd Hds.
  assert (Hkeys : map fst ds = months /\
            Forall (fun md =>
              Forall (fun e => positive (e_amount e) = true) (income (snd md)) /\
              Forall (fun e => negative (e_amount e) = true) (expenses (snd md))) ds).
  { clear Hnd. induction Hds as [|month r months' ds Hr _ [IHk IHs]].
    - split; constructor.
    - apply month_details_Ok in Hr as (Hk & Hi & He).
      split; [simpl; congruence|]. constructor; auto. }
  destruct Hkeys as [Hk Hs].
  split; [now rewrite Hk|]. split; [exact Hs|].
  intros s. split; reflexivity.
Qed.

End DetailsMore.

Lemma transaction_details_signs_witness :
  exists df' details,
    Details.prepare_transaction_details (fun _ => []) (fun _ => []) true None
      Aggregator.january = Ok (df', details) /\
    NoDup (map fst details) /\
    Forall (fun md =>
              Forall (fun e => Aggregator.positive (Details.e_amount e) = true)
                     (Details.income (snd md)) /\
              Forall (fun e => Aggregator.negative (Details.e_amount e) = true)
                     (Details.expenses (snd md)))
           details /\
    (forall s, Aggregator.positive (S754_zero s) = false /\
               Aggregator.negative (S754_zero s) = false).
Proof.
  assert (E : exists r,
             Details.prepare_transaction_details (fun _ => []) (fun _ => []) true None
               Aggregator.january = Ok r)
    by (vm_compute; eexists; reflexivity).
  destruct E as [[df' details] E].
  exists df', details. split; [exact E|].
  exact (transaction_details_signs (fun _ => []) (fun _ => []) true None
           Aggregator.january df' details E).
Defined.

(** ** Frames *)

Section FrameFacts.
Import PyStr PyFloat Amount Ledger Shape.

Lemma index_of_lt (c : str) (cols : list str) : forall i,
  index_of c cols = Some i -> (i < length cols)%nat.
Proof.
  induction cols as [|d cols IH]; simpl; intros i H; [discriminate|].
  destruct (PyStr.eqb d c).
  - injection H as <-. lia.
  - destruct (index_of c cols) as [j|]; [|discriminate].
    injection H as <-. specialize (IH j eq_refl). lia.
Qed.

Lemma index_of_app_l (c : str) (cols more : list str) : forall i,
  index_of c cols = Some i -> index_of c (cols ++ more) = Some i.
Proof.
  induction cols as [|d cols IH]; simpl; intros i H; [discriminate|].
  destruct (PyStr.eqb d c); auto.
  destruct (index_of c cols) as [j|]; [|discriminate].
  now rewrite (IH j eq_refl).
Qed.

Lemma index_of_app_new (c : str) (cols : list str) :
  index_of c cols = None -> index_of c (cols ++ [c]) = Some (length cols).
Proof.
  induction cols as [|d cols IH]; simpl; intros H.
  - now rewrite str_eqb_refl.
  - destruct (PyStr.eqb d c); [discriminate|].
    destruct (index_of c cols); [discriminate|].
    now rewrite IH.
Qed.

Lemma index_of_app_other (c c' : str) (cols : list str) :
  index_of c cols = None -> c' <> c -> index_of c (cols ++ [c']) = None.
Proof.
  induction cols as [|d cols IH]; simpl; intros H Hne.
  - apply str_eqb_false in Hne. now rewrite Hne.
  - destruct (PyStr.eqb d c); [discriminate|].
    destruct (index_of c cols); [discriminate|].
    now rewrite IH.
Qed.

Lemma index_of_same_place (c c' : str) (cols : list str) : forall i,
  index_of c cols = Some i -> index_of c' cols = Some i -> c = c'.
Proof.
  induction cols as [|d cols IH]; simpl; intros i H H'; [discriminate|].
  destruct (PyStr.eqb d c) eqn:E, (PyStr.eqb d c') eqn:E'.
  - apply str_eqb_true in E, E'. congruence.
  - injection H as <-. destruct (index_of c' cols); discriminate.
  - injection H' as <-. destruct (index_of c cols); discriminate.
  - destruct (index_of c cols) as [j|], (index_of c' cols) as [j'|];
      try discriminate.
    injection H as <-. injection H' as H'. subst j'. now apply (IH j).
Qed.

Lemma has_column_index (c : str) (df : frame) :
  has_column c df = true <-> index_of c (columns df) <> None.
Proof.
  unfold has_column. induction (columns df) as [|d cols IH]; simpl.
  - split; [discriminate | congruence].
  - destruct (PyStr.eqb c d) eqn:E.
    + apply str_eqb_true in E. subst. rewrite str_eqb_refl. simpl.
      split; [discriminate | reflexivity].
    + assert (E' : PyStr.eqb d c = false).
      { apply str_eqb_false. apply str_eqb_false in E. congruence. }
      rewrite E'. simpl. rewrite IH.
      destruct (index_of c cols); simpl; split; congruence.
Qed.

Lemma zip_with_const {A B C} (f : A -> B -> C) (v : B) (l : list A) :
  zip_with f l (map (fun _ => v) l) = map (fun a => f a v) l.
Proof. induction l as [|a l IH]; simpl; congruence. Qed.

Lemma length_zip_with {A B C} (f : A -> B -> C) (l : list A) : forall m,
  length m = length l -> length (zip_with f l m) = length l.
Proof.
  induction l as [|a l IH]; intros [|b m] H; simpl in *; try discriminate; auto.
Qed.

Lemma length_set_nth {A} (i : nat) (x : A) (l : list A) :
  length (set_nth i x l) = length l.
Proof.
  revert i. induction l as [|y l IH]; intros [|i]; simpl; auto.
Qed.

Lemma nth_set_nth_same {A} (i : nat) (x d : A) (l : list A) :
  (i < length l)%nat -> nth i (set_nth i x l) d = x.
Proof.
  revert i. induction l as [|y l IH]; intros [|i] H; simpl in *; try lia; auto.
  apply IH. lia.
Qed.

Lemma nth_set_nth_other {A} (i j : nat) (x d : A) (l : list A) :
  i <> j -> nth j (set_nth i x l) d = nth j l d.
Proof.
  revert i j. induction l as [|y l IH]; intros [|i] [|j] H; simpl; auto; try lia.
Qed.

(** *** Assigning a column *)

Lemma frame_wf_set_column (c : str) (vals : list value) (df : frame) :
  frame_wf df -> frame_wf (set_column c vals df).
Proof.
  unfold frame_wf, set_column. intros Hwf.
  destruct (index_of c (columns df)) as [i|]; cbn [columns rows].
  - revert vals. induction Hwf as [|r rs Hr _ IH]; intros [|v vals]; simpl;
      constructor; auto. now rewrite length_set_nth.
  - revert vals. induction Hwf as [|r rs Hr _ IH]; intros [|v vals]; simpl;
      constructor; auto. rewrite !length_app. simpl. lia.
Qed.

Lemma rows_set_column (c : str) (vals : list value) (df : frame) :
  length vals = length (rows df) ->
  length (rows (set_column c vals df)) = length (rows df).
Proof.
  intros H. unfold set_column.
  destruct (index_of c (columns df)); cbn [rows]; now apply length_zip_with.
Qed.

Lemma column_set_column_same (c : str) (vals : list value) (df : frame) :
  frame_wf df -> length vals = length (rows df) ->
  column c (set_column c vals df) = Some vals.
Proof.
  unfold frame_wf, set_column, column. intros Hwf Hlen.
  destruct (index_of c (columns df)) as [i|] eqn:Ei; cbn [columns rows].
  - rewrite Ei. f_equal. apply index_of_lt in Ei.
    revert vals Hlen. induction Hwf as [|r rs Hr _ IH]; intros [|v vals] Hlen;
      simpl in *; try discriminate; auto.
    rewrite nth_set_nth_same by lia. f_equal. apply IH. lia.
  - rewrite (index_of_app_new c _ Ei). f_equal.
    revert vals Hlen. induction Hwf as [|r rs Hr _ IH]; intros [|v vals] Hlen;
      simpl in *; try discriminate; auto.
    rewrite app_nth2 by lia. rewrite Hr, Nat.sub_diag. simpl.
    f_equal. apply IH. lia.
Qed.

Lemma column_set_column_other (c c' : str) (vals : list value) (df : frame) :
  frame_wf df -> length vals = length (rows df) -> c' <> c ->
  column c' (set_column c vals df) = column c' df.
Proof.
  unfold frame_wf, set_column, column. intros Hwf Hlen Hne.
  destruct (index_of c (columns df)) as [i|] eqn:Ei; cbn [columns rows].
  - destruct (index_of c' (columns df)) as [j|] eqn:Ej; [|reflexivity].
    f_equal.
    assert (Hij : i <> j).
    { intros ->. apply Hne. symmetry. exact (index_of_same_place c c' (columns df) j Ei Ej). }
    clear Ei Ej.
    revert vals Hlen. induction Hwf as [|r rs Hr _ IH]; intros [|v vals] Hlen;
      simpl in *; try discriminate; auto.
    rewrite nth_set_nth_other by assumption. f_equal. apply IH. lia.
  - destruct (index_of c' (columns df)) as [j|] eqn:Ej.
    + rewrite (index_of_app_l c' _ [c] j Ej). f_equal.
      apply index_of_lt in Ej.
      revert vals Hlen. induction Hwf as [|r rs Hr _ IH]; intros [|v vals] Hlen;
        simpl in *; try discriminate; auto.
      rewrite app_nth1 by lia. f_equal. apply IH. lia.
    + now rewrite (index_of_app_other c' c _ Ej) by congruence.
Qed.

Lemma columns_set_column (c : str) (vals : list value) (df : frame) :
  columns (set_column c vals df) =
  if has_column c df then columns df else columns df ++ [c].
Proof.
  unfold set_column.
  destruct (index_of c (columns df)) as [i|] eqn:Ei; cbn [columns].
  - assert (H : has_column c df = true) by (apply has_column_index; congruence).
    now rewrite H.
  - destruct (has_column c df) eqn:H; [|reflexivity].
    apply has_column_index in H. congruence.
Qed.

Lemma column_length (c : str) (df : frame) vals :
  column c df = Some vals -> length vals = length (rows df).
Proof.
  unfold column. destruct (index_of c (columns df)); [|discriminate].
  intros H. injection H as <-. apply length_map.
Qed.

Lemma column_has (c : str) (df : frame) :
  has_column c df = true -> exists vals, column c df = Some vals.
Proof.
  intros H. apply has_column_index in H. unfold column.
  destruct (index_of c (columns df)); [eauto | congruence].
Qed.

Lemma column_absent (c : str) (df : frame) :
  has_column c df = false -> column c df = None.
Proof.
  intros H. unfold column.
  destruct (index_of c (columns df)) eqn:E; [|reflexivity].
  assert (has_column c df = true) by (apply has_column_index; congruence).
  congruence.
Qed.

End FrameFacts.

(** ** Loading the ledger *)

Section LoadShape.
Import PyStr PyFloat Amount Ledger Shape.

Lemma frame_wf_rename aliases (df : frame) :
  frame_wf df -> frame_wf (rename aliases df).
Proof.
  unfold frame_wf, rename. cbn [columns rows]. intros H.
  rewrite length_map. exact H.
Qed.

Lemma ensure_columns_fold (df : frame) :
  ensure_columns df = fold_left create expected_columns df.
Proof. reflexivity. Qed.

Lemma map_const_length {A B C} (v : C) (l : list A) (m : list B) :
  length l = length m -> map (fun _ => v) l = map (fun _ => v) m.
Proof.
  revert m. induction l as [|a l IH]; intros [|b m] H; simpl in *;
    try discriminate; auto.
  f_equal. apply IH. lia.
Qed.

Lemma column_None (c : str) (df : frame) :
  column c df = None <-> has_column c df = false.
Proof.
  split; [|apply column_absent].
  intros H. destruct (has_column c df) eqn:E; [|reflexivity].
  apply column_has in E as [vals E]. congruence.
Qed.

Lemma frame_wf_create (d : frame) (col : str) :
  frame_wf d -> frame_wf (create d col).
Proof.
  intros H. unfold create. destruct (has_column col d); [assumption|].
  now apply frame_wf_set_column.
Qed.

Lemma rows_create (d : frame) (col : str) :
  length (rows (create d col)) = length (rows d).
Proof.
  unfold create. destruct (has_column col d); [reflexivity|].
  apply rows_set_column. apply length_map.
Qed.

Lemma create_present (d : frame) (col c : str) vals :
  frame_wf d -> column c d = Some vals -> column c (create d col) = Some vals.
Proof.
  intros Hwf Hc. unfold create. destruct (has_column col d) eqn:E; [assumption|].
  unfold set_column_scalar. rewrite column_set_column_other; auto.
  - apply length_map.
  - intros ->. apply column_absent in E. congruence.
Qed.

Lemma create_absent (d : frame) (col c : str) :
  frame_wf d -> column c d = None -> c <> col -> column c (create d col) = None.
Proof.
  intros Hwf Hc Hne. unfold create. destruct (has_column col d); [assumption|].
  unfold set_column_scalar. rewrite column_set_column_other; auto.
  apply length_map.
Qed.

Lemma create_new (d : frame) (c : str) :
  frame_wf d -> column c d = None ->
  column c (create d c) = Some (map (fun _ => VStr []) (rows d)).
Proof.
  intros Hwf Hc. unfold create. apply column_None in Hc. rewrite Hc.
  unfold set_column_scalar. apply column_set_column_same; auto.
  apply length_map.
Qed.

Lemma fold_create_wf (cols : list str) : forall d,
  frame_wf d ->
  frame_wf (fold_left create cols d) /\
  length (rows (fold_left create cols d)) = length (rows d).
Proof.
  induction cols as [|col cols IH]; intros d H; simpl; [auto|].
  destruct (IH (create d col) (frame_wf_create d col H)) as [H1 H2].
  split; [assumption|]. rewrite H2. apply rows_create.
Qed.

Lemma fold_create_present (cols : list str) (c : str) vals : forall d,
  frame_wf d -> column c d = Some vals ->
  column c (fold_left create cols d) = Some vals.
Proof.
  induction cols as [|col cols IH]; intros d H Hc; simpl; [assumption|].
  apply IH; [now apply frame_wf_create | now apply create_present].
Qed.

Lemma fold_create_absent (cols : list str) (c : str) : forall d,
  frame_wf d -> column c d = None -> In c cols ->
  column c (fold_left create cols d) =
    Some (map (fun _ => VStr []) (rows d)).
Proof.
  induction cols as [|col cols IH]; intros d H Hc Hin; simpl; [destruct Hin|].
  destruct (PyStr.eqb c col) eqn:E.
  - apply str_eqb_true in E. subst col.
    apply fold_create_present; [now apply frame_wf_create | now apply create_new].
  - apply str_eqb_false in E.
    destruct Hin as [->|Hin]; [congruence|].
    rewrite IH; auto using frame_wf_create, create_absent.
    f_equal. apply map_const_length. apply rows_create.
Qed.

Lemma has_column_create (d : frame) (col c : str) :
  has_column c (create d col) = has_column c d || PyStr.eqb c col.
Proof.
  unfold create. destruct (has_column col d) eqn:E.
  - destruct (PyStr.eqb c col) eqn:Ec.
    + apply str_eqb_true in Ec. subst. rewrite E. reflexivity.
    + now rewrite orb_false_r.
  - unfold has_column, set_column_scalar. rewrite columns_set_column.
    unfold has_column at 1. fold (has_column col d). rewrite E.
    rewrite existsb_app. simpl. now rewrite orb_false_r.
Qed.

Lemma fold_create_columns (cols : list str) : forall d,
  NoDup cols ->
  columns (fold_left create cols d) =
    columns d ++ filter (fun c => negb (has_column c d)) cols.
Proof.
  induction cols as [|col cols IH]; intros d Hnd; simpl.
  - now rewrite app_nil_r.
  - inversion Hnd as [|? ? Hnot Hnd']; subst.
    rewrite IH by assumption.
    assert (Hf : filter (fun c => negb (has_column c (create d col))) cols =
                 filter (fun c => negb (has_column c d)) cols).
    { apply filter_ext_in. intros c Hc. rewrite has_column_create.
      assert (E : PyStr.eqb c col = false).
      { apply str_eqb_false. intros ->. contradiction. }
      rewrite E. now rewrite orb_false_r. }
    rewrite Hf. unfold create at 1.
    destruct (has_column col d) eqn:E; simpl; [reflexivity|].
    unfold set_column_scalar. rewrite columns_set_column, E.
    now rewrite <- app_assoc.
Qed.

Lemma NoDup_expected_columns : NoDup expected_columns.
Proof.
  unfold expected_columns.
  repeat (constructor; [simpl; intros H; repeat destruct H as [H|H];
                        try discriminate; try contradiction|]).
  constructor.
Qed.

Lemma ensure_columns_has (df : frame) (c : str) :
  frame_wf df -> In c expected_columns ->
  exists vals, column c (ensure_columns df) = Some vals.
Proof.
  intros H Hin. rewrite ensure_columns_fold.
  destruct (column c df) as [vals|] eqn:E.
  - exists vals. now apply fold_create_present.
  - eexists. now apply fold_create_absent.
Qed.

Lemma apply_Raise {A B} (f : A -> result B) (l : list A) e :
  Ledger.apply f l = Raise e -> exists a, In a l /\ f a = Raise e.
Proof.
  induction l as [|a l IH]; simpl; intros H; [discriminate|].
  destruct (f a) as [b|e'] eqn:Ea; simpl in H.
  - destruct (Ledger.apply f l) as [bs|e'] eqn:El; simpl in H; [discriminate|].
    injection H as ->. destruct (IH eq_refl) as (x & Hx & Hfx). eauto.
  - injection H as ->. eauto.
Qed.

Lemma parse_german_amount_raises (c : cell) e :
  parse_german_amount c = Raise e ->
  e = ValueError (lit "could not convert string to float").
Proof.
  unfold parse_german_amount. destruct c as [[|x s]|]; try discriminate.
  cbv zeta. destruct (py_float _); [discriminate|].
  unfold fallback. destruct (py_float _); [discriminate|].
  congruence.
Qed.

(** X13.  On a file with at least one transaction line, and whose labels
    are distinct after the aliases are applied, the columns that
    [load_transactions] reports as missing are the required columns that the
    file has and that are empty in every line; a required column that the
    file does not have at all is created with empty strings before the
    validation and is never reported. *)
Theorem load_transactions_reports_empty_columns
  (to_datetime : list cell -> list (option timestamp))
  (aliases : list (str * str)) (raw : frame) (cols : list str) :
  frame_wf raw -> NoDup (columns (rename aliases raw)) -> rows raw <> [] ->
  (load_transactions to_datetime aliases raw = Raise (MissingColumns cols) <->
   cols <> [] /\
   cols = filter (fun col => match column col (rename aliases raw) with
                             | Some vals => forallb isnull vals
                             | None => false
                             end) required_columns).
Proof.
  intros Hwf _ Hrows.
  assert (Hm : missing_columns (ensure_columns (rename aliases raw)) =
               filter (fun col => match column col (rename aliases raw) with
                                  | Some vals => forallb isnull vals
                                  | None => false
                                  end) required_columns).
  { unfold missing_columns. apply filter_ext_in. intros c Hc.
    assert (Hwf' := frame_wf_rename aliases raw Hwf).
    rewrite ensure_columns_fold.
    destruct (column c (rename aliases raw)) as [vals|] eqn:E.
    - now rewrite (fold_create_present _ c vals _ Hwf' E).
    - rewrite (fold_create_absent _ c _ Hwf' E).
      + unfold rename. cbn [rows]. destruct (rows raw); [congruence|reflexivity].
      + unfold required_columns in Hc. unfold expected_columns.
        simpl in Hc |- *. tauto. }
  unfold load_transactions. cbv zeta. rewrite Hm.
  set (found := filter _ required_columns).
  destruct found as [|c0 found'] eqn:Ef.
  - split.
    + intros H.
      destruct (Ledger.apply _ _) as [parsed|e] eqn:Ea; simpl in H;
        [discriminate|].
      injection H as ->.
      apply apply_Raise in Ea as (v & _ & Ea).
      apply parse_german_amount_raises in Ea. discriminate.
    + intros [H H']. congruence.
  - split.
    + intros H. injection H as <-. split; [discriminate|reflexivity].
    + intros [_ ->]. reflexivity.
Qed.

Lemma load_transactions_reports_empty_columns_witness :
  load_transactions (map (fun _ => None)) [] ledger_empty_amounts =
    Raise (MissingColumns [lit "amount"]).
Proof.
  apply (load_transactions_reports_empty_columns
           (map (fun _ => None)) [] ledger_empty_amounts [lit "amount"]).
  - repeat constructor.
  - repeat (constructor; [simpl; intros H; repeat destruct H as [H|H];
                          try discriminate; try contradiction|]).
    constructor.
  - discriminate.
  - split; [discriminate | reflexivity].
Defined.

End LoadShape.

Section LoadTypes.
Import PyStr PyFloat Amount Ledger Shape Aggregator.

Variable to_datetime : list cell -> list (option timestamp).
Hypothesis to_datetime_length :
  forall cells, length (to_datetime cells) = length cells.
Variable minus_zero : bool.

Ltac labels_differ :=
  let H := fresh in intros H; cbv in H; discriminate.

Lemma column_Some_has (c : str) (d : frame) vals :
  column c d = Some vals -> has_column c d = true.
Proof.
  intros H. destruct (has_column c d) eqn:E; [reflexivity|].
  apply column_absent in E. congruence.
Qed.

Lemma columns_set_present (c : str) (d : frame) vals new :
  column c d = Some vals -> columns (set_column c new d) = columns d.
Proof.
  intros H. rewrite columns_set_column.
  now rewrite (column_Some_has c d vals H).
Qed.

Lemma map_column_facts (c : str) (f : value -> value) (d : frame) :
  frame_wf d ->
  frame_wf (map_column c f d) /\
  length (rows (map_column c f d)) = length (rows d) /\
  columns (map_column c f d) = columns d /\
  (forall c', c' <> c -> column c' (map_column c f d) = column c' d) /\
  (forall vals, column c d = Some vals ->
                column c (map_column c f d) = Some (map f vals)).
Proof.
  intros Hwf. unfold map_column. destruct (column c d) as [vals|] eqn:E.
  - assert (Hlen : length (map f vals) = length (rows d)).
    { rewrite length_map. now apply (column_length c). }
    split; [now apply frame_wf_set_column|].
    split; [now apply rows_set_column|].
    split; [now apply (columns_set_present c d vals)|].
    split.
    + intros c' Hne. now apply column_set_column_other.
    + intros vals' Hv. injection Hv as <-. now apply column_set_column_same.
  - repeat split; auto. intros vals Hv. discriminate.
Qed.

(** What a successful load is made of. *)
Lemma load_transactions_Ok aliases (raw df : frame) :
  frame_wf raw ->
  load_transactions to_datetime aliases raw = Ok df ->
  exists dates amounts parsed payers payees purposes,
    column (lit "date") (ensure_columns (rename aliases raw)) = Some dates /\
    column (lit "amount") (ensure_columns (rename aliases raw)) = Some amounts /\
    column (lit "payer") (ensure_columns (rename aliases raw)) = Some payers /\
    column (lit "payee") (ensure_columns (rename aliases raw)) = Some payees /\
    column (lit "purpose") (ensure_columns (rename aliases raw)) = Some purposes /\
    Ledger.apply (fun v => parse_german_amount (text_cell v)) amounts = Ok parsed /\
    frame_wf df /\
    length (rows df) = length (rows raw) /\
    columns df = columns (ensure_columns (rename aliases raw)) /\
    column (lit "date") df =
      Some (map time_value (to_datetime (map text_cell dates))) /\
    column (lit "amount") df = Some (map VFloat parsed) /\
    column (lit "payer") df = Some (map fill_text payers) /\
    column (lit "payee") df = Some (map fill_text payees) /\
    column (lit "purpose") df = Some (map fill_text purposes).
Proof.
  intros Hwf H.
  set (df0 := ensure_columns (rename aliases raw)) in *.
  assert (Hwf0 : frame_wf df0 /\ length (rows df0) = length (rows raw)).
  { unfold df0. rewrite ensure_columns_fold.
    apply (fold_create_wf expected_columns (rename aliases raw)).
    now apply frame_wf_rename. }
  destruct Hwf0 as [Hwf0 Hr0].
  assert (Hhas : forall c, In c expected_columns ->
                           exists vals, column c df0 = Some vals).
  { intros c Hc. apply ensure_columns_has; [now apply frame_wf_rename | exact Hc]. }
  destruct (Hhas (lit "date")) as [dates Hd]; [simpl; tauto|].
  destruct (Hhas (lit "amount")) as [amounts Ha]; [simpl; tauto|].
  destruct (Hhas (lit "payer")) as [payers Hp1]; [simpl; tauto|].
  destruct (Hhas (lit "payee")) as [payees Hp2]; [simpl; tauto|].
  destruct (Hhas (lit "purpose")) as [purposes Hp3]; [simpl; tauto|].
  exists dates, amounts.
  unfold load_transactions in H. cbv zeta in H. fold df0 in H.
  destruct (missing_columns df0); [|discriminate].
  rewrite Hd in H.
  set (D := map time_value (to_datetime (map text_cell dates))) in *.
  assert (HlenD : length D = length (rows df0)).
  { unfold D. rewrite length_map, to_datetime_length, length_map.
    now apply (column_length (lit "date")). }
  set (df1 := set_column (lit "date") D df0) in *.
  assert (Hwf1 : frame_wf df1) by now apply frame_wf_set_column.
  assert (Hr1 : length (rows df1) = length (rows df0))
    by now apply rows_set_column.
  assert (Hother1 : forall c, c <> lit "date" -> column c df1 = column c df0).
  { intros c Hc. now apply column_set_column_other. }
  assert (Hd1 : column (lit "date") df1 = Some D)
    by now apply column_set_column_same.
  assert (Ha1 : column (lit "amount") df1 = Some amounts).
  { rewrite Hother1; [exact Ha | labels_differ]. }
  rewrite Ha1 in H.
  destruct (Ledger.apply _ amounts) as [parsed|e] eqn:Ep; simpl in H;
    [|discriminate].
  exists parsed, payers, payees, purposes.
  assert (HlenP : length (map VFloat parsed) = length (rows df1)).
  { rewrite length_map. apply apply_Ok in Ep. apply Forall2_length in Ep.
    rewrite <- Ep. now apply (column_length (lit "amount")). }
  set (df2 := set_column (lit "amount") (map VFloat parsed) df1) in *.
  assert (Hwf2 : frame_wf df2) by now apply frame_wf_set_column.
  assert (Hr2 : length (rows df2) = length (rows df1))
    by now apply rows_set_column.
  assert (Hother2 : forall c, c <> lit "amount" -> column c df2 = column c df1).
  { intros c Hc. now apply column_set_column_other. }
  assert (Ha2 : column (lit "amount") df2 = Some (map VFloat parsed))
    by now apply column_set_column_same.
  destruct (map_column_facts (lit "payer") fill_text df2 Hwf2)
    as (Hwf3 & Hr3 & Hc3 & Hother3 & Hsame3).
  set (df3 := map_column (lit "payer") fill_text df2) in *.
  destruct (map_column_facts (lit "payee") fill_text df3 Hwf3)
    as (Hwf4 & Hr4 & Hc4 & Hother4 & Hsame4).
  set (df4 := map_column (lit "payee") fill_text df3) in *.
  destruct (map_column_facts (lit "purpose") fill_text df4 Hwf4)
    as (Hwf5 & Hr5 & Hc5 & Hother5 & Hsame5).
  set (df5 := map_column (lit "purpose") fill_text df4) in *.
  change (Ok df5 = Ok df) in H. injection H as <-.
  split; [exact Hd|]. split; [exact Ha|]. split; [exact Hp1|].
  split; [exact Hp2|]. split; [exact Hp3|]. split; [reflexivity|].
  split; [exact Hwf5|].
  split; [congruence|].
  split.
  { rewrite Hc5, Hc4, Hc3. unfold df2.
    rewrite (columns_set_present _ df1 amounts _ Ha1). unfold df1.
    now rewrite (columns_set_present _ df0 dates _ Hd). }
  split.
  { rewrite Hother5, Hother4, Hother3, Hother2 by labels_differ. exact Hd1. }
  split.
  { rewrite Hother5, Hother4, Hother3 by labels_differ. exact Ha2. }
  split.
  { rewrite Hother5, Hother4 by labels_differ. apply Hsame3.
    rewrite Hother2, Hother1 by labels_differ. exact Hp1. }
  split.
  { rewrite Hother5 by labels_differ. apply Hsame4.
    rewrite Hother3, Hother2, Hother1 by labels_differ. exact Hp2. }
  apply Hsame5.
  rewrite Hother4, Hother3, Hother2, Hother1 by labels_differ. exact Hp3.
Qed.

Lemma column_raw (c : str) (d : frame) vals :
  frame_raw d -> column c d = Some vals -> forallb is_raw vals = true.
Proof.
  unfold frame_raw, column. intros Hraw H.
  destruct (index_of c (columns d)) as [i|]; [|discriminate].
  injection H as <-. induction Hraw as [|r rs Hr _ IH]; simpl; [reflexivity|].
  rewrite IH, andb_true_r.
  destruct (nth_in_or_default i r VNaN) as [Hin| ->]; [|reflexivity].
  rewrite forallb_forall in Hr. now apply Hr.
Qed.

Lemma ensure_columns_raw aliases (raw : frame) (c : str) vals :
  frame_wf raw -> frame_raw raw ->
  column c (ensure_columns (rename aliases raw)) = Some vals ->
  forallb is_raw vals = true.
Proof.
  intros Hwf Hraw H. rewrite ensure_columns_fold in H.
  assert (Hwf' := frame_wf_rename aliases raw Hwf).
  destruct (column c (rename aliases raw)) as [old|] eqn:E.
  - rewrite (fold_create_present _ c old _ Hwf' E) in H. injection H as <-.
    apply (column_raw c (rename aliases raw)); [exact Hraw | exact E].
  - destruct (column_has c (fold_left create expected_columns (rename aliases raw)))
      as [vals' Hv].
    { now apply (column_Some_has c _ vals). }
    assert (Hin : In c expected_columns).
    { destruct (in_dec (list_eq_dec ascii_dec) c expected_columns) as [Hin|Hout];
        [exact Hin|].
      exfalso. clear Hv vals'. revert H.
      generalize (rename aliases raw) Hwf' E.
      induction expected_columns as [|col cols IH]; intros d Hd Ed H.
      - simpl in H. congruence.
      - simpl in H. apply (IH (fun Hc => Hout (or_intror Hc)) (create d col)).
        + now apply frame_wf_create.
        + apply create_absent; auto. intros ->. apply Hout. now left.
        + exact H. }
    rewrite (fold_create_absent _ c _ Hwf' E Hin) in H. injection H as <-.
    apply forallb_forall. intros v Hv'. apply in_map_iff in Hv' as (r & <- & _).
    reflexivity.
Qed.

Lemma forallb_fill_text vals :
  forallb is_raw vals = true -> forallb is_text (map fill_text vals) = true.
Proof.
  induction vals as [|v vals IH]; simpl; [reflexivity|].
  intros H. apply andb_true_iff in H as [Hv H]. rewrite (IH H), andb_true_r.
  destruct v; simpl in *; congruence.
Qed.

Lemma forallb_time_value l : forallb is_time (map time_value l) = true.
Proof.
  induction l as [|[t|] l IH]; simpl; auto.
Qed.

Lemma forallb_VFloat l : forallb is_float (map VFloat l) = true.
Proof.
  induction l as [|x l IH]; simpl; auto.
Qed.

(** X14.  On a file whose labels are distinct after the aliases are
    applied, the frame that [load_transactions] returns has one row per line
    of the file and, as its column labels, the labels of the file after the
    aliases are applied, in their order, followed by the expected columns
    that the file lacks, in the order date, amount, payer, payee, purpose;
    no column is dropped and every row has one value per column. *)
Theorem load_transactions_shape aliases (raw df : frame) :
  frame_wf raw -> NoDup (columns (rename aliases raw)) ->
  load_transactions to_datetime aliases raw = Ok df ->
  frame_wf df /\
  length (rows df) = length (rows raw) /\
  columns df = columns (rename aliases raw) ++ lacking (rename aliases raw).
Proof.
  intros Hwf _ H.
  destruct (load_transactions_Ok aliases raw df Hwf H)
    as (dates & amounts & parsed & payers & payees & purposes & _ & _ & _ & _
        & _ & _ & Hwf' & Hrows & Hcols & _).
  split; [exact Hwf'|]. split; [exact Hrows|].
  rewrite Hcols, ensure_columns_fold.
  apply fold_create_columns. exact NoDup_expected_columns.
Qed.

(** X15.  On a file whose labels are distinct after the aliases are
    applied, in the frame that [load_transactions] returns every value of
    the date column is a timestamp or [NaT], every value of the amount
    column is a float, and every value of the payer, payee and purpose
    columns is a string: no missing value is left in them. *)
Theorem load_transactions_types aliases (raw df : frame) :
  frame_wf raw -> frame_raw raw -> NoDup (columns (rename aliases raw)) ->
  load_transactions to_datetime aliases raw = Ok df ->
  exists dates amounts,
    column (lit "date") df = Some dates /\ forallb is_time dates = true /\
    column (lit "amount") df = Some amounts /\ forallb is_float amounts = true /\
    forall c, In c [lit "payer"; lit "payee"; lit "purpose"] ->
      exists vals, column c df = Some vals /\ forallb is_text vals = true.
Proof.
  intros Hwf Hraw _ H.
  destruct (load_transactions_Ok aliases raw df Hwf H)
    as (dates & amounts & parsed & payers & payees & purposes & _ & _ & Hp1
        & Hp2 & Hp3 & _ & _ & _ & _ & Hd & Ha & Hq1 & Hq2 & Hq3).
  eexists. eexists.
  split; [exact Hd|]. split; [apply forallb_time_value|].
  split; [exact Ha|]. split; [apply forallb_VFloat|].
  intros c [<-|[<-|[<-|[]]]]; eexists; (split; [eassumption|]);
    apply forallb_fill_text;
    eapply (ensure_columns_raw aliases raw); eassumption.
Qed.


Lemma apply_length {A B} (f : A -> result B) (l : list A) r :
  Ledger.apply f l = Ok r -> length r = length l.
Proof.
  intros H. apply apply_Ok in H. apply Forall2_length in H. congruence.
Qed.




End LoadTypes.

Lemma load_transactions_shape_witness :
  exists df,
    Ledger.load_transactions (map (fun _ => None)) [] Ledger.ledger_without_date
      = Ok df /\
    Shape.frame_wf df /\
    length (Ledger.rows df) = 1%nat /\
    Ledger.columns df =
      [lit "amount"; lit "payer"; lit "date"; lit "payee"; lit "purpose"].
Proof.
  assert (E : exists df,
             Ledger.load_transactions (map (fun _ => None)) []
               Ledger.ledger_without_date = Ok df)
    by (vm_compute; eexists; reflexivity).
  destruct E as [df E]. exists df. split; [exact E|].
  apply (load_transactions_shape (map (fun _ => None))
           (fun cells => length_map _ cells) [] Ledger.ledger_without_date df).
  - repeat constructor.
  - repeat (constructor; [simpl; intros H; repeat destruct H as [H|H];
                          try discriminate; try contradiction|]).
    constructor.
  - exact E.
Defined.

Lemma load_transactions_types_witness :
  exists df dates amounts,
    Ledger.load_transactions (map (fun _ => None)) [] Aggregator.january_raw
      = Ok df /\
    Ledger.column (lit "date") df = Some dates /\
    forallb Shape.is_time dates = true /\
    Ledger.column (lit "amount") df = Some amounts /\
    forallb Shape.is_float amounts = true /\
    forall c, In c [lit "payer"; lit "payee"; lit "purpose"] ->
      exists vals, Ledger.column c df = Some vals /\
                   forallb Shape.is_text vals = true.
Proof.
  assert (E : exists df,
             Ledger.load_transactions (map (fun _ => None)) []
               Aggregator.january_raw = Ok df)
    by (vm_compute; eexists; reflexivity).
  destruct E as [df E]. exists df.
  destruct (load_transactions_types (map (fun _ => None))
              (fun cells => length_map _ cells) [] Aggregator.january_raw df)
    as (dates & amounts & H).
  - repeat constructor.
  - repeat constructor.
  - repeat (constructor; [simpl; intros H; repeat destruct H as [H|H];
                          try discriminate; try contradiction|]).
    constructor.
  - exact E.
  - exists dates, amounts. split; [exact E | exact H].
Defined.



(** ** Details of a typed frame *)

Section DetailsTyped.
Import PyStr PyFloat Amount Ledger Hasher Store Aggregator Details Shape.

Variable float_repr : float -> str.
Variable timestamp_str : timestamp -> str.
Variable nat_as_text : bool.

Ltac labels_differ :=
  let H := fresh in intros H; cbv in H; discriminate.

Lemma assoc_combine (c : str) (cols : list str) : forall i (r : list value),
  index_of c cols = Some i -> length r = length cols ->
  assoc c (combine cols r) = Some (nth i r VNaN).
Proof.
  induction cols as [|d cols IH]; intros i r Hi Hlen; simpl in Hi;
    [discriminate|].
  destruct r as [|v r]; [discriminate|]. simpl.
  destruct (PyStr.eqb d c).
  - injection Hi as <-. reflexivity.
  - destruct (index_of c cols) as [j|]; [|discriminate].
    injection Hi as <-. simpl. apply IH; [reflexivity|].
    simpl in Hlen. lia.
Qed.

Lemma iterrows_lookup (c : str) (d : frame) vals :
  frame_wf d -> column c d = Some vals ->
  map (assoc c) (iterrows d) = map Some vals.
Proof.
  unfold frame_wf, column, iterrows. intros Hwf H.
  destruct (index_of c (columns d)) as [i|] eqn:Ei; [|discriminate].
  injection H as <-. rewrite !map_map. apply map_ext_in. intros r Hr.
  rewrite Forall_forall in Hwf. now apply assoc_combine; [|apply Hwf].
Qed.

Lemma lookup_In {R V} (f : R -> option V) (l : list R) : forall xs,
  map f l = map Some xs ->
  forall r, In r l -> exists v, f r = Some v /\ In v xs.
Proof.
  induction l as [|a l IH]; intros [|x xs] H r Hr; simpl in *;
    try discriminate; try contradiction.
  injection H as Hx H. destruct Hr as [<-|Hr]; [eauto|].
  destruct (IH xs H r Hr) as (v & ? & ?). eauto.
Qed.

Lemma lookup_pairs {R V} (f g : R -> option V) (l : list R) : forall xs ys,
  map f l = map Some xs -> map g l = map Some ys ->
  forall a b, In (a, b) (combine xs ys) <->
              exists r, In r l /\ f r = Some a /\ g r = Some b.
Proof.
  induction l as [|r l IH]; intros [|x xs] [|y ys] Hf Hg a b; simpl in *;
    try discriminate.
  - split; [contradiction | intros (r & [] & _)].
  - injection Hf as Hx Hf. injection Hg as Hy Hg.
    rewrite (IH xs ys Hf Hg a b). split.
    + intros [E | (r' & Hr' & H)].
      * injection E as <- <-. exists r. auto.
      * exists r'. auto.
    + intros (r' & [<- | Hr'] & Ha & Hb); [left; congruence | right; eauto].
Qed.

Lemma typed_rows (d : frame) dates amounts :
  frame_wf d ->
  column (lit "date") d = Some dates -> forallb is_time dates = true ->
  column (lit "amount") d = Some amounts -> forallb is_float amounts = true ->
  forall row, In row (iterrows d) -> row_typed row = true.
Proof.
  intros Hwf Hd Ht Ha Hf row Hin.
  destruct (lookup_In _ _ _ (iterrows_lookup _ d dates Hwf Hd) row Hin)
    as (dv & Ed & Hdv).
  destruct (lookup_In _ _ _ (iterrows_lookup _ d amounts Hwf Ha) row Hin)
    as (av & Ea & Hav).
  unfold row_typed. rewrite Ed, Ea.
  rewrite forallb_forall in Ht, Hf. specialize (Ht dv Hdv). specialize (Hf av Hav).
  destruct av; try discriminate. exact Ht.
Qed.

Lemma select_typed (test : float -> bool) (month_data : list series) :
  (forall row, In row month_data -> row_typed row = true) ->
  exists sel,
    select test month_data = Ok sel /\
    forall row, In row sel <->
                In row month_data /\
                exists x, assoc (lit "amount") row = Some (VFloat x) /\
                          test x = true.
Proof.
  induction month_data as [|row rest IH]; intros H.
  - exists []. split; [reflexivity|]. intros row.
    split; [contradiction | intros [[] _]].
  - destruct IH as (sel & Hs & Hin); [intros; apply H; now right|].
    pose proof (H row (or_introl eq_refl)) as Ht. unfold row_typed in Ht.
    destruct (assoc (lit "date") row) as [d|]; [|discriminate].
    destruct (assoc (lit "amount") row) as [[| |x| | |]|] eqn:Ea;
      try discriminate.
    cbn [select]. unfold row_item. rewrite Ea. cbn [bind amount_of].
    rewrite Hs. cbn [bind].
    eexists. split; [reflexivity|]. intros row'. destruct (test x) eqn:Et.
    + cbn [In]. rewrite Hin. split.
      * intros [<- | [Hr Hx]]; [split; [now left | eauto] | split; [now right | exact Hx]].
      * intros [[<- | Hr] Hx]; [now left | right; auto].
    + rewrite Hin. cbn [In]. split.
      * intros [Hr Hx]. split; [now right | exact Hx].
      * intros [[<- | Hr] Hx]; [|auto].
        destruct Hx as (x' & Ex & Hx). rewrite Ea in Ex. injection Ex as <-.
        congruence.
Qed.

Lemma entry_of_typed (party : str) (notes : annotations) (row : series) :
  row_typed row = true ->
  if without_date row
  then entry_of float_repr timestamp_str party notes row =
         Raise (ValueError (lit "NaTType does not support strftime"))
  else exists e, entry_of float_repr timestamp_str party notes row = Ok e.
Proof.
  unfold row_typed, without_date, entry_of, row_item. cbv zeta.
  destruct (assoc (lit "date") row) as [d|]; [|discriminate].
  destruct (assoc (lit "amount") row) as [[| |x| | |]|]; try discriminate.
  destruct d; try discriminate; intros _; cbn [bind strftime_md amount_of];
    eauto.
Qed.

Lemma apply_cases {A B} (f : A -> result B) (P : A -> bool) x (l : list A) :
  (forall a, In a l -> if P a then f a = Raise x else exists b, f a = Ok b) ->
  if existsb P l then Ledger.apply f l = Raise x
  else exists r, Ledger.apply f l = Ok r.
Proof.
  induction l as [|a l IH]; intros H; simpl; [eauto|].
  pose proof (H a (or_introl eq_refl)) as Ha.
  destruct (P a); simpl.
  - now rewrite Ha.
  - destruct Ha as [b ->]. cbn [bind].
    specialize (IH (fun a' Ha' => H a' (or_intror Ha'))).
    destruct (existsb P l).
    + now rewrite IH.
    + destruct IH as [r ->]. cbn [bind]. eauto.
Qed.

Lemma month_details_typed (notes : annotations) (all_rows : list series)
  (month : month) :
  (forall row, In row all_rows -> row_typed row = true) ->
  if existsb (fun row => in_month month row && stranded_row row) all_rows
  then month_details float_repr timestamp_str notes all_rows month =
         Raise (ValueError (lit "NaTType does not support strftime"))
  else exists r,
         month_details float_repr timestamp_str notes all_rows month = Ok r.
Proof.
  intros Htyped. unfold month_details. cbv zeta.
  set (month_data := filter (in_month month) all_rows).
  assert (Hmd : forall row, In row month_data -> row_typed row = true).
  { intros row Hr. apply filter_In in Hr as [Hr _]. now apply Htyped. }
  destruct (select_typed positive month_data Hmd) as (inc & -> & Hinc).
  destruct (select_typed negative month_data Hmd) as (exp & -> & Hexp).
  cbn [bind].
  assert (Hrow : forall test sel row,
            (forall r, In r sel <->
                       In r month_data /\
                       exists x, assoc (lit "amount") r = Some (VFloat x) /\
                                 test x = true) ->
            (forall x, test x = true -> listed x = true) ->
            In row sel -> without_date row = true ->
            In row all_rows /\ in_month month row && stranded_row row = true).
  { intros test sel row Hsel Htest Hr Hw. apply Hsel in Hr as [Hr (x & Ex & Hx)].
    apply filter_In in Hr as [Hr Hm]. split; [exact Hr|].
    rewrite Hm. unfold stranded_row. unfold without_date in Hw.
    destruct (assoc (lit "date") row) as [[]|]; try discriminate.
    rewrite Ex. simpl. now apply Htest. }
  assert (Hback : forall test sel row x,
            (forall r, In r sel <->
                       In r month_data /\
                       exists x, assoc (lit "amount") r = Some (VFloat x) /\
                                 test x = true) ->
            In row all_rows -> in_month month row = true ->
            assoc (lit "date") row = Some VNaT ->
            assoc (lit "amount") row = Some (VFloat x) -> test x = true ->
            existsb without_date sel = true).
  { intros test sel row x Hsel Hr Hm Ed Ea Hx. apply existsb_exists.
    exists row. split.
    - apply Hsel. split; [apply filter_In; auto | eauto].
    - unfold without_date. now rewrite Ed. }
  pose proof (apply_cases (entry_of float_repr timestamp_str (lit "payer") notes)
                without_date _ inc
                (fun row Hr => entry_of_typed (lit "payer") notes row
                                 (Hmd row (proj1 (proj1 (Hinc row) Hr))))) as Hp.
  pose proof (apply_cases (entry_of float_repr timestamp_str (lit "payee") notes)
                without_date _ exp
                (fun row Hr => entry_of_typed (lit "payee") notes row
                                 (Hmd row (proj1 (proj1 (Hexp row) Hr))))) as Hn.
  revert Hp.
  match goal with
  | |- (if ?b then _ else _) -> _ => destruct b eqn:Ep
  end; intros Hp.
  - rewrite Hp. cbn [bind].
    apply existsb_exists in Ep as (row & Hr & Hw).
    destruct (Hrow positive inc row Hinc) as [Hin Hbad]; auto.
    { intros x Hx. unfold listed. now rewrite Hx. }
    replace (existsb _ all_rows) with true; [reflexivity|].
    symmetry. apply existsb_exists. eauto.
  - destruct Hp as [income_list ->]. cbn [bind].
    revert Hn.
    match goal with
    | |- (if ?b then _ else _) -> _ => destruct b eqn:En
    end; intros Hn.
    + rewrite Hn. cbn [bind].
      apply existsb_exists in En as (row & Hr & Hw).
      destruct (Hrow negative exp row Hexp) as [Hin Hbad]; auto.
      { intros x Hx. unfold listed. rewrite Hx. apply orb_true_r. }
      replace (existsb _ all_rows) with true; [reflexivity|].
      symmetry. apply existsb_exists. eauto.
    + destruct Hn as [expense_list ->]. cbn [bind].
      replace (existsb _ all_rows) with false; [eauto|].
      symmetry. apply not_true_is_false. intros Hbad.
      apply existsb_exists in Hbad as (row & Hr & Hbad).
      apply andb_true_iff in Hbad as [Hm Hs]. unfold stranded_row in Hs.
      destruct (assoc (lit "date") row) as [d|] eqn:Ed; [|discriminate].
      destruct (assoc (lit "amount") row) as [a|] eqn:Ea; [|discriminate].
      destruct d; try discriminate. destruct a; try discriminate.
      simpl in Hs. unfold listed in Hs. apply orb_true_iff in Hs as [Hx|Hx].
      * exact (eq_true_false_abs _ (Hback positive inc row x Hinc Hr Hm Ed Ea Hx) Ep).
      * exact (eq_true_false_abs _ (Hback negative exp row x Hexp Hr Hm Ed Ea Hx) En).
Qed.

Lemma In_unique (x : month) (l : list month) : In x l -> In x (unique l).
Proof.
  induction l as [|a l IH]; simpl; [auto|]. intros H.
  destruct (month_eqb x a) eqn:E.
  - apply month_eqb_true in E. now left.
  - right. apply filter_In. split.
    + destruct H as [->|H]; [|now apply IH].
      now rewrite month_eqb_refl in E.
    + now rewrite E.
Qed.

(** Two columns of which one is a function of the other, row by row. *)
Lemma lookup_map {R V} (f g : R -> option V) (h : V -> V) (l : list R) :
  forall xs,
  map f l = map Some xs -> map g l = map Some (map h xs) ->
  forall r, In r l -> exists x, f r = Some x /\ g r = Some (h x).
Proof.
  induction l as [|a l IH]; intros [|x xs] Hf Hg r Hr; simpl in *;
    try discriminate; try contradiction.
  injection Hf as Hx Hf. injection Hg as Hy Hg.
  destruct Hr as [<-|Hr]; [eauto|]. now apply (IH xs).
Qed.

Lemma to_period_typed (dates : list value) :
  forallb is_time dates = true ->
  Ledger.apply to_period dates = Ok (map period_value dates).
Proof.
  induction dates as [|v l IH]; simpl; [reflexivity|].
  intros H. apply andb_true_iff in H as [Hv Hl]. rewrite (IH Hl).
  destruct v; try discriminate; reflexivity.
Qed.

(** On a frame whose date column holds timestamps and [NaT] and whose
    amount column holds floats, and with an annotation file that loads,
    [prepare_transaction_details] raises exactly when the months of the rows
    without date are the text ['NaT'] and one of these rows has an amount
    that is listed. *)
Lemma prepare_typed (store : file) (notes : annotations)
  (df : frame) (dates amounts : list value) :
  frame_wf df ->
  column (lit "date") df = Some dates -> forallb is_time dates = true ->
  column (lit "amount") df = Some amounts -> forallb is_float amounts = true ->
  load_annotations store = Ok notes ->
  if nat_as_text && stranded dates amounts
  then prepare_transaction_details float_repr timestamp_str nat_as_text store df =
         Raise (ValueError (lit "NaTType does not support strftime"))
  else exists r,
         prepare_transaction_details float_repr timestamp_str nat_as_text store df =
           Ok r.
Proof.
  intros Hwf Hd Ht Ha Hf Hnotes.
  unfold prepare_transaction_details, get_column. rewrite Hd. cbn [bind].
  rewrite (to_period_typed dates Ht). cbn [bind]. cbv zeta.
  rewrite Hnotes. cbn [bind].
  set (month_at := fun d => month_cell
                     (month_of float_repr timestamp_str nat_as_text (period_value d))).
  set (months := map (month_of float_repr timestamp_str nat_as_text)
                     (map period_value dates)).
  assert (Hcells : map month_cell months = map month_at dates).
  { unfold months, month_at. now rewrite !map_map. }
  set (df' := set_column (lit "YearMonth") (map month_cell months) df).
  assert (Hlen : length (map month_cell months) = length (rows df)).
  { unfold months. rewrite !length_map. now apply (column_length (lit "date")). }
  assert (Hwf' : frame_wf df') by now apply frame_wf_set_column.
  assert (Hd' : column (lit "date") df' = Some dates).
  { unfold df'. rewrite column_set_column_other; auto. labels_differ. }
  assert (Ha' : column (lit "amount") df' = Some amounts).
  { unfold df'. rewrite column_set_column_other; auto. labels_differ. }
  assert (Hm' : column (lit "YearMonth") df' = Some (map month_at dates)).
  { rewrite <- Hcells. now apply column_set_column_same. }
  change (map (fun r => combine (columns df') r) (rows df')) with (iterrows df').
  pose proof (typed_rows df' dates amounts Hwf' Hd' Ht Ha' Hf) as Htyped.
  pose proof (apply_cases
                (month_details float_repr timestamp_str notes (iterrows df'))
                (fun month => existsb (fun row => in_month month row && stranded_row row)
                                      (iterrows df'))
                (ValueError (lit "NaTType does not support strftime"))
                (unique months)
                (fun month _ => month_details_typed notes (iterrows df') month Htyped))
    as Hall.
  pose proof (iterrows_lookup _ df' dates Hwf' Hd') as HD.
  pose proof (iterrows_lookup _ df' amounts Hwf' Ha') as HA.
  pose proof (iterrows_lookup _ df' _ Hwf' Hm') as HM.
  assert (Hpairs := lookup_pairs _ _ _ _ _ HD HA).
  assert (Hmonth := lookup_map _ _ month_at _ _ HD HM).
  assert (E : existsb (fun month =>
                         existsb (fun row => in_month month row && stranded_row row)
                                 (iterrows df')) (unique months)
              = nat_as_text && stranded dates amounts).
  { unfold stranded. apply eq_true_iff_eq.
    rewrite andb_true_iff, !existsb_exists. split.
    - intros (month & _ & H). apply existsb_exists in H as (row & Hr & H).
      apply andb_true_iff in H as [Hin Hs]. unfold stranded_row in Hs.
      destruct (Hmonth row Hr) as (d & Ed & Em).
      rewrite Ed in Hs.
      destruct (assoc (lit "amount") row) as [a|] eqn:Ea; [|discriminate].
      split.
      + unfold in_month in Hin. rewrite Em in Hin.
        destruct d; try discriminate. unfold month_at in Hin.
        destruct nat_as_text; [reflexivity|].
        cbn in Hin. destruct month; discriminate.
      + exists (d, a). split; [|exact Hs]. apply Hpairs. eauto.
    - intros [Hnat ([d a] & Hin & Hs)].
      apply Hpairs in Hin as (row & Hr & Ed & Ea).
      destruct (Hmonth row Hr) as (d' & Ed' & Em).
      assert (d' = d) by congruence. subst d'.
      assert (Hd0 : d = VNaT).
      { destruct d; try discriminate. reflexivity. }
      subst d. unfold month_at in Em.
      cbn [period_value month_of month_cell] in Em. rewrite Hnat in Em.
      cbn [month_cell] in Em.
      exists (Some (lit "NaT")). split.
      + apply In_unique. unfold months. apply in_map_iff.
        exists VNaT. split; [simpl; now rewrite Hnat|].
        apply in_map_iff. exists VNaT. split; [reflexivity|].
        destruct (lookup_In _ _ _ HD row Hr) as (v & Ev & Hv). congruence.
      + apply existsb_exists. exists row. split; [exact Hr|].
        unfold in_month, stranded_row. rewrite Em, Ed, Ea.
        apply andb_true_iff. split; [reflexivity | exact Hs]. }
  rewrite E in Hall. revert Hall.
  destruct (nat_as_text && stranded dates amounts); intros Hall.
  - now rewrite Hall.
  - destruct Hall as [details ->]. cbn [bind]. eauto.
Qed.

(** X18.  On a frame whose date column holds timestamps and [NaT] and whose
    amount column holds floats, as [load_transactions] returns it, and with
    an annotation file that loads, what [prepare_transaction_details] does
    with the rows that have no date depends on pandas.  Where a missing
    month becomes the text ['NaT'] (pandas 2), it raises exactly when some
    row has no date and an amount that is strictly positive or strictly
    negative, and the error is then that of [NaT.strftime]; a row without
    date whose amount is zero is harmless.  Where the month stays missing
    (pandas 3), it never raises. *)
Theorem transaction_details_stranded (store : file) (notes : annotations)
  (df : frame) (dates amounts : list value) :
  frame_wf df ->
  column (lit "date") df = Some dates -> forallb is_time dates = true ->
  column (lit "amount") df = Some amounts -> forallb is_float amounts = true ->
  load_annotations store = Ok notes ->
  if nat_as_text
  then if stranded dates amounts
       then prepare_transaction_details float_repr timestamp_str nat_as_text store df =
              Raise (ValueError (lit "NaTType does not support strftime"))
       else exists r,
              prepare_transaction_details float_repr timestamp_str nat_as_text store df =
                Ok r
  else exists r,
         prepare_transaction_details float_repr timestamp_str nat_as_text store df =
           Ok r.
Proof.
  intros Hwf Hd Ht Ha Hf Hnotes.
  pose proof (prepare_typed store notes df dates amounts Hwf Hd Ht Ha Hf Hnotes)
    as H.
  destruct nat_as_text; exact H.
Qed.

End DetailsTyped.

Lemma transaction_details_stranded_witness :
  Details.prepare_transaction_details (fun _ => []) (fun _ => []) true None
    {| Ledger.columns := [lit "date"; lit "amount"];
       Ledger.rows :=
         [[Ledger.VTime {| Ledger.ts_year := 2024; Ledger.ts_month := 1;
                           Ledger.ts_day := 15; Ledger.ts_nanos := 0 |};
           Ledger.VFloat (PyFloat.of_decimal false 10 0)];
          [Ledger.VNaT; Ledger.VFloat (PyFloat.of_decimal true 5 0)]] |} =
  Raise (ValueError (lit "NaTType does not support strftime")).
Proof.
  apply (transaction_details_stranded (fun _ => []) (fun _ => []) true None []
           {| Ledger.columns := [lit "date"; lit "amount"];
              Ledger.rows :=
                [[Ledger.VTime {| Ledger.ts_year := 2024; Ledger.ts_month := 1;
                                  Ledger.ts_day := 15; Ledger.ts_nanos := 0 |};
                  Ledger.VFloat (PyFloat.of_decimal false 10 0)];
                 [Ledger.VNaT; Ledger.VFloat (PyFloat.of_decimal true 5 0)]] |}
           [Ledger.VTime {| Ledger.ts_year := 2024; Ledger.ts_month := 1;
                            Ledger.ts_day := 15; Ledger.ts_nanos := 0 |};
            Ledger.VNaT]
           [Ledger.VFloat (PyFloat.of_decimal false 10 0);
            Ledger.VFloat (PyFloat.of_decimal true 5 0)]).
  - repeat constructor.
  - reflexivity.
  - reflexivity.
  - reflexivity.
  - reflexivity.
  - reflexivity.
Defined.

(** The same frame where the month of a row without date stays missing:
    nothing is raised and the row is listed nowhere. *)
Example details_month_missing :
  exists df' details,
  Details.prepare_transaction_details (fun _ => []) (fun _ => []) false None
    {| Ledger.columns := [lit "date"; lit "amount"];
       Ledger.rows :=
         [[Ledger.VTime {| Ledger.ts_year := 2024; Ledger.ts_month := 1;
                           Ledger.ts_day := 15; Ledger.ts_nanos := 0 |};
           Ledger.VFloat (PyFloat.of_decimal false 10 0)];
          [Ledger.VNaT; Ledger.VFloat (PyFloat.of_decimal true 5 0)]] |} =
  Ok (df', details) /\
  map (fun md => (fst md, length (Details.income (snd md)),
                  length (Details.expenses (snd md)))) details =
  [(Some (lit "2024-01"), 1%nat, 0%nat); (None, 0%nat, 0%nat)].
Proof. eexists. eexists. split; vm_compute; reflexivity. Qed.

(** ** Amounts with more than one comma *)

Section AmountMore.
Import PyStr PyFloat Amount.

Lemma replace_cons old new (x : ascii) (s : str) :
  replace old new (x :: s) =
  (if eqc x old then new else [x]) ++ replace old new s.
Proof. reflexivity. Qed.

Lemma replace_comma_body s :
  every digit_or_dot s -> replace "," (lit ".") s = s.
Proof.
  induction 1 as [|c s Hc _ IH]; [reflexivity|].
  rewrite replace_cons, (body_not_comma c Hc), IH. reflexivity.
Qed.

Lemma digits_of_app a b : digits_of (a ++ b) = digits_of a ++ digits_of b.
Proof. apply filter_app. Qed.

Lemma strtod_two_points da db dc :
  every is_digit da -> every is_digit db -> every is_digit dc ->
  strtod (da ++ "."%char :: db ++ "."%char :: dc) =
  match da ++ db with
  | [] => None
  | ds => Some (of_decimal false (digits_val ds) (0 - Z.of_nat (length db)),
                "."%char :: dc)
  end.
Proof.
  intros Ha Hb Hc. unfold strtod.
  rewrite take_sign_body.
  2:{ apply Forall_app. split; [now apply every_body_of_digits|].
      constructor; [reflexivity|]. apply Forall_app.
      split; [now apply every_body_of_digits|].
      constructor; [reflexivity | now apply every_body_of_digits]. }
  rewrite (span_digits_app da ("."%char :: db ++ "."%char :: dc))
    by (auto; reflexivity).
  change (eqc "." ".") with true. cbv iota.
  rewrite (span_digits_app db ("."%char :: dc)) by (auto; reflexivity).
  destruct (da ++ db); reflexivity.
Qed.

Lemma py_float_two_points da db dc :
  every is_digit da -> every is_digit db -> every is_digit dc ->
  py_float (da ++ "."%char :: db ++ "."%char :: dc) = None.
Proof.
  intros Ha Hb Hc.
  assert (Hbody : every digit_or_dot (da ++ "."%char :: db ++ "."%char :: dc)).
  { apply Forall_app. split; [now apply every_body_of_digits|].
    constructor; [reflexivity|]. apply Forall_app.
    split; [now apply every_body_of_digits|].
    constructor; [reflexivity | now apply every_body_of_digits]. }
  unfold py_float.
  rewrite map_transform_body by assumption.
  rewrite drop_underscores_body by (auto; reflexivity).
  rewrite strip_c_body by assumption.
  rewrite strtod_two_points by assumption.
  destruct (da ++ db) as [|d ds] eqn:E; [|reflexivity].
  apply app_eq_nil in E as [-> ->]. reflexivity.
Qed.

(** X19.  A text with two commas, such as "1,234,567", is not rejected: the
    first [float()] fails on it, and the fallback, which turns the commas
    into dots and then removes every dot, reads the digits of the whole
    text as one integer. *)
Theorem parse_german_amount_two_commas (a b c : str) :
  forallb digit_or_dot a = true ->
  forallb digit_or_dot b = true ->
  forallb digit_or_dot c = true ->
  digits_of a ++ digits_of b ++ digits_of c <> [] ->
  parse_german_amount (Some (a ++ ","%char :: b ++ ","%char :: c)) =
    Ok (of_decimal false
          (digits_val (digits_of a ++ digits_of b ++ digits_of c)) 0).
Proof.
  intros Ha Hb Hc Hne. apply every_forallb in Ha, Hb, Hc.
  set (s := a ++ ","%char :: b ++ ","%char :: c).
  assert (Hs : s <> []) by (unfold s; destruct a; discriminate).
  assert (Hplain : every (fun x => negb (is_space x)) s).
  { assert (Hbody : forall t, every digit_or_dot t ->
                              every (fun x => negb (is_space x)) t).
    { intros t. apply Forall_impl. intros x Hx. apply negb_true_iff.
      now apply body_not_space. }
    unfold s. apply Forall_app. split; [now apply Hbody|].
    constructor; [reflexivity|]. apply Forall_app. split; [now apply Hbody|].
    constructor; [reflexivity | now apply Hbody]. }
  assert (Hstrip : strip s = s).
  { pose proof (strip_core [] s [] (Forall_nil _) (Forall_nil _) Hplain) as H.
    now rewrite app_nil_r in H. }
  assert (Hstart : startswith "-" s = false).
  { unfold s. destruct Ha as [|x a' Hx _]; [reflexivity|].
    simpl. apply (body_not_sign x Hx). }
  assert (Hprimary : primary_text s =
            digits_of a ++ "."%char :: digits_of b ++ "."%char :: digits_of c).
  { unfold primary_text. rewrite Hstrip, Hstart. unfold s.
    repeat (rewrite replace_app || rewrite replace_cons).
    rewrite (replace_dots a), (replace_dots b), (replace_dots c) by assumption.
    change (eqc "," ".") with false. cbv iota.
    repeat (rewrite replace_app || rewrite replace_cons).
    rewrite (replace_comma_digits (digits_of a)),
      (replace_comma_digits (digits_of b)),
      (replace_comma_digits (digits_of c)) by apply every_digits_of.
    reflexivity. }
  rewrite parse_german_amount_attempts by assumption.
  rewrite Hprimary, py_float_two_points by apply every_digits_of.
  unfold fallback, s.
  repeat (rewrite replace_app || rewrite replace_cons).
  rewrite (replace_comma_body a), (replace_comma_body b),
    (replace_comma_body c) by assumption.
  change (eqc "," ",") with true. cbv iota.
  repeat (rewrite replace_app || rewrite replace_cons).
  rewrite (replace_dots a), (replace_dots b), (replace_dots c) by assumption.
  change (replace "." [] (lit ".")) with (@nil ascii).
  change (replace "." [] []) with (@nil ascii).
  cbn [app].
  rewrite (py_float_body _ (of_decimal false
             (digits_val (digits_of a ++ digits_of b ++ digits_of c)) 0)).
  - reflexivity.
  - apply every_body_of_digits. repeat (apply Forall_app; split);
      apply every_digits_of.
  - apply strtod_integer; [|assumption].
    repeat (apply Forall_app; split); apply every_digits_of.
Qed.

Lemma parse_german_amount_two_commas_witness :
  parse_german_amount (Some (lit "1" ++ ","%char :: lit "234" ++ ","%char :: lit "567")) =
    Ok (of_decimal false
          (digits_val (digits_of (lit "1") ++ digits_of (lit "234")
                         ++ digits_of (lit "567"))) 0).
Proof.
  apply (parse_german_amount_two_commas (lit "1") (lit "234") (lit "567")).
  - reflexivity.
  - reflexivity.
  - reflexivity.
  - discriminate.
Defined.

(** The value of the witness: "1,234,567" is read as 1234567.0. *)
Example two_commas_value :
  lit "1" ++ ","%char :: lit "234" ++ ","%char :: lit "567" = lit "1,234,567"
  /\ of_decimal false
       (digits_val (digits_of (lit "1") ++ digits_of (lit "234")
                      ++ digits_of (lit "567"))) 0
     = S754_finite false 5302424889720832 (-32)
  /\ (5302424889720832 = 1234567 * 2 ^ 32)%Z.
Proof. repeat split; vm_compute; reflexivity. Qed.

End AmountMore.

(** ** The frame shared by the summary and the details *)

Section SharedFrame.
Import PyStr PyFloat Amount Ledger Hasher Store Aggregator Details Shape.

Variable float_repr : float -> str.
Variable timestamp_str : timestamp -> str.
Variable nat_as_text : bool.
Variable minus_zero : bool.

Lemma set_nth_set_nth {A} (i : nat) (x y : A) (l : list A) :
  set_nth i y (set_nth i x l) = set_nth i y l.
Proof.
  revert i. induction l as [|a l IH]; intros [|i]; simpl; auto.
  now rewrite IH.
Qed.

Lemma set_nth_last {A} (x y : A) (l : list A) :
  set_nth (length l) y (l ++ [x]) = l ++ [y].
Proof. induction l as [|a l IH]; simpl; auto. now rewrite IH. Qed.

Lemma set_column_twice (c : str) (v1 v2 : list value) (d : frame) :
  frame_wf d -> length v1 = length (rows d) -> length v2 = length (rows d) ->
  set_column c v2 (set_column c v1 d) = set_column c v2 d.
Proof.
  unfold frame_wf, set_column. intros Hwf H1 H2.
  destruct (index_of c (columns d)) as [i|] eqn:Ei; cbn [columns rows].
  - rewrite Ei. f_equal. clear Hwf.
    revert v1 v2 H1 H2. induction (rows d) as [|r rs IH];
      intros [|x v1] [|y v2] H1 H2; simpl in *; try discriminate; auto.
    rewrite set_nth_set_nth. f_equal. apply IH; lia.
  - rewrite (index_of_app_new c _ Ei). f_equal.
    revert v1 v2 H1 H2. induction Hwf as [|r rs Hr _ IH];
      intros [|x v1] [|y v2] H1 H2; simpl in *; try discriminate; auto.
    replace (set_nth (length (columns d)) y (r ++ [x])) with (r ++ [y])
      by (rewrite <- Hr; symmetry; apply set_nth_last).
    f_equal. apply IH; lia.
Qed.

(** X20.  [get_monthly_summary] leaves its [YearMonth] column of periods in
    the caller's frame, and [root] passes that frame on; the details are
    the same as on the frame as it was loaded, because
    [prepare_transaction_details] overwrites the column with the month
    names before it hashes a row. *)
Theorem details_after_summary (store : file) (df df' : frame)
  (bs : list bucket) :
  frame_wf df ->
  get_monthly_summary minus_zero df = Ok (df', bs) ->
  prepare_transaction_details float_repr timestamp_str nat_as_text store df' =
  prepare_transaction_details float_repr timestamp_str nat_as_text store df.
Proof.
  intros Hwf H. unfold get_monthly_summary, get_column in H.
  destruct (column (lit "date") df) as [dates|] eqn:Hd; cbn [bind] in H;
    [|discriminate].
  destruct (Ledger.apply to_period dates) as [periods|] eqn:Hp; cbn [bind] in H;
    [|discriminate].
  cbv zeta in H.
  assert (Hlen : length periods = length (rows df)).
  { apply apply_Ok in Hp. apply Forall2_length in Hp. rewrite <- Hp.
    now apply (column_length (lit "date")). }
  assert (Hdf : df' = set_column (lit "YearMonth") periods df).
  { destruct (group_keys periods); [injection H as <- _; reflexivity|].
    destruct (column (lit "amount") _); cbn [bind] in H; [|discriminate].
    destruct (Ledger.apply _ (_ :: _)); cbn [bind] in H; [|discriminate].
    injection H as <- _. reflexivity. }
  clear H. subst df'.
  unfold prepare_transaction_details, get_column.
  rewrite column_set_column_other;
    [| exact Hwf | exact Hlen | intros E; cbv in E; discriminate].
  rewrite Hd. cbn [bind]. rewrite Hp. cbn [bind]. cbv zeta.
  rewrite set_column_twice; [reflexivity | exact Hwf | exact Hlen |].
  rewrite !length_map. exact Hlen.
Qed.

End SharedFrame.

Lemma details_after_summary_witness :
  Details.prepare_transaction_details (fun _ => []) (fun _ => []) true None
    (Ledger.set_column (lit "YearMonth")
       [Ledger.VPeriod 648; Ledger.VPeriod 648; Ledger.VPeriod 648]
       Aggregator.january) =
  Details.prepare_transaction_details (fun _ => []) (fun _ => []) true None
    Aggregator.january.
Proof.
  apply (details_after_summary (fun _ => []) (fun _ => []) true false None
           Aggregator.january
           (Ledger.set_column (lit "YearMonth")
              [Ledger.VPeriod 648; Ledger.VPeriod 648; Ledger.VPeriod 648]
              Aggregator.january)
           [{| Aggregator.YearMonth := 648;
               Aggregator.Income := S754_finite false 5404319552844596 (-54);
               Aggregator.Expenses := S754_finite true 5404319552844595 (-54);
               Aggregator.Net := S754_finite false 4503599627370496 (-107) |}]).
  - repeat constructor.
  - vm_compute. reflexivity.
Defined.

(** ** Every transaction is listed once *)

Section DetailsCount.
Import PyStr PyFloat Amount Ledger Hasher Store Aggregator Details Shape.

Variable float_repr : float -> str.
Variable timestamp_str : timestamp -> str.
Variable nat_as_text : bool.

Lemma select_filter (test : float -> bool) (month_data : list series) :
  (forall row, In row month_data ->
               exists x, assoc (lit "amount") row = Some (VFloat x)) ->
  select test month_data =
  Ok (filter (fun row => match assoc (lit "amount") row with
                         | Some (VFloat x) => test x
                         | _ => false
                         end) month_data).
Proof.
  induction month_data as [|row rest IH]; intros H; [reflexivity|].
  destruct (H row (or_introl eq_refl)) as [x Ex].
  cbn [select filter]. unfold row_item. rewrite Ex. cbn [bind amount_of].
  rewrite IH by (intros r Hr; apply H; now right). cbn [bind].
  now destruct (test x).
Qed.

Lemma filter_split_count {A} (q p n : A -> bool) (l : list A) :
  (forall a, p a = true -> n a = false) ->
  (length (filter p (filter q l)) + length (filter n (filter q l)))%nat =
  length (filter (fun a => q a && (p a || n a)) l).
Proof.
  intros Hpn. induction l as [|a l IH]; [reflexivity|].
  cbn [filter]. destruct (q a); cbn [filter andb]; [|exact IH].
  destruct (p a) eqn:Ep; cbn [orb].
  - rewrite (Hpn a Ep). cbn [length]. lia.
  - destruct (n a); cbn [length]; lia.
Qed.

Lemma month_details_count (notes : annotations) (all_rows : list series)
  (month : month) r :
  (forall row, In row all_rows ->
               exists x, assoc (lit "amount") row = Some (VFloat x)) ->
  month_details float_repr timestamp_str notes all_rows month = Ok r ->
  entries (snd r) =
  length (filter (fun row => in_month month row && listed_row row) all_rows).
Proof.
  intros Hrows. unfold month_details. cbv zeta.
  assert (Hmd : forall row, In row (filter (in_month month) all_rows) ->
                  exists x, assoc (lit "amount") row = Some (VFloat x)).
  { intros row Hr. apply filter_In in Hr as [Hr _]. now apply Hrows. }
  rewrite !select_filter by exact Hmd. cbn [bind].
  destruct (Ledger.apply _ _) as [income_list|] eqn:Ei; cbn [bind];
    [|discriminate].
  destruct (Ledger.apply _ _) as [expense_list|] eqn:Ee in |- *; cbn [bind];
    [|discriminate].
  intros H. injection H as <-. unfold entries. cbn [snd income expenses].
  rewrite (apply_length _ _ _ Ei), (apply_length _ _ _ Ee).
  rewrite filter_split_count.
  - f_equal. apply filter_ext_in. intros row Hr. f_equal.
    destruct (Hrows row Hr) as [x Ex]. unfold listed_row. rewrite Ex.
    reflexivity.
  - intros row. destruct (assoc (lit "amount") row) as [[| |x| | |]|];
      try discriminate. apply positive_not_negative.
Qed.

Lemma list_sum_zero {A} (l : list A) : list_sum (map (fun _ => O) l) = O.
Proof. induction l; simpl; auto. Qed.

Lemma list_sum_add {A} (f g : A -> nat) (l : list A) :
  list_sum (map (fun a => f a + g a)%nat l) =
  (list_sum (map f l) + list_sum (map g l))%nat.
Proof. induction l as [|a l IH]; simpl; [reflexivity|]. rewrite IH. lia. Qed.

Lemma count_none (k : month) (ms : list month) :
  ~ In k ms ->
  list_sum (map (fun m => if month_eqb k m then 1%nat else O) ms) = O.
Proof.
  induction ms as [|m ms IH]; intros H; simpl; [reflexivity|].
  destruct (month_eqb k m) eqn:E.
  - apply month_eqb_true in E. exfalso. apply H. now left.
  - apply IH. intros Hin. apply H. now right.
Qed.

Lemma count_one (k : month) (ms : list month) :
  NoDup ms -> In k ms ->
  list_sum (map (fun m => if month_eqb k m then 1%nat else O) ms) = 1%nat.
Proof.
  induction 1 as [|m ms Hm Hnd IH]; intros Hin; [destruct Hin|].
  simpl. destruct (month_eqb k m) eqn:E.
  - apply month_eqb_true in E. subst. now rewrite count_none.
  - destruct Hin as [->|Hin]; [now rewrite month_eqb_refl in E|]. now apply IH.
Qed.

(** Every row whose month is a text is in the group of one month, and a row
    whose month is missing is in none. *)
Lemma partition_count (Q : series -> bool) (ms : list month)
  (all_rows : list series) :
  NoDup ms ->
  (forall row name, In row all_rows ->
     assoc (lit "YearMonth") row = Some (VStr name) -> In (Some name) ms) ->
  list_sum (map (fun m => length (filter (fun row => in_month m row && Q row)
                                         all_rows)) ms) =
  length (filter (fun row => named_month row && Q row) all_rows).
Proof.
  intros Hnd. induction all_rows as [|row rest IH]; intros H.
  - apply list_sum_zero.
  - specialize (IH (fun r name Hr => H r name (or_intror Hr))).
    assert (Hrow : exists k : option month,
              named_month row = (match k with Some _ => true | None => false end) /\
              (forall m, in_month m row =
                         match k with Some k => month_eqb k m | None => false end) /\
              (forall k', k = Some k' -> In k' ms)).
    { unfold named_month, in_month.
      destruct (assoc (lit "YearMonth") row) as [[name| | | | |]|] eqn:Ek;
        try (exists None; repeat split; try discriminate;
             intros [m|]; reflexivity).
      exists (Some (Some name)). split; [reflexivity|]. split.
      - intros [m|]; reflexivity.
      - intros k' Hk. injection Hk as <-.
        now apply (H row name (or_introl eq_refl)). }
    destruct Hrow as (k & Hnamed & Hin & Hk).
    rewrite (map_ext
               (fun m => length (filter (fun row => in_month m row && Q row)
                                        (row :: rest)))
               (fun m => ((if match k with
                              | Some k => month_eqb k m
                              | None => false
                              end && Q row then 1 else 0) +
                          length (filter (fun row => in_month m row && Q row)
                                         rest))%nat)).
    2:{ intros m. cbn [filter]. rewrite Hin.
        destruct (_ && Q row); reflexivity. }
    rewrite list_sum_add, IH. cbn [filter]. rewrite Hnamed.
    destruct k as [k|].
    + destruct (Q row); cbn [andb length].
      * rewrite (map_ext _ (fun m => if month_eqb k m then 1%nat else O))
          by (intros m; now rewrite andb_true_r).
        rewrite count_one; auto.
      * rewrite (map_ext _ (fun _ => O))
          by (intros m; now rewrite andb_false_r).
        now rewrite list_sum_zero.
    + cbn [andb]. now rewrite list_sum_zero.
Qed.

Lemma lookup_count {R V} (f g : R -> option V) (P : V * V -> bool)
  (l : list R) : forall xs ys,
  map f l = map Some xs -> map g l = map Some ys ->
  length (filter (fun r => match f r, g r with
                           | Some a, Some b => P (a, b)
                           | _, _ => false
                           end) l) = length (filter P (combine xs ys)).
Proof.
  induction l as [|r l IH]; intros [|x xs] [|y ys] Hf Hg; simpl in *;
    try discriminate; [reflexivity|].
  injection Hf as Hx Hf. injection Hg as Hy Hg. rewrite Hx, Hy.
  destruct (P (x, y)); simpl; now rewrite (IH xs ys).
Qed.

(** X21.  On a frame whose date column holds timestamps and [NaT] and whose
    amount column holds floats, the details that
    [prepare_transaction_details] returns hold, over all months and both
    lists, exactly as many entries as the frame has rows with a date and a
    strictly positive or strictly negative amount: each such row is listed
    once, in one month, and the rows whose amount is zero or NaN, and those
    without date, are listed nowhere. *)
Theorem transaction_details_count (store : file) (df df' : frame)
  (details : list (month * month_detail)) (dates amounts : list value) :
  frame_wf df ->
  column (lit "date") df = Some dates -> forallb is_time dates = true ->
  column (lit "amount") df = Some amounts -> forallb is_float amounts = true ->
  prepare_transaction_details float_repr timestamp_str nat_as_text store df =
    Ok (df', details) ->
  list_sum (map (fun md => entries (snd md)) details) =
  length (filter dated_pair (combine dates amounts)).
Proof.
  intros Hwf Hd Ht Ha Hf Hok.
  assert (Hstr : nat_as_text && stranded dates amounts = false).
  { destruct (load_annotations store) as [notes|e] eqn:Hnotes.
    - pose proof (prepare_typed float_repr timestamp_str nat_as_text store notes
                    df dates amounts Hwf Hd Ht Ha Hf Hnotes) as H.
      destruct (nat_as_text && stranded dates amounts); [congruence|reflexivity].
    - exfalso. revert Hok. unfold prepare_transaction_details, get_column.
      rewrite Hd. cbn [bind]. rewrite (to_period_typed dates Ht). cbn [bind].
      cbv zeta. rewrite Hnotes. discriminate. }
  revert Hok. unfold prepare_transaction_details, get_column.
  rewrite Hd. cbn [bind]. rewrite (to_period_typed dates Ht). cbn [bind].
  cbv zeta.
  destruct (load_annotations store) as [notes|]; cbn [bind]; [|discriminate].
  set (month_at := fun d => month_cell
                     (month_of float_repr timestamp_str nat_as_text (period_value d))).
  set (months := map (month_of float_repr timestamp_str nat_as_text)
                     (map period_value dates)).
  assert (Hcells : map month_cell months = map month_at dates).
  { unfold months, month_at. now rewrite !map_map. }
  set (df1 := set_column (lit "YearMonth") (map month_cell months) df).
  change (map (fun r => combine (columns df1) r) (rows df1)) with (iterrows df1).
  destruct (Ledger.apply _ (unique months)) as [ds|] eqn:Hds; cbn [bind];
    [|discriminate].
  intros H. injection H as _ <-.
  assert (Hlen : length (map month_cell months) = length (rows df)).
  { unfold months. rewrite !length_map. now apply (column_length (lit "date")). }
  assert (Hwf1 : frame_wf df1) by now apply frame_wf_set_column.
  assert (Hd1 : column (lit "date") df1 = Some dates).
  { unfold df1. rewrite column_set_column_other; auto.
    intros E. cbv in E. discriminate. }
  assert (Ha1 : column (lit "amount") df1 = Some amounts).
  { unfold df1. rewrite column_set_column_other; auto.
    intros E. cbv in E. discriminate. }
  assert (Hm1 : column (lit "YearMonth") df1 = Some (map month_at dates)).
  { rewrite <- Hcells. now apply column_set_column_same. }
  pose proof (iterrows_lookup _ df1 _ Hwf1 Hd1) as HD.
  pose proof (iterrows_lookup _ df1 _ Hwf1 Ha1) as HA.
  pose proof (iterrows_lookup _ df1 _ Hwf1 Hm1) as HM.
  assert (Hmonth := lookup_map _ _ month_at _ _ HD HM).
  assert (Hrows : forall row, In row (iterrows df1) ->
                    exists x, assoc (lit "amount") row = Some (VFloat x)).
  { intros row Hr. destruct (lookup_In _ _ _ HA row Hr) as (v & Ev & Hv).
    rewrite forallb_forall in Hf. specialize (Hf v Hv).
    destruct v; try discriminate. eauto. }
  assert (Hsum : list_sum (map (fun md => entries (snd md)) ds) =
                 list_sum (map (fun m =>
                   length (filter (fun row => in_month m row && listed_row row)
                                  (iterrows df1))) (unique months))).
  { apply apply_Ok in Hds.
    induction Hds as [|m r ms ds' Hr _ IH]; [reflexivity|].
    simpl. rewrite IH. f_equal.
    now apply (month_details_count notes (iterrows df1) m r). }
  rewrite Hsum, (partition_count listed_row).
  - rewrite <- (lookup_count (assoc (lit "date")) (assoc (lit "amount"))
                  dated_pair (iterrows df1) dates amounts HD HA).
    f_equal. apply filter_ext_in. intros row Hr.
    destruct (Hmonth row Hr) as (d & Ed & Em).
    destruct (Hrows row Hr) as (x & Ex).
    destruct (lookup_In _ _ _ HD row Hr) as (d' & Ed' & Hd').
    assert (d' = d) by congruence. subst d'.
    rewrite forallb_forall in Ht. specialize (Ht d Hd').
    unfold named_month, listed_row. rewrite Em, Ed, Ex.
    unfold month_at.
    destruct d; try discriminate; cbn [period_value month_of month_cell dated_pair
                                       listed_value andb]; [reflexivity|].
    destruct nat_as_text; cbn [month_cell andb]; [|reflexivity].
    apply not_true_is_false. intros Hx. unfold stranded in Hstr.
    cbn [andb] in Hstr.
    assert (Hex : existsb stranded_pair (combine dates amounts) = true).
    { apply existsb_exists. exists (VNaT, VFloat x). split; [|exact Hx].
      apply (lookup_pairs _ _ _ _ _ HD HA). eauto. }
    congruence.
  - apply NoDup_unique.
  - intros row name Hr Ev.
    destruct (lookup_In _ _ _ HM row Hr) as (v & Ev' & Hv).
    rewrite <- Hcells in Hv. apply in_map_iff in Hv as (m & Hm & Hin).
    assert (m = Some name).
    { destruct m; simpl in Hm; congruence. }
    subst m. now apply In_unique.
Qed.

End DetailsCount.

Lemma transaction_details_count_witness :
  exists df' details,
    Details.prepare_transaction_details (fun _ => []) (fun _ => []) false None
      {| Ledger.columns := [lit "date"; lit "amount"];
         Ledger.rows :=
           [[Ledger.VTime {| Ledger.ts_year := 2024; Ledger.ts_month := 1;
                             Ledger.ts_day := 15; Ledger.ts_nanos := 0 |};
             Ledger.VFloat (PyFloat.of_decimal false 10 0)];
            [Ledger.VNaT; Ledger.VFloat (PyFloat.of_decimal true 5 0)];
            [Ledger.VTime {| Ledger.ts_year := 2024; Ledger.ts_month := 2;
                             Ledger.ts_day := 1; Ledger.ts_nanos := 0 |};
             Ledger.VFloat (PyFloat.of_decimal true 7 0)]] |}
      = Ok (df', details) /\
    list_sum (map (fun md => Shape.entries (snd md)) details) = 2%nat.
Proof.
  set (df := {| Ledger.columns := [lit "date"; lit "amount"];
                Ledger.rows :=
                  [[Ledger.VTime {| Ledger.ts_year := 2024; Ledger.ts_month := 1;
                                    Ledger.ts_day := 15; Ledger.ts_nanos := 0 |};
                    Ledger.VFloat (PyFloat.of_decimal false 10 0)];
                   [Ledger.VNaT; Ledger.VFloat (PyFloat.of_decimal true 5 0)];
                   [Ledger.VTime {| Ledger.ts_year := 2024; Ledger.ts_month := 2;
                                    Ledger.ts_day := 1; Ledger.ts_nanos := 0 |};
                    Ledger.VFloat (PyFloat.of_decimal true 7 0)]] |}).
  assert (E : exists r,
             Details.prepare_transaction_details (fun _ => []) (fun _ => []) false
               None df = Ok r)
    by (vm_compute; eexists; reflexivity).
  destruct E as [[df' details] E].
  exists df', details. split; [exact E|].
  exact (transaction_details_count (fun _ => []) (fun _ => []) false None
           df df' details
           [Ledger.VTime {| Ledger.ts_year := 2024; Ledger.ts_month := 1;
                            Ledger.ts_day := 15; Ledger.ts_nanos := 0 |};
            Ledger.VNaT;
            Ledger.VTime {| Ledger.ts_year := 2024; Ledger.ts_month := 2;
                            Ledger.ts_day := 1; Ledger.ts_nanos := 0 |}]
           [Ledger.VFloat (PyFloat.of_decimal false 10 0);
            Ledger.VFloat (PyFloat.of_decimal true 5 0);
            Ledger.VFloat (PyFloat.of_decimal true 7 0)]
           ltac:(repeat constructor) eq_refl eq_refl eq_refl eq_refl E).
Defined.

(** ** Rows without a date *)

Section MissingDates.
Import PyStr PyFloat Amount Ledger Hasher Store Aggregator Details Shape.

Variable to_datetime : list cell -> list (option timestamp).
Hypothesis to_datetime_length :
  forall cells, length (to_datetime cells) = length cells.
Variable minus_zero : bool.
Variable nat_as_text : bool.
Variable float_repr : float -> str.
Variable timestamp_str : timestamp -> str.


End MissingDates.


